(** * Agent-to-agent message layer: envelopes, bus, threader, tasks, agents

    A shallow embedding of [a2a_protocol.py], [a2a_standard_protocol.py],
    [a2a_task_context.py], the agents of [a2a_company_agent.py],
    [a2a_person_agent.py] and [a2a_standard_demo.py] and the coordinator of
    [a2a_coordinator.py], with the properties of their message codec, message
    bus, conversation threader, task manager and handlers. *)

From stdpp Require Import base option list gmap strings pretty.
From Stdlib Require Import ZArith Lia.

Local Open Scope string_scope.
Local Open Scope list_scope.

(** ** Python values

    The values that travel through [Dict[str, Any]] fields: [None], [bool],
    [int], [str], [list] and [dict] with string keys. A [dict] is a finite map,
    so two dicts with the same items are equal whatever their insertion
    order, as with Python's [==]. Floats do not occur in this code. *)

Module Py.

#[warnings="-register-all"]
Inductive pyval : Type :=
  | PyNone
  | PyBool (b : bool)
  | PyInt (z : Z)
  | PyStr (s : string)
  | PyList (l : list pyval)
  | PyDict (d : gmap string pyval).

Abbreviation dict := (gmap string pyval).

(** [bool(v)], the test behind [if v:] and [a or b]. *)
Definition truthy (v : pyval) : bool :=
  match v with
  | PyNone => false
  | PyBool b => b
  | PyInt z => negb (z =? 0)%Z
  | PyStr s => negb (String.eqb s "")
  | PyList l => match l with [] => false | _ :: _ => true end
  | PyDict d => negb (bool_decide (size d = 0))
  end.

(** [v == s] for a string literal [s]: only a [str] equals a [str]. *)
Definition eq_str (v : pyval) (s : string) : bool :=
  match v with
  | PyStr s' => String.eqb s' s
  | _ => false
  end.

(** [v in [s1, s2, ...]] for a list of string literals. *)
Definition in_strs (v : pyval) (l : list string) : bool :=
  existsb (eq_str v) l.

(** [sub in s] on strings: [sub] occurs in [s] as a substring. *)
Fixpoint contains (sub s : string) : bool :=
  String.prefix sub s ||
  match s with
  | EmptyString => false
  | String _ s' => contains sub s'
  end.

(** Exceptions. [AttributeError] carries the name of the type of the object
    and the name of the attribute it lacks, the two things its text is made of
    (['str' object has no attribute 'get']). [Exception_] stands for any other class derived from
    [Exception], [BaseException_] for the classes that are not
    ([KeyboardInterrupt], [SystemExit], [GeneratorExit]). *)
Inductive exn : Type :=
  | KeyError (key : string)
  | ValueError (v : pyval) (enum : string)
  | TypeError (what : string)
  | AttributeError (type_name attr : string)
  | Exception_ (cls msg : string)
  | BaseException_ (cls : string).

(** [isinstance(e, Exception)], what [except Exception] catches. *)
Definition is_Exception (e : exn) : bool :=
  match e with
  | BaseException_ _ => false
  | _ => true
  end.

(** A call either returns or raises. *)
Inductive result (A : Type) : Type :=
  | Ok (a : A)
  | Raise (e : exn).
Global Arguments Ok {A} a.
Global Arguments Raise {A} e.

Global Instance result_ret : MRet result := fun A a => Ok a.
Global Instance result_bind : MBind result := fun A B f m =>
  match m with
  | Ok a => f a
  | Raise e => Raise e
  end.

(** The outcome of a [from_dict]. A dataclass constructor does not check
    its annotations: where a field that this development types as annotated
    gets a value of another type, the call still returns an object, one that
    the typed record cannot hold. [Untyped] names such a field. Nothing is
    raised then, so [Untyped] is decided last, after every exception the call
    could raise. *)
Inductive decoded (A : Type) : Type :=
  | Decoded (a : A)
  | Failed (e : exn)
  | Untyped (field : string).
Global Arguments Decoded {A} a.
Global Arguments Failed {A} e.
Global Arguments Untyped {A} field.

(** [d[key]] *)
Definition getitem (d : dict) (key : string) : result pyval :=
  match d !! key with
  | Some v => Ok v
  | None => Raise (KeyError key)
  end.

(** [d.get(key)] and [d.get(key, dflt)] *)
Definition get (d : dict) (key : string) : pyval := default PyNone (d !! key).
Definition get_or (d : dict) (key : string) (dflt : pyval) : pyval :=
  default dflt (d !! key).

(** [type(v).__name__] *)
Definition type_name (v : pyval) : string :=
  match v with
  | PyNone => "NoneType"
  | PyBool _ => "bool"
  | PyInt _ => "int"
  | PyStr _ => "str"
  | PyList _ => "list"
  | PyDict _ => "dict"
  end.

(** [v.get(key, dflt)] on an arbitrary value: only a dict has [get]. *)
Definition call_get (v : pyval) (key : string) (dflt : pyval) : result pyval :=
  match v with
  | PyDict d => Ok (get_or d key dflt)
  | _ => Raise (AttributeError (type_name v) "get")
  end.

(** [for x in v]: the items the loop visits. Iterating a dict yields its keys
    and iterating a string its characters. *)
Fixpoint chars (s : string) : list pyval :=
  match s with
  | EmptyString => []
  | String c s' => PyStr (String c EmptyString) :: chars s'
  end.

Definition iterate (v : pyval) : result (list pyval) :=
  match v with
  | PyList l => Ok l
  | PyDict d => Ok ((fun kv => PyStr kv.1) <$> map_to_list d)
  | PyStr s => Ok (chars s)
  | _ => Raise (TypeError "not iterable")
  end.

(** [lit in v] for a string literal [lit]: substring test on a string,
    element test on a list, key test on a dict. *)
Definition str_in (lit : string) (v : pyval) : result bool :=
  match v with
  | PyStr s => Ok (contains lit s)
  | PyList l => Ok (existsb (fun x => eq_str x lit) l)
  | PyDict d => Ok (bool_decide (is_Some (d !! lit)))
  | _ => Raise (TypeError "not iterable")
  end.

(** [a or b] on tests: [b] is evaluated only when [a] is false. *)
Definition or_ (a b : result bool) : result bool :=
  match a with
  | Ok true => Ok true
  | Ok false => b
  | Raise e => Raise e
  end.

(** [l[start:]] *)
Definition slice_from {A} (start : Z) (l : list A) : list A :=
  let len := Z.of_nat (length l) in
  let start := if (start <? 0)%Z then Z.max 0 (len + start) else Z.min start len in
  drop (Z.to_nat start) l.

(** Optional strings as values. *)
Definition of_opt_str (o : option string) : pyval :=
  match o with
  | Some s => PyStr s
  | None => PyNone
  end.

End Py.
Import Py.

(** ** Agent roles

    [AgentRole] is declared with the same members in [a2a_protocol.py] and
    in [a2a_standard_protocol.py]. *)

Inductive AgentRole : Type :=
  | COMPANY_AGENT
  | PERSON_AGENT
  | COORDINATOR
  | WEATHER_AGENT.

Global Instance AgentRole_eq_dec : EqDecision AgentRole.
Proof. solve_decision. Defined.

Definition AgentRole_to_nat (r : AgentRole) : nat :=
  match r with
  | COMPANY_AGENT => 0
  | PERSON_AGENT => 1
  | COORDINATOR => 2
  | WEATHER_AGENT => 3
  end.

Definition AgentRole_of_nat (n : nat) : option AgentRole :=
  match n with
  | 0 => Some COMPANY_AGENT
  | 1 => Some PERSON_AGENT
  | 2 => Some COORDINATOR
  | 3 => Some WEATHER_AGENT
  | _ => None
  end.

Global Instance AgentRole_countable : Countable AgentRole.
Proof.
  apply (inj_countable AgentRole_to_nat AgentRole_of_nat).
  by intros [].
Defined.

(** [role.value] *)
Definition AgentRole_value (r : AgentRole) : string :=
  match r with
  | COMPANY_AGENT => "company_agent"
  | PERSON_AGENT => "person_agent"
  | COORDINATOR => "coordinator"
  | WEATHER_AGENT => "weather_agent"
  end.

(** [AgentRole(v)]: lookup of a member by value. *)
Definition AgentRole_call (v : pyval) : result AgentRole :=
  if eq_str v "company_agent" then Ok COMPANY_AGENT
  else if eq_str v "person_agent" then Ok PERSON_AGENT
  else if eq_str v "coordinator" then Ok COORDINATOR
  else if eq_str v "weather_agent" then Ok WEATHER_AGENT
  else Raise (ValueError v "AgentRole").

(** ** The legacy envelope ([a2a_protocol.py]) *)

Module Legacy.

Inductive MessageType : Type :=
  | REQUEST
  | RESPONSE
  | NOTIFICATION
  | ERROR.

Definition MessageType_value (t : MessageType) : string :=
  match t with
  | REQUEST => "request"
  | RESPONSE => "response"
  | NOTIFICATION => "notification"
  | ERROR => "error"
  end.

(** [MessageType(v)] *)
Definition MessageType_call (v : pyval) : result MessageType :=
  if eq_str v "request" then Ok REQUEST
  else if eq_str v "response" then Ok RESPONSE
  else if eq_str v "notification" then Ok NOTIFICATION
  else if eq_str v "error" then Ok ERROR
  else Raise (ValueError v "MessageType").

(** The dataclass, typed as annotated. [content] is the free-form payload. *)
Record A2AMessage : Type := {
  sender : AgentRole;
  receiver : AgentRole;
  message_type : MessageType;
  content : pyval;
  message_id : string;
  timestamp : string;
  in_reply_to : option string
}.

Definition to_dict (self : A2AMessage) : dict :=
  list_to_map [
    ("sender", PyStr (AgentRole_value (sender self)));
    ("receiver", PyStr (AgentRole_value (receiver self)));
    ("message_type", PyStr (MessageType_value (message_type self)));
    ("content", content self);
    ("message_id", PyStr (message_id self));
    ("timestamp", PyStr (timestamp self));
    ("in_reply_to", of_opt_str (in_reply_to self))
  ].

(** The arguments of [cls(...)], evaluated left to right; the first
    exception ends the call. *)
Definition from_dict_args (data : dict)
  : result (AgentRole * AgentRole * MessageType * pyval * pyval * pyval * pyval) :=
  s ← getitem data "sender";
  sender ← AgentRole_call s;
  r ← getitem data "receiver";
  receiver ← AgentRole_call r;
  t ← getitem data "message_type";
  message_type ← MessageType_call t;
  content ← getitem data "content";
  message_id ← getitem data "message_id";
  timestamp ← getitem data "timestamp";
  let in_reply_to := get data "in_reply_to" in
  Ok (sender, receiver, message_type, content, message_id, timestamp, in_reply_to).

(** [message_id] and [timestamp] are strings and [in_reply_to] is [None]
    or a string, as annotated; [from_dict] is [Untyped] on other values. *)
Definition from_dict (data : dict) : decoded A2AMessage :=
  match from_dict_args data with
  | Raise e => Failed e
  | Ok (sender, receiver, message_type, content, message_id, timestamp, in_reply_to) =>
      match message_id, timestamp with
      | PyStr mid, PyStr ts =>
          match in_reply_to with
          | PyNone =>
              Decoded {| sender := sender; receiver := receiver;
                         message_type := message_type; content := content;
                         message_id := mid; timestamp := ts; in_reply_to := None |}
          | PyStr irt =>
              Decoded {| sender := sender; receiver := receiver;
                         message_type := message_type; content := content;
                         message_id := mid; timestamp := ts; in_reply_to := Some irt |}
          | _ => Untyped "in_reply_to"
          end
      | PyStr _, _ => Untyped "timestamp"
      | _, _ => Untyped "message_id"
      end
  end.

(** [create_message]; [uuid] is the value of [str(uuid.uuid4())] and [now]
    of [datetime.now().isoformat()] at the call. *)
Definition create_message (uuid now : string)
    (sender receiver : AgentRole) (message_type : MessageType)
    (content : pyval) (in_reply_to : option string) : A2AMessage :=
  {| sender := sender; receiver := receiver; message_type := message_type;
     content := content; message_id := uuid; timestamp := now;
     in_reply_to := in_reply_to |}.

Definition create_request (uuid now : string) (sender receiver : AgentRole)
    (action : string) (params : pyval) : A2AMessage :=
  create_message uuid now sender receiver REQUEST
    (PyDict (list_to_map [("action", PyStr action); ("params", params)])) None.

Definition create_response (uuid now : string) (sender receiver : AgentRole)
    (data : pyval) (in_reply_to : string) : A2AMessage :=
  create_message uuid now sender receiver RESPONSE
    (PyDict (list_to_map [("data", data)])) (Some in_reply_to).

Definition create_notification (uuid now : string) (sender receiver : AgentRole)
    (event : string) (data : pyval) : A2AMessage :=
  create_message uuid now sender receiver NOTIFICATION
    (PyDict (list_to_map [("event", PyStr event); ("data", data)])) None.

Definition create_error (uuid now : string) (sender receiver : AgentRole)
    (error : string) (in_reply_to : string) : A2AMessage :=
  create_message uuid now sender receiver ERROR
    (PyDict (list_to_map [("error", PyStr error)])) (Some in_reply_to).

End Legacy.

(** ** The standard message ([a2a_standard_protocol.py]) *)

Module Standard.

(** The three Part dataclasses. The bus takes the length of a text Part's
    [text], so that field is a string, as annotated; the other fields are only
    stored, tested for truth and written back, and hold whatever value they
    are given. [T] is the type of [text]: [string] in a Part, [pyval] in what
    [from_dict] reads from a dictionary before the message is built. *)
Inductive Part_of (T : Type) : Type :=
  | TextPart (type : pyval) (text : T)
  | JsonPart (type json : pyval)
  | FilePart (type uri data filename : pyval).
Global Arguments TextPart {T} type text.
Global Arguments JsonPart {T} type json.
Global Arguments FilePart {T} type uri data filename.

Abbreviation Part := (Part_of string).

Definition Part_to_dict (part : Part) : dict :=
  match part with
  | TextPart type text => list_to_map [("type", type); ("text", PyStr text)]
  | JsonPart type json => list_to_map [("type", type); ("json", json)]
  | FilePart type uri data filename =>
      let result : dict := {["type" := type]} in
      let result := if truthy uri then <["uri" := uri]> result else result in
      let result := if truthy data then <["data" := data]> result else result in
      let result := if truthy filename then <["filename" := filename]> result else result in
      result
  end.

Record A2AMessage : Type := {
  role : pyval;
  parts : list Part;
  metadata : pyval
}.

Definition to_dict (self : A2AMessage) : dict :=
  list_to_map [
    ("role", role self);
    ("parts", PyList ((fun part => PyDict (Part_to_dict part)) <$> parts self));
    ("metadata", metadata self)
  ].

(** One turn of the loop in [from_dict]: the Part to append, if any. *)
Definition from_dict_part (part_data : pyval) : result (option (Part_of pyval)) :=
  part_type ← call_get part_data "type" (PyStr "");
  if in_strs part_type ["text"; "text/plain"] then
    text ← call_get part_data "text" (PyStr "");
    Ok (Some (TextPart part_type text))
  else if in_strs part_type ["json"; "application/json"] then
    json ← call_get part_data "json" PyNone;
    Ok (Some (JsonPart part_type json))
  else
    is_file ← or_ (str_in "file" part_type) (str_in "/" part_type);
    if is_file : bool then
      uri ← call_get part_data "uri" PyNone;
      data ← call_get part_data "data" PyNone;
      filename ← call_get part_data "filename" PyNone;
      Ok (Some (FilePart part_type uri data filename))
    else Ok None.

(** The loop, with [parts] the list built so far. *)
Fixpoint from_dict_loop (items : list pyval) (parts : list (Part_of pyval))
    : result (list (Part_of pyval)) :=
  match items with
  | [] => Ok parts
  | part_data :: items =>
      p ← from_dict_part part_data;
      from_dict_loop items (parts ++ option_list p)
  end.

(** The body of [from_dict] up to the call of [cls(...)]: the loop runs
    first, then [data["role"]] is looked up. *)
Definition from_dict_args (data : dict)
    : result (pyval * list (Part_of pyval) * pyval) :=
  items ← iterate (get_or data "parts" (PyList []));
  parts ← from_dict_loop items [];
  role ← getitem data "role";
  Ok (role, parts, get_or data "metadata" (PyDict ∅)).

(** A Part as read is a Part when the [text] it carries is a string. *)
Definition typed_part (part : Part_of pyval) : option Part :=
  match part with
  | TextPart type (PyStr text) => Some (TextPart type text)
  | TextPart _ _ => None
  | JsonPart type json => Some (JsonPart type json)
  | FilePart type uri data filename => Some (FilePart type uri data filename)
  end.

(** A Part seen as read from a dictionary. *)
Definition as_read (part : Part) : Part_of pyval :=
  match part with
  | TextPart type text => TextPart type (PyStr text)
  | JsonPart type json => JsonPart type json
  | FilePart type uri data filename => FilePart type uri data filename
  end.

Definition from_dict (data : dict) : decoded A2AMessage :=
  match from_dict_args data with
  | Raise e => Failed e
  | Ok (role, parts, metadata) =>
      match mapM typed_part parts with
      | Some parts => Decoded {| role := role; parts := parts; metadata := metadata |}
      | None => Untyped "text"
      end
  end.

(** The helper constructors. [metadata or {}] is the given dict, or the
    empty one for [None] (and for an empty dict, which is the same value). *)
Definition or_empty (metadata : option dict) : dict := default ∅ metadata.

Definition create_text_message (role text : string) (metadata : option dict) : A2AMessage :=
  {| role := PyStr role;
     parts := [TextPart (PyStr "text") text];
     metadata := PyDict (or_empty metadata) |}.

Definition create_json_message (role : string) (data : pyval) (metadata : option dict) : A2AMessage :=
  {| role := PyStr role;
     parts := [JsonPart (PyStr "json") data];
     metadata := PyDict (or_empty metadata) |}.

Definition create_request_message (action : string) (params : pyval)
    (metadata : option dict) : A2AMessage :=
  let request_data : dict := list_to_map [("action", PyStr action); ("params", params)] in
  let meta := <["message_type" := PyStr "request"]> (or_empty metadata) in
  {| role := PyStr "user";
     parts := [TextPart (PyStr "text") ("Request: " +:+ action);
               JsonPart (PyStr "json") (PyDict request_data)];
     metadata := PyDict meta |}.

Definition create_response_message (data : pyval) (metadata : option dict) : A2AMessage :=
  let meta := <["message_type" := PyStr "response"]> (or_empty metadata) in
  {| role := PyStr "agent";
     parts := [JsonPart (PyStr "json") data];
     metadata := PyDict meta |}.

(** The routing shell. It has [to_dict] and no [from_dict]; it is only ever
    built by its constructor, so its fields are typed as annotated. *)
Record AgentMessage : Type := {
  message : A2AMessage;
  sender : AgentRole;
  receiver : AgentRole;
  message_id : string;
  timestamp : string;
  in_reply_to : option string
}.

Definition AgentMessage_to_dict (self : AgentMessage) : dict :=
  list_to_map [
    ("message", PyDict (to_dict (message self)));
    ("sender", PyStr (AgentRole_value (sender self)));
    ("receiver", PyStr (AgentRole_value (receiver self)));
    ("message_id", PyStr (message_id self));
    ("timestamp", PyStr (timestamp self));
    ("in_reply_to", of_opt_str (in_reply_to self))
  ].

Definition create_agent_message (uuid now : string) (sender receiver : AgentRole)
    (message : A2AMessage) (in_reply_to : option string) : AgentMessage :=
  {| message := message; sender := sender; receiver := receiver;
     message_id := uuid; timestamp := now; in_reply_to := in_reply_to |}.

(** The messages that [from_dict] gives back unchanged: each Part carries a
    type tag that selects its own branch, and the optional fields of a file
    Part are [None] or non-empty. *)
Definition file_type_ok (type : pyval) : bool :=
  match type with
  | PyStr s =>
      negb (in_strs type ["text"; "text/plain"; "json"; "application/json"])
      && (contains "file" s || contains "/" s)
  | _ => false
  end.

Definition opt_field_ok (v : pyval) : bool :=
  match v with
  | PyNone => true
  | _ => truthy v
  end.

Definition part_ok (part : Part) : bool :=
  match part with
  | TextPart type _ => in_strs type ["text"; "text/plain"]
  | JsonPart type _ => in_strs type ["json"; "application/json"]
  | FilePart type uri data filename =>
      file_type_ok type && opt_field_ok uri && opt_field_ok data && opt_field_ok filename
  end.

End Standard.

(** ** The message bus and the conversation threader

    [MessageBus] is written twice, in [a2a_protocol.py] and in
    [a2a_standard_protocol.py]. The two classes route, record and thread in
    the same way, and [get_conversation] is the same text in both; they differ
    in the envelope they carry and in what they print. The bus is therefore
    given once, over the envelope type, its projections and the set of lines
    the class prints, and instantiated for each file below. *)

Module Bus.

(** What a handler does, as far as the bus can tell: it returns a response
    or [None], raises, or first sends an envelope through the bus (a nested
    [send_message]) and goes on with what that call returned or raised.
    [try]/[except] around a nested send is a continuation that accepts
    [Raise e]; one that lets the exception through answers [Throw e]. *)
Inductive prog (Msg : Type) : Type :=
  | Return (response : option Msg)
  | Throw (e : exn)
  | Send (m : Msg) (k : result (option Msg) → prog Msg).
Global Arguments Return {Msg} response.
Global Arguments Throw {Msg} e.
Global Arguments Send {Msg} m k.

(** The lines a bus prints, one constructor per print site, with the values
    the line interpolates; the formatting of the text is left out.
    [SendingMessage] stands for the block printed on entry of [send_message]
    and [ResponseReceived] for the block printed for a response. Formatting
    them cannot raise: it reads enum values and strings, and the preview of a
    text Part takes the length and a slice of a string. *)
Inductive line (Msg : Type) : Type :=
  | BusInitialized
  | AgentRegistered (role : AgentRole)
  | SendingMessage (m : Msg)
  | AddedToHistory (total : nat)
  | RoutingToHandler (role : AgentRole)
  | ResponseReceived (response : Msg)
  | NoResponseGenerated
  | ErrorInHandler (e : exn)
  | NoHandlerRegistered (role : AgentRole).
Global Arguments BusInitialized {Msg}.
Global Arguments AgentRegistered {Msg} role.
Global Arguments SendingMessage {Msg} m.
Global Arguments AddedToHistory {Msg} total.
Global Arguments RoutingToHandler {Msg} role.
Global Arguments ResponseReceived {Msg} response.
Global Arguments NoResponseGenerated {Msg}.
Global Arguments ErrorInHandler {Msg} e.
Global Arguments NoHandlerRegistered {Msg} role.

(** Ghost events, kept to state how often handlers run: [Invoked role m]
    when the handler registered for [role] is called with [m], [Finished m r]
    when the [send_message] call for [m] returns or raises [r]. *)
Inductive event (Msg : Type) : Type :=
  | Invoked (role : AgentRole) (m : Msg)
  | Finished (m : Msg) (r : result (option Msg)).
Global Arguments Invoked {Msg} role m.
Global Arguments Finished {Msg} m r.

Record MessageBus (Msg : Type) : Type := {
  message_history : list Msg;
  agent_handlers : gmap AgentRole (Msg → prog Msg);
  stdout : list (line Msg);
  trace : list (event Msg)
}.
Global Arguments message_history {Msg} _.
Global Arguments agent_handlers {Msg} _.
Global Arguments stdout {Msg} _.
Global Arguments trace {Msg} _.

Section Bus.
Context {Msg : Type}.
(** The envelope's routing fields. *)
Variable receiver : Msg → AgentRole.
Variable message_id : Msg → string.
Variable in_reply_to : Msg → option string.
(** The lines this bus prints. *)
Variable prints : line Msg → bool.

Definition say (l : line Msg) (bus : MessageBus Msg) : MessageBus Msg :=
  if prints l then
    {| message_history := message_history bus; agent_handlers := agent_handlers bus;
       stdout := stdout bus ++ [l]; trace := trace bus |}
  else bus.

Definition note (ev : event Msg) (bus : MessageBus Msg) : MessageBus Msg :=
  {| message_history := message_history bus; agent_handlers := agent_handlers bus;
     stdout := stdout bus; trace := trace bus ++ [ev] |}.

(** [self.message_history.append(m)] *)
Definition append (m : Msg) (bus : MessageBus Msg) : MessageBus Msg :=
  {| message_history := message_history bus ++ [m]; agent_handlers := agent_handlers bus;
     stdout := stdout bus; trace := trace bus |}.

Definition init : MessageBus Msg :=
  say BusInitialized
    {| message_history := []; agent_handlers := ∅; stdout := []; trace := [] |}.

Definition register_agent (role : AgentRole) (handler : Msg → prog Msg)
    (bus : MessageBus Msg) : MessageBus Msg :=
  say (AgentRegistered role)
    {| message_history := message_history bus;
       agent_handlers := <[role := handler]> (agent_handlers bus);
       stdout := stdout bus; trace := trace bus |}.

(** What a call leaves behind: the bus and the value returned or the
    exception raised. [None] in place of it means that the fuel ran out. *)
Definition outcome : Type := option (MessageBus Msg * result (option Msg)).

(** Running a handler, given the bus's [send_message]. *)
Fixpoint run (send : MessageBus Msg → Msg → outcome) (p : prog Msg)
    (bus : MessageBus Msg) : outcome :=
  match p with
  | Return response => Some (bus, Ok response)
  | Throw e => Some (bus, Raise e)
  | Send m k =>
      match send bus m with
      | Some (bus, r) => run send (k r) bus
      | None => None
      end
  end.

(** [send_message]. [fuel] bounds the depth of nested sends. A response
    object is always true in [if response:], so the test is on [None].
    The [except Exception] clause of the standard bus prints
    [ErrorInHandler] and raises again; the legacy bus has no such clause
    and prints nothing there, which [prints] decides. *)
Fixpoint send_message (fuel : nat) (bus : MessageBus Msg) (message : Msg) : outcome :=
  match fuel with
  | 0 => None
  | S fuel =>
      let bus := say (SendingMessage message) bus in
      let bus := append message bus in
      let bus := say (AddedToHistory (length (message_history bus))) bus in
      match agent_handlers bus !! receiver message with
      | Some handler =>
          let bus := say (RoutingToHandler (receiver message)) bus in
          let bus := note (Invoked (receiver message) message) bus in
          match run (send_message fuel) (handler message) bus with
          | Some (bus, Ok (Some response)) =>
              let bus := append response bus in
              let bus := say (ResponseReceived response) bus in
              Some (note (Finished message (Ok (Some response))) bus, Ok (Some response))
          | Some (bus, Ok None) =>
              let bus := say NoResponseGenerated bus in
              Some (note (Finished message (Ok None)) bus, Ok None)
          | Some (bus, Raise e) =>
              let bus := say (ErrorInHandler e) bus in
              Some (note (Finished message (Raise e)) bus, Raise e)
          | None => None
          end
      | None =>
          let bus := say (NoHandlerRegistered (receiver message)) bus in
          Some (note (Finished message (Ok None)) bus, Ok None)
      end
  end.

(** The bus as the handler finds it: the request is in the history and
    the handler is about to be called. *)
Definition at_handler (message : Msg) (bus : MessageBus Msg) : MessageBus Msg :=
  let bus := say (SendingMessage message) bus in
  let bus := append message bus in
  let bus := say (AddedToHistory (length (message_history bus))) bus in
  let bus := say (RoutingToHandler (receiver message)) bus in
  note (Invoked (receiver message) message) bus.

(** The loop of [get_conversation]: [next(...)] is the first entry of the
    history that passes the test. [fuel] bounds the number of turns. *)
Fixpoint replies (fuel : nat) (history : list Msg) (current_id : string)
    (conversation : list Msg) : option (list Msg) :=
  match fuel with
  | 0 => None
  | S fuel =>
      match find (fun m => bool_decide (in_reply_to m = Some current_id)) history with
      | None => Some conversation
      | Some reply => replies fuel history (message_id reply) (conversation ++ [reply])
      end
  end.

Definition get_conversation (fuel : nat) (bus : MessageBus Msg) (id : string)
    : option (list Msg) :=
  match find (fun m => String.eqb (message_id m) id) (message_history bus) with
  | Some initial => replies fuel (message_history bus) id [initial]
  | None => Some []
  end.

(** [x] is the first entry of the history, in insertion order, that
    replies to [id]. *)
Definition first_reply (history : list Msg) (id : string) (x : Msg) : Prop :=
  ∃ before after,
    history = before ++ x :: after ∧
    in_reply_to x = Some id ∧
    ∀ y, y ∈ before → in_reply_to y ≠ Some id.

(** Each entry of a thread after the first is the first reply, in history
    order, to the entry before it. *)
Definition linked (history conversation : list Msg) : Prop :=
  ∀ i prev x, conversation !! i = Some prev → conversation !! S i = Some x →
    first_reply history (message_id prev) x.

(** The history entries a finished send adds for what it got back. *)
Definition response_entry (r : result (option Msg)) : list Msg :=
  match r with
  | Ok (Some response) => [response]
  | _ => []
  end.

(** History entries that an event accounts for: one for each finished
    send, and one more when it got a response. *)
Definition entries_of (ev : event Msg) : nat :=
  match ev with
  | Invoked _ _ => 0
  | Finished _ (Ok (Some _)) => 2
  | Finished _ _ => 1
  end.

(** The traces of a sequence of complete sends: a send to a role without
    a handler leaves its [Finished] event alone; a send to a role with a
    handler leaves one [Invoked] event for that role and that envelope,
    then the events of the sends the handler made, then its [Finished]
    event. *)
Inductive nested (handlers : gmap AgentRole (Msg → prog Msg))
    : list (event Msg) → Prop :=
  | nested_nil : nested handlers []
  | nested_miss tr m :
      nested handlers tr →
      handlers !! receiver m = None →
      nested handlers (tr ++ [Finished m (Ok None)])
  | nested_call tr inner m handler r :
      nested handlers tr →
      nested handlers inner →
      handlers !! receiver m = Some handler →
      nested handlers (tr ++ Invoked (receiver m) m :: inner ++ [Finished m r]).

(** [bus'] comes from [bus] by complete sends: the handlers are the same,
    the trace has grown by a nested stretch and the history by as many
    entries as that stretch accounts for. *)
Definition accounted (bus bus' : MessageBus Msg) : Prop :=
  ∃ (new : list (event Msg)) (added : list Msg),
    agent_handlers bus' = agent_handlers bus ∧
    trace bus' = trace bus ++ new ∧
    message_history bus' = message_history bus ++ added ∧
    nested (agent_handlers bus) new ∧
    length added = sum_list_with entries_of new.

End Bus.
End Bus.

(** The legacy bus prints on entry, for a response and for a missing
    handler, and nothing else. *)
Module LegacyBus.
Definition prints (l : Bus.line Legacy.A2AMessage) : bool :=
  match l with
  | Bus.AgentRegistered _ | Bus.SendingMessage _
  | Bus.ResponseReceived _ | Bus.NoHandlerRegistered _ => true
  | _ => false
  end.

Abbreviation MessageBus := (Bus.MessageBus Legacy.A2AMessage).
Definition init : MessageBus := Bus.init prints.
Definition register_agent := Bus.register_agent (Msg := Legacy.A2AMessage) prints.
Definition send_message := Bus.send_message Legacy.receiver prints.
Definition get_conversation :=
  Bus.get_conversation (Msg := Legacy.A2AMessage) Legacy.message_id Legacy.in_reply_to.
End LegacyBus.

(** The standard bus prints through [_log], that is when [verbose] is set;
    the line of its [except Exception] clause needs an exception of a class
    derived from [Exception]. *)
Module StandardBus.
Definition prints (verbose : bool) (l : Bus.line Standard.AgentMessage) : bool :=
  verbose &&
  match l with
  | Bus.ErrorInHandler e => is_Exception e
  | _ => true
  end.

Abbreviation MessageBus := (Bus.MessageBus Standard.AgentMessage).
Definition init (verbose : bool) : MessageBus := Bus.init (prints verbose).
Definition register_agent (verbose : bool) :=
  Bus.register_agent (Msg := Standard.AgentMessage) (prints verbose).
Definition send_message (verbose : bool) :=
  Bus.send_message Standard.receiver (prints verbose).
Definition get_conversation :=
  Bus.get_conversation (Msg := Standard.AgentMessage)
    Standard.message_id Standard.in_reply_to.
End StandardBus.

(** ** Tasks and the task manager ([a2a_task_context.py])

    A [Task] is a mutable object that the manager keeps and hands out, and
    its [history] and [artifacts] are list objects of their own. Objects
    therefore live in a heap and are named by references, so that a change
    made through one holder of a reference is seen by every other. The
    progress lines the methods print are left out. *)

Module TaskContext.

Inductive TaskState : Type :=
  | SUBMITTED
  | WORKING
  | INPUT_REQUIRED
  | COMPLETED
  | CANCELED
  | FAILED
  | UNKNOWN.

Definition TaskState_value (s : TaskState) : string :=
  match s with
  | SUBMITTED => "submitted"
  | WORKING => "working"
  | INPUT_REQUIRED => "input-required"
  | COMPLETED => "completed"
  | CANCELED => "canceled"
  | FAILED => "failed"
  | UNKNOWN => "unknown"
  end.

Record TaskStatus : Type := {
  state : TaskState;
  message : option Standard.A2AMessage;
  timestamp : string
}.

Definition ref : Type := nat.

Record Task : Type := {
  id : string;
  session_id : string;
  status : TaskStatus;
  history : ref;
  artifacts : ref;
  metadata : dict
}.

Inductive object : Type :=
  | TaskObj (t : Task)
  | Messages (l : list Standard.A2AMessage)
  | Artifacts (l : list dict).

Abbreviation heap := (gmap ref object).

(** A new object gets a reference that the heap does not hold yet. *)
Definition alloc (o : object) (h : heap) : ref * heap :=
  let r := fresh (dom h) in (r, <[r := o]> h).

(** [Task(id=uuid, session_id=..., metadata=...)] with the default
    factories of the other fields: a status in [SUBMITTED] stamped with the
    clock, and two new empty lists. *)
Definition Task_init (uuid now session_id : string) (metadata : dict) (h : heap)
    : ref * heap :=
  let '(hist, h) := alloc (Messages []) h in
  let '(arts, h) := alloc (Artifacts []) h in
  alloc (TaskObj {| id := uuid; session_id := session_id;
                    status := {| state := SUBMITTED; message := None; timestamp := now |};
                    history := hist; artifacts := arts; metadata := metadata |}) h.

(** Reading through references. A reference that holds no object of the
    expected class gives [None]; references obtained from [Task_init] never
    do. *)
Definition task_at (h : heap) (self : ref) : option Task :=
  match h !! self with
  | Some (TaskObj t) => Some t
  | _ => None
  end.

Definition messages_at (h : heap) (r : ref) : option (list Standard.A2AMessage) :=
  match h !! r with
  | Some (Messages l) => Some l
  | _ => None
  end.

Definition artifacts_at (h : heap) (r : ref) : option (list dict) :=
  match h !! r with
  | Some (Artifacts l) => Some l
  | _ => None
  end.

(** [self.history.append(message)] *)
Definition add_message (self : ref) (message : Standard.A2AMessage) (h : heap)
    : option heap :=
  t ← task_at h self;
  l ← messages_at h (history t);
  Some (<[history t := Messages (l ++ [message])]> h).

(** [self.status = TaskStatus(state=state, message=message)]; [now] is the
    clock reading that stamps the new status. *)
Definition update_status (self : ref) (state : TaskState)
    (message : option Standard.A2AMessage) (now : string) (h : heap) : option heap :=
  t ← task_at h self;
  Some (<[self := TaskObj {| id := id t; session_id := session_id t;
                             status := {| state := state; message := message;
                                          timestamp := now |};
                             history := history t; artifacts := artifacts t;
                             metadata := metadata t |}]> h).

(** [self.artifacts.append(artifact)] *)
Definition add_artifact (self : ref) (artifact : dict) (h : heap) : option heap :=
  t ← task_at h self;
  l ← artifacts_at h (artifacts t);
  Some (<[artifacts t := Artifacts (l ++ [artifact])]> h).

(** [if max_messages: return xs[-max_messages:]], else all of [xs]. The
    test is false for [None] and for 0. *)
Definition trailing {A} (max_messages : option Z) (xs : list A) : list A :=
  match max_messages with
  | Some n => if (n =? 0)%Z then xs else slice_from (- n)%Z xs
  | None => xs
  end.

(** [get_context]: the slice and [copy()] both build a new list. *)
Definition get_context (self : ref) (max_messages : option Z) (h : heap)
    : option (ref * heap) :=
  t ← task_at h self;
  l ← messages_at h (history t);
  Some (alloc (Messages (trailing max_messages l)) h).

Record TaskManager : Type := {
  tasks : gmap string ref;
  sessions : gmap string (list string)
}.

Definition TaskManager_init : TaskManager := {| tasks := ∅; sessions := ∅ |}.

(** [session_id or str(uuid.uuid4())]: the given id unless it is [None] or
    empty. *)
Definition session_or (session_id : option string) (uuid_session : string) : string :=
  match session_id with
  | Some s => if String.eqb s "" then uuid_session else s
  | None => uuid_session
  end.

(** [create_task]; [uuid_session] and [uuid_task] are the values of
    [str(uuid.uuid4())] for the session (drawn only when no session id is
    given) and for the task, [now] the clock reading. *)
Definition create_task (uuid_session uuid_task now : string)
    (session_id : option string) (metadata : option dict)
    (self : TaskManager) (h : heap) : ref * TaskManager * heap :=
  let sid := session_or session_id uuid_session in
  let '(task, h) := Task_init uuid_task now sid (default ∅ metadata) h in
  let tasks := <[uuid_task := task]> (tasks self) in
  let sessions :=
    match sessions self !! sid with
    | None => <[sid := []]> (sessions self)
    | Some _ => sessions self
    end in
  let sessions := <[sid := default [] (sessions !! sid) ++ [uuid_task]]> sessions in
  (task, {| tasks := tasks; sessions := sessions |}, h).

Definition get_task (self : TaskManager) (task_id : string) : option ref :=
  tasks self !! task_id.

(** [[self.tasks[tid] for tid in task_ids if tid in self.tasks]] *)
Definition get_session_tasks (self : TaskManager) (session_id : string) : list ref :=
  let task_ids := default [] (sessions self !! session_id) in
  omap (fun tid => tasks self !! tid) task_ids.

(** The loop of [get_session_context], with [all_messages] the list built
    so far. *)
Fixpoint extend_all (h : heap) (session_tasks : list ref)
    (all_messages : list Standard.A2AMessage) : option (list Standard.A2AMessage) :=
  match session_tasks with
  | [] => Some all_messages
  | task :: session_tasks =>
      t ← task_at h task;
      l ← messages_at h (history t);
      extend_all h session_tasks (all_messages ++ l)
  end.

(** [get_session_context] returns a list of its own making; it is given
    here by its contents. *)
Definition get_session_context (self : TaskManager) (session_id : string)
    (max_messages : option Z) (h : heap) : option (list Standard.A2AMessage) :=
  all_messages ← extend_all h (get_session_tasks self session_id) [];
  Some (trailing max_messages all_messages).

(** *** Calls from outside

    A client of the manager creates tasks and calls the methods of the
    tasks it looks up by id. [None] is a call on a task id that the manager
    does not know (an [AttributeError] on [None] in Python). *)
Inductive call : Type :=
  | CreateTask (uuid_session uuid_task now : string)
      (session_id : option string) (metadata : option dict)
  | AddMessage (task_id : string) (message : Standard.A2AMessage)
  | UpdateStatus (task_id : string) (state : TaskState)
      (message : option Standard.A2AMessage) (now : string)
  | AddArtifact (task_id : string) (artifact : dict).

Definition world : Type := TaskManager * heap.

Definition step (c : call) (w : world) : option world :=
  let '(manager, h) := w in
  match c with
  | CreateTask uuid_session uuid_task now session_id metadata =>
      let '(_, manager, h) :=
        create_task uuid_session uuid_task now session_id metadata manager h in
      Some (manager, h)
  | AddMessage task_id message =>
      task ← get_task manager task_id;
      h ← add_message task message h;
      Some (manager, h)
  | UpdateStatus task_id state message now =>
      task ← get_task manager task_id;
      h ← update_status task state message now h;
      Some (manager, h)
  | AddArtifact task_id artifact =>
      task ← get_task manager task_id;
      h ← add_artifact task artifact h;
      Some (manager, h)
  end.

Fixpoint run (calls : list call) (w : world) : option world :=
  match calls with
  | [] => Some w
  | c :: calls => w ← step c w; run calls w
  end.

Definition start : world := (TaskManager_init, ∅).

(** What a sequence of calls asks for: the tasks created, each with the
    session it lands in, in creation order, and the messages added to a
    task, in order. *)
Definition created (calls : list call) : list (string * string) :=
  omap (fun c =>
    match c with
    | CreateTask uuid_session uuid_task _ session_id _ =>
        Some (uuid_task, session_or session_id uuid_session)
    | _ => None
    end) calls.

Definition ids_in (cr : list (string * string)) (session_id : string) : list string :=
  omap (fun p : string * string =>
    if String.eqb p.2 session_id then Some p.1 else None) cr.

Definition messages_of (calls : list call) (task_id : string)
    : list Standard.A2AMessage :=
  omap (fun c =>
    match c with
    | AddMessage tid message => if String.eqb tid task_id then Some message else None
    | _ => None
    end) calls.

(** The task a method call is made on, and the sequences of calls in
    which every such task was created earlier in the sequence. *)
Definition target (c : call) : option string :=
  match c with
  | CreateTask _ _ _ _ _ => None
  | AddMessage task_id _ => Some task_id
  | UpdateStatus task_id _ _ _ => Some task_id
  | AddArtifact task_id _ => Some task_id
  end.

Definition well_targeted (calls : list call) : Prop :=
  ∀ i c task_id, calls !! i = Some c → target c = Some task_id →
    task_id ∈ (created (take i calls)).*1.

(** The manager and the heap agree with the calls made so far: task ids
    are pairwise distinct, every session lists the ids of the tasks created
    in it in creation order, and every task created is stored under its id
    as an object with that id and session, whose history holds the messages
    added to it and is a list of its own. *)
Definition holds_task (calls : list call) (w : world) (tid sid : string) : Prop :=
  ∃ r T a,
    tasks w.1 !! tid = Some r ∧
    w.2 !! r = Some (TaskObj T) ∧
    id T = tid ∧ session_id T = sid ∧
    w.2 !! history T = Some (Messages (messages_of calls tid)) ∧
    w.2 !! artifacts T = Some (Artifacts a).

Record consistent (calls : list call) (w : world) : Prop := {
  fresh_ids : NoDup (created calls).*1;
  sessions_ok : ∀ sid,
    sessions w.1 !! sid =
      match ids_in (created calls) sid with
      | [] => None
      | ids => Some ids
      end;
  tasks_dom : ∀ tid, tid ∉ (created calls).*1 →
    tasks w.1 !! tid = None ∧ messages_of calls tid = [];
  tasks_ok : ∀ tid sid, (tid, sid) ∈ created calls → holds_task calls w tid sid;
  histories_apart : ∀ tid tid' r r' T T',
    tasks w.1 !! tid = Some r → tasks w.1 !! tid' = Some r' →
    w.2 !! r = Some (TaskObj T) → w.2 !! r' = Some (TaskObj T') →
    history T = history T' → tid = tid'
}.

(** The reading of [get_context] in the specification: the most recent [n]
    entries of a history, in order (all of them when [n] exceeds the
    length). *)
Definition most_recent {A} (n : nat) (xs : list A) : list A :=
  drop (length xs - n) xs.

End TaskContext.

(** ** Bus statistics

    [get_statistics] returns a dictionary; its entries are given one by one.
    The entry "agents" lists the registered roles in the order of their first
    registration, which the handler map of this development does not keep; it
    is left out. *)

Module LegacyStatistics.

Global Instance MessageType_eq_dec : EqDecision Legacy.MessageType.
Proof. solve_decision. Defined.

(** [for msg_type in MessageType]: the members in definition order. *)
Definition MessageType_members : list Legacy.MessageType :=
  [Legacy.REQUEST; Legacy.RESPONSE; Legacy.NOTIFICATION; Legacy.ERROR].

(** [sum(1 for m in self.message_history if m.message_type == msg_type)] *)
Definition count_type (history : list Legacy.A2AMessage) (msg_type : Legacy.MessageType)
    : nat :=
  length (List.filter (fun m => bool_decide (Legacy.message_type m = msg_type)) history).

Definition total_messages (bus : LegacyBus.MessageBus) : nat :=
  length (Bus.message_history bus).

Definition registered_agents (bus : LegacyBus.MessageBus) : nat :=
  size (Bus.agent_handlers bus).

Definition message_types (bus : LegacyBus.MessageBus) : gmap string nat :=
  list_to_map
    ((fun msg_type => (Legacy.MessageType_value msg_type,
                       count_type (Bus.message_history bus) msg_type))
       <$> MessageType_members).

End LegacyStatistics.

Module StandardStatistics.

(** Dictionary keys. [True] and [False] are the keys 1 and 0, as in Python,
    where [True == 1] and both hash alike. *)
Inductive key : Type :=
  | KNone
  | KInt (z : Z)
  | KStr (s : string).

Global Instance key_eq_dec : EqDecision key.
Proof. solve_decision. Defined.

Global Instance key_countable : Countable key.
Proof.
  apply (inj_countable'
    (fun k => match k with
              | KNone => inl ()
              | KInt z => inr (inl z)
              | KStr s => inr (inr s)
              end)
    (fun x => match x with
              | inl _ => KNone
              | inr (inl z) => KInt z
              | inr (inr s) => KStr s
              end)).
  by intros [].
Defined.

(** Using a value as a key hashes it; lists and dicts are unhashable. *)
Definition hash_key (v : pyval) : result key :=
  match v with
  | PyNone => Ok KNone
  | PyBool b => Ok (KInt (if b then 1 else 0))
  | PyInt z => Ok (KInt z)
  | PyStr s => Ok (KStr s)
  | PyList _ | PyDict _ => Raise (TypeError "unhashable type")
  end.

(** The loop of [get_statistics]:
    [role_counts[role] = role_counts.get(role, 0) + 1]. *)
Fixpoint count_roles (history : list Standard.AgentMessage)
    (role_counts : gmap key nat) : result (gmap key nat) :=
  match history with
  | [] => Ok role_counts
  | msg :: history =>
      role ← hash_key (Standard.role (Standard.message msg));
      count_roles history (<[role := default 0 (role_counts !! role) + 1]> role_counts)
  end.

Definition total_messages (bus : StandardBus.MessageBus) : nat :=
  length (Bus.message_history bus).

Definition registered_agents (bus : StandardBus.MessageBus) : nat :=
  size (Bus.agent_handlers bus).

(** The entry "message_roles"; the loop runs before the dictionary is
    built, so its exception is the exception of [get_statistics]. *)
Definition message_roles (bus : StandardBus.MessageBus) : result (gmap key nat) :=
  count_roles (Bus.message_history bus) ∅.

(** The sum of the counts of a dictionary of counts. *)
Definition sum_counts (counts : gmap key nat) : nat :=
  sum_list (map_to_list counts).*2.

End StandardStatistics.

(** ** The context-aware message builder ([create_message_with_context]) *)

Module ContextBuilder.
Import TaskContext.

(** [f"[Context: {len(context_msgs)} previous messages in this conversation]"].
    [pretty] writes a number in decimal, as [str] does. *)
Definition context_summary (n : nat) : string :=
  "[Context: " +:+ pretty n +:+ " previous messages in this conversation]".

(** The parts, the metadata and the message. [task.get_context] makes a new
    list, so the heap grows by one object when the context is asked for and
    the history is not empty. *)
Definition create_message_with_context (role text : string) (task : ref)
    (include_context : bool) (max_context_messages : Z) (h : heap)
    : option (Standard.A2AMessage * heap) :=
  t ← task_at h task;
  l ← messages_at h (history t);
  '(parts, h') ←
    (if include_context && bool_decide (l ≠ []) then
       '(context_msgs, h') ← get_context task (Some max_context_messages) h;
       context ← messages_at h' context_msgs;
       Some ([Standard.TextPart (PyStr "text") (context_summary (length context))], h')
     else Some ([], h));
  let parts := parts ++ [Standard.TextPart (PyStr "text") text] in
  let metadata : dict :=
    list_to_map [
      ("task_id", PyStr (id t));
      ("session_id", PyStr (session_id t));
      ("message_number", PyInt (Z.of_nat (length l) + 1));
      ("has_context", PyBool include_context)
    ] in
  Some ({| Standard.role := PyStr role; Standard.parts := parts;
           Standard.metadata := PyDict metadata |}, h').

End ContextBuilder.

(** ** Parts that decoding leaves as they are

    A Part is settled when its type tag leads [from_dict] into the branch of
    the Part's own kind and the optional fields of a file Part are [None] or
    true in a test, so that [to_dict] writes them. *)

Module Settled.

Definition settled {T} (part : Standard.Part_of T) : Prop :=
  match part with
  | Standard.TextPart type _ => in_strs type ["text"; "text/plain"] = true
  | Standard.JsonPart type _ =>
      in_strs type ["text"; "text/plain"] = false ∧
      in_strs type ["json"; "application/json"] = true
  | Standard.FilePart type uri data filename =>
      in_strs type ["text"; "text/plain"] = false ∧
      in_strs type ["json"; "application/json"] = false ∧
      or_ (str_in "file" type) (str_in "/" type) = Ok true ∧
      Standard.opt_field_ok uri = true ∧
      Standard.opt_field_ok data = true ∧
      Standard.opt_field_ok filename = true
  end.

End Settled.

(** ** What the calls say about a task

    The statuses a sequence of calls gives a task, in order: the one it is
    created with and the ones [update_status] sets; and the artifacts added
    to it. *)
Module Lifecycle.
Import TaskContext.

Definition statuses_of (calls : list call) (task_id : string) : list TaskStatus :=
  omap (fun c =>
    match c with
    | CreateTask _ uuid_task now _ _ =>
        if String.eqb uuid_task task_id
        then Some {| state := SUBMITTED; message := None; timestamp := now |}
        else None
    | UpdateStatus tid state message now =>
        if String.eqb tid task_id
        then Some {| state := state; message := message; timestamp := now |}
        else None
    | _ => None
    end) calls.

Definition artifacts_of (calls : list call) (task_id : string) : list dict :=
  omap (fun c =>
    match c with
    | AddArtifact tid artifact => if String.eqb tid task_id then Some artifact else None
    | _ => None
    end) calls.

(** Every stored task carries the last status the calls gave it and the
    artifacts added to it, in a list of its own. *)
Record tracked (calls : list call) (w : world) : Prop := {
  status_ok : ∀ tid r T,
    tasks w.1 !! tid = Some r → w.2 !! r = Some (TaskObj T) →
    last (statuses_of calls tid) = Some (status T) ∧
    w.2 !! artifacts T = Some (Artifacts (artifacts_of calls tid));
  artifacts_apart : ∀ tid tid' r r' T T',
    tasks w.1 !! tid = Some r → tasks w.1 !! tid' = Some r' →
    w.2 !! r = Some (TaskObj T) → w.2 !! r' = Some (TaskObj T') →
    artifacts T = artifacts T' → tid = tid';
  untouched : ∀ tid, tid ∉ (created calls).*1 → artifacts_of calls tid = []
}.

End Lifecycle.

(** ** A caller of the bus

    A caller that makes one [send_message] call after the other and keeps
    what each returned or raised. *)
Module Caller.
Section Caller.
Context {Msg : Type}.
Variable receiver : Msg → AgentRole.
Variable prints : Bus.line Msg → bool.

Fixpoint send_all (fuel : nat) (bus : Bus.MessageBus Msg) (messages : list Msg)
    : option (Bus.MessageBus Msg * list (result (option Msg))) :=
  match messages with
  | [] => Some (bus, [])
  | message :: messages =>
      match Bus.send_message receiver prints fuel bus message with
      | None => None
      | Some (bus, r) =>
          match send_all fuel bus messages with
          | None => None
          | Some (bus, rs) => Some (bus, r :: rs)
          end
      end
  end.

(** What a handler that sends nothing gives for an envelope, if it is such
    a handler. *)
Definition answer_of (p : Bus.prog Msg) : option (result (option Msg)) :=
  match p with
  | Bus.Return response => Some (Ok response)
  | Bus.Throw e => Some (Raise e)
  | Bus.Send _ _ => None
  end.

(** The handlers of a bus none of which sends. *)
Definition no_handler_sends (bus : Bus.MessageBus Msg) : Prop :=
  ∀ role handler m, Bus.agent_handlers bus !! role = Some handler →
    is_Some (answer_of (handler m)).

(** What a send to such handlers returns or raises. *)
Definition outcome_of (bus : Bus.MessageBus Msg) (m : Msg) : result (option Msg) :=
  match Bus.agent_handlers bus !! receiver m with
  | Some handler => default (Ok None) (answer_of (handler m))
  | None => Ok None
  end.

End Caller.
End Caller.

(** ** The agents

    [a2a_company_agent.py], [a2a_person_agent.py], [a2a_coordinator.py] and
    the two agents of [a2a_standard_demo.py]. A tool is known here by what
    [tool.invoke] does with the dictionary it is given: it returns a value or
    raises. The lines the agents print themselves are left out; the texts
    they interpolate are formatted by [str], which does not raise on the
    values of this development. Each message an agent or the coordinator
    builds draws an id and a clock reading, which are parameters here. *)

Module Idioms.

(** [v[key]] for a string [key]: a lookup in a dict, a [TypeError]
    otherwise. *)
Definition subscript (v : pyval) (key : string) : result pyval :=
  match v with
  | PyDict d => getitem d key
  | PyStr _ | PyList _ => Raise (TypeError "indices must be integers")
  | _ => Raise (TypeError "not subscriptable")
  end.

(** [try: body / except Exception as e: handler(e)] *)
Definition try_except {A} (body : result A) (handler : exn → result A) : result A :=
  match body with
  | Ok a => Ok a
  | Raise e => if is_Exception e then handler e else Raise e
  end.

(** [tool.invoke({key: arg})] *)
Definition invoke (tool : pyval → result pyval) (key : string) (arg : pyval)
    : result pyval :=
  tool (PyDict {[ key := arg ]}).

(** A handler that sends nothing through the bus, as the bus sees it. *)
Definition as_prog {Msg} (r : result (option Msg)) : Bus.prog Msg :=
  match r with
  | Ok response => Bus.Return response
  | Raise e => Bus.Throw e
  end.

End Idioms.

Module A2ACompanyAgent.
Import Legacy Idioms.

Definition role : AgentRole := COMPANY_AGENT.

Section Agent.
Variable get_company_info_tool : pyval → result pyval.
Variable get_stock_price_tool : pyval → result pyval.
Variable get_company_executives_tool : pyval → result pyval.
(** [str(v)] of a value and [str(e)] of an exception. *)
Variable str : pyval → string.
Variable str_exn : exn → string.

Definition _handle_request (uuid now : string) (message : A2AMessage)
    : result (option A2AMessage) :=
  let content := content message in
  action ← call_get content "action" PyNone;
  params ← call_get content "params" (PyDict ∅);
  try_except
    (if eq_str action "get_company_info" then
       ticker ← call_get params "ticker" PyNone;
       result ← invoke get_company_info_tool "ticker" ticker;
       Ok (Some (create_response uuid now role (sender message)
                   (PyDict {[ "company_info" := result ]}) (message_id message)))
     else if eq_str action "get_stock_price" then
       ticker ← call_get params "ticker" PyNone;
       result ← invoke get_stock_price_tool "ticker" ticker;
       Ok (Some (create_response uuid now role (sender message)
                   (PyDict {[ "stock_price" := result ]}) (message_id message)))
     else if eq_str action "get_executives" then
       ticker ← call_get params "ticker" PyNone;
       result ← invoke get_company_executives_tool "ticker" ticker;
       Ok (Some (create_response uuid now role (sender message)
                   (PyDict {[ "executives" := result ]}) (message_id message)))
     else if eq_str action "full_research" then
       ticker ← call_get params "ticker" PyNone;
       company_info ← invoke get_company_info_tool "ticker" ticker;
       stock_price ← invoke get_stock_price_tool "ticker" ticker;
       executives ← invoke get_company_executives_tool "ticker" ticker;
       Ok (Some (create_response uuid now role (sender message)
                   (PyDict (list_to_map [
                      ("ticker", ticker);
                      ("company_info", company_info);
                      ("stock_price", stock_price);
                      ("executives", executives)]))
                   (message_id message)))
     else
       Ok (Some (create_error uuid now role (sender message)
                   ("Unknown action: " +:+ str action) (message_id message))))
    (fun e =>
       Ok (Some (create_error uuid now role (sender message)
                   ("Error processing request: " +:+ str_exn e) (message_id message)))).

Definition _handle_notification (message : A2AMessage) : result (option A2AMessage) :=
  event ← call_get (content message) "event" PyNone;
  Ok None.

Definition handle_message (uuid now : string) (message : A2AMessage)
    : result (option A2AMessage) :=
  match message_type message with
  | REQUEST => _handle_request uuid now message
  | NOTIFICATION => _handle_notification message
  | _ => Ok None
  end.

(** The handler as registered: [draw] gives the id and the clock reading
    for the reply to an envelope. *)
Definition handler (draw : A2AMessage → string * string) (message : A2AMessage)
    : Bus.prog A2AMessage :=
  as_prog (handle_message (draw message).1 (draw message).2 message).

(** [__init__] *)
Definition init (draw : A2AMessage → string * string) (message_bus : LegacyBus.MessageBus)
    : LegacyBus.MessageBus :=
  LegacyBus.register_agent role (handler draw) message_bus.

End Agent.
End A2ACompanyAgent.

Module A2APersonAgent.
Import Legacy Idioms.

Definition role : AgentRole := PERSON_AGENT.

Section Agent.
Variable get_person_info_tool : pyval → result pyval.
Variable get_person_career_info_tool : pyval → result pyval.
Variable search_person_news_tool : pyval → result pyval.
Variable get_person_social_media_tool : pyval → result pyval.
Variable str : pyval → string.
Variable str_exn : exn → string.

Definition _handle_request (uuid now : string) (message : A2AMessage)
    : result (option A2AMessage) :=
  let content := content message in
  action ← call_get content "action" PyNone;
  params ← call_get content "params" (PyDict ∅);
  try_except
    (if eq_str action "get_person_info" then
       person_name ← call_get params "person_name" PyNone;
       result ← invoke get_person_info_tool "person_name" person_name;
       Ok (Some (create_response uuid now role (sender message)
                   (PyDict {[ "person_info" := result ]}) (message_id message)))
     else if eq_str action "get_career_info" then
       person_name ← call_get params "person_name" PyNone;
       result ← invoke get_person_career_info_tool "person_name" person_name;
       Ok (Some (create_response uuid now role (sender message)
                   (PyDict {[ "career_info" := result ]}) (message_id message)))
     else if eq_str action "get_news" then
       person_name ← call_get params "person_name" PyNone;
       result ← invoke search_person_news_tool "person_name" person_name;
       Ok (Some (create_response uuid now role (sender message)
                   (PyDict {[ "news_info" := result ]}) (message_id message)))
     else if eq_str action "get_social_media" then
       person_name ← call_get params "person_name" PyNone;
       result ← invoke get_person_social_media_tool "person_name" person_name;
       Ok (Some (create_response uuid now role (sender message)
                   (PyDict {[ "social_media" := result ]}) (message_id message)))
     else if eq_str action "full_research" then
       person_name ← call_get params "person_name" PyNone;
       person_info ← invoke get_person_info_tool "person_name" person_name;
       career_info ← invoke get_person_career_info_tool "person_name" person_name;
       news_info ← invoke search_person_news_tool "person_name" person_name;
       social_media ← invoke get_person_social_media_tool "person_name" person_name;
       Ok (Some (create_response uuid now role (sender message)
                   (PyDict (list_to_map [
                      ("person_name", person_name);
                      ("person_info", person_info);
                      ("career_info", career_info);
                      ("news_info", news_info);
                      ("social_media", social_media)]))
                   (message_id message)))
     else if eq_str action "research_executive" then
       name ← call_get params "name" PyNone;
       title ← call_get params "title" (PyStr "");
       person_info ← invoke get_person_info_tool "person_name" name;
       career_info ← invoke get_person_career_info_tool "person_name" name;
       Ok (Some (create_response uuid now role (sender message)
                   (PyDict (list_to_map [
                      ("name", name);
                      ("title", title);
                      ("person_info", person_info);
                      ("career_info", career_info)]))
                   (message_id message)))
     else
       Ok (Some (create_error uuid now role (sender message)
                   ("Unknown action: " +:+ str action) (message_id message))))
    (fun e =>
       Ok (Some (create_error uuid now role (sender message)
                   ("Error processing request: " +:+ str_exn e) (message_id message)))).

Definition _handle_notification (message : A2AMessage) : result (option A2AMessage) :=
  event ← call_get (content message) "event" PyNone;
  Ok None.

Definition handle_message (uuid now : string) (message : A2AMessage)
    : result (option A2AMessage) :=
  match message_type message with
  | REQUEST => _handle_request uuid now message
  | NOTIFICATION => _handle_notification message
  | _ => Ok None
  end.

Definition handler (draw : A2AMessage → string * string) (message : A2AMessage)
    : Bus.prog A2AMessage :=
  as_prog (handle_message (draw message).1 (draw message).2 message).

Definition init (draw : A2AMessage → string * string) (message_bus : LegacyBus.MessageBus)
    : LegacyBus.MessageBus :=
  LegacyBus.register_agent role (handler draw) message_bus.

End Agent.
End A2APersonAgent.

Module A2ACoordinator.
Import Legacy Idioms.

Definition role : AgentRole := COORDINATOR.

Definition _handle_request (message : A2AMessage) : result (option A2AMessage) :=
  action ← call_get (content message) "action" PyNone;
  Ok None.

Definition _handle_response (message : A2AMessage) : result (option A2AMessage) :=
  Ok None.

Definition handle_message (message : A2AMessage) : result (option A2AMessage) :=
  match message_type message with
  | REQUEST => _handle_request message
  | RESPONSE => _handle_response message
  | _ => Ok None
  end.

Definition handler (message : A2AMessage) : Bus.prog A2AMessage :=
  as_prog (handle_message message).

Definition init (message_bus : LegacyBus.MessageBus) : LegacyBus.MessageBus :=
  LegacyBus.register_agent role handler message_bus.

(** What the two request methods make of what [send_message] returned:
    [response.content["data"]] of a response of type [RESPONSE], and [{}]
    otherwise. *)
Definition data_or_empty (response : option A2AMessage) : result pyval :=
  match response with
  | Some response =>
      match message_type response with
      | RESPONSE => subscript (content response) "data"
      | _ => Ok (PyDict ∅)
      end
  | None => Ok (PyDict ∅)
  end.

(** The request methods return the bus they leave behind with their
    result; [None] when [fuel] does not cover the sends. *)
Definition request (fuel : nat) (uuid now : string) (receiver : AgentRole)
    (key : string) (subject : pyval) (message_bus : LegacyBus.MessageBus)
    : option (LegacyBus.MessageBus * result pyval) :=
  let msg := create_request uuid now role receiver "full_research"
               (PyDict {[ key := subject ]}) in
  '(message_bus, response) ← LegacyBus.send_message fuel message_bus msg;
  Some (message_bus, response ≫= data_or_empty).

Definition request_person_research (fuel : nat) (uuid now : string) (person_name : pyval)
    (message_bus : LegacyBus.MessageBus) : option (LegacyBus.MessageBus * result pyval) :=
  request fuel uuid now PERSON_AGENT "person_name" person_name message_bus.

Definition request_company_research (fuel : nat) (uuid now : string) (ticker : pyval)
    (message_bus : LegacyBus.MessageBus) : option (LegacyBus.MessageBus * result pyval) :=
  request fuel uuid now COMPANY_AGENT "ticker" ticker message_bus.

(** The loop of [notify_agents] over the roles left; [draw] gives the id
    and the clock reading of the notification for a role. What
    [send_message] returns is dropped, what it raises ends the loop. *)
Fixpoint notify_loop (fuel : nat) (draw : AgentRole → string * string)
    (event : string) (data : pyval) (roles : list AgentRole)
    (message_bus : LegacyBus.MessageBus) : option (LegacyBus.MessageBus * result unit) :=
  match roles with
  | [] => Some (message_bus, Ok ())
  | agent_role :: roles =>
      let msg := create_notification (draw agent_role).1 (draw agent_role).2
                   role agent_role event data in
      match LegacyBus.send_message fuel message_bus msg with
      | Some (message_bus, Ok _) => notify_loop fuel draw event data roles message_bus
      | Some (message_bus, Raise e) => Some (message_bus, Raise e)
      | None => None
      end
  end.

Definition notify_agents (fuel : nat) (draw : AgentRole → string * string)
    (event : string) (data : pyval) (message_bus : LegacyBus.MessageBus)
    : option (LegacyBus.MessageBus * result unit) :=
  notify_loop fuel draw event data [COMPANY_AGENT; PERSON_AGENT] message_bus.

End A2ACoordinator.

(** The workflow of the coordinator. *)
Module Workflow.
Import Legacy Idioms.

(** [len(v)] *)
Definition len (v : pyval) : result nat :=
  match v with
  | PyStr s => Ok (String.length s)
  | PyList l => Ok (length l)
  | PyDict d => Ok (size d)
  | _ => Raise (TypeError "has no len()")
  end.

(** [v[:n]]. A slice of a dict raises; which exception depends on the
    version of Python ([TypeError] before 3.12, [KeyError] from it on), so it
    is a parameter. *)
Definition slice_to (dict_slice : exn) (n : nat) (v : pyval) : result pyval :=
  match v with
  | PyList l => Ok (PyList (take n l))
  | PyStr s => Ok (PyStr (String.substring 0 n s))
  | PyDict _ => Raise dict_slice
  | _ => Raise (TypeError "not subscriptable")
  end.

(** [{"ticker": ..., "company_data": ..., "executives_research": [...]}] *)
Definition results (ticker company_data : pyval) (executives_research : list pyval) : pyval :=
  PyDict (list_to_map [
    ("ticker", ticker);
    ("company_data", company_data);
    ("executives_research", PyList executives_research)]).

(** What one turn of the loop appends to [results["executives_research"]]. *)
Definition research_entry (exec_info : pyval) (person_response : option A2AMessage)
    : result (list pyval) :=
  match person_response with
  | Some person_response =>
      match message_type person_response with
      | RESPONSE =>
          research ← subscript (content person_response) "data";
          Ok [PyDict (list_to_map [("executive", exec_info); ("research", research)])]
      | _ => Ok []
      end
  | None => Ok []
  end.

(** The loop over [enumerate(executives_list[:5], 1)], with [research] the
    list built so far; [draw idx] gives the id and the clock reading of the
    request of turn [idx]. *)
Fixpoint research_loop (fuel : nat) (draw : nat → string * string) (idx : nat)
    (executives : list pyval) (research : list pyval) (message_bus : LegacyBus.MessageBus)
    : option (LegacyBus.MessageBus * result (list pyval)) :=
  match executives with
  | [] => Some (message_bus, Ok research)
  | exec_info :: executives =>
      match (name ← call_get exec_info "name" PyNone;
             title ← call_get exec_info "title" PyNone;
             Ok (name, title)) with
      | Raise e => Some (message_bus, Raise e)
      | Ok (name, title) =>
          let msg := create_request (draw idx).1 (draw idx).2 A2ACoordinator.role
                       PERSON_AGENT "research_executive"
                       (PyDict (list_to_map [("name", name); ("title", title)])) in
          match LegacyBus.send_message fuel message_bus msg with
          | None => None
          | Some (message_bus, Raise e) => Some (message_bus, Raise e)
          | Some (message_bus, Ok person_response) =>
              match research_entry exec_info person_response with
              | Raise e => Some (message_bus, Raise e)
              | Ok new =>
                  research_loop fuel draw (S idx) executives (research ++ new) message_bus
              end
          end
      end
  end.

(** From the response of the company agent to the executives to ask
    about: [None] when the tool's result does not say "success". *)
Definition executives_of (dict_slice : exn) (content : pyval)
    : result (pyval * option (list pyval)) :=
  company_data ← subscript content "data";
  executives_data ← call_get company_data "executives" (PyDict ∅);
  success ← call_get executives_data "success" PyNone;
  if truthy success then
    data ← subscript executives_data "data";
    executives_list ← call_get data "executives" (PyList []);
    _ ← len executives_list;
    first ← slice_to dict_slice 5 executives_list;
    items ← iterate first;
    Ok (company_data, Some items)
  else Ok (company_data, None).

Definition research_company_and_executives (dict_slice : exn) (fuel : nat)
    (uuid now : string) (draw : nat → string * string) (ticker : pyval)
    (message_bus : LegacyBus.MessageBus) : option (LegacyBus.MessageBus * result pyval) :=
  let msg := create_request uuid now A2ACoordinator.role COMPANY_AGENT "full_research"
               (PyDict {[ "ticker" := ticker ]}) in
  match LegacyBus.send_message fuel message_bus msg with
  | None => None
  | Some (message_bus, Raise e) => Some (message_bus, Raise e)
  | Some (message_bus, Ok None) => Some (message_bus, Ok (results ticker PyNone []))
  | Some (message_bus, Ok (Some response)) =>
      match message_type response with
      | RESPONSE =>
          match executives_of dict_slice (content response) with
          | Raise e => Some (message_bus, Raise e)
          | Ok (company_data, None) => Some (message_bus, Ok (results ticker company_data []))
          | Ok (company_data, Some items) =>
              match research_loop fuel draw 1 items [] message_bus with
              | None => None
              | Some (message_bus, Raise e) => Some (message_bus, Raise e)
              | Some (message_bus, Ok research) =>
                  Some (message_bus, Ok (results ticker company_data research))
              end
          end
      | _ => Some (message_bus, Ok (results ticker PyNone []))
      end
  end.

(** The fields of an executive as the loop reads them, and the entry the
    workflow lists for an executive whose research the two person tools
    returned. *)
Definition field (exec_info : pyval) (key : string) : pyval :=
  match exec_info with
  | PyDict d => get_or d key PyNone
  | _ => PyNone
  end.

Definition researched (person_info career_info : pyval → pyval) (exec_info : pyval) : pyval :=
  let arg := PyDict {[ "person_name" := field exec_info "name" ]} in
  PyDict (list_to_map [
    ("executive", exec_info);
    ("research", PyDict (list_to_map [
       ("name", field exec_info "name");
       ("title", field exec_info "title");
       ("person_info", person_info arg);
       ("career_info", career_info arg)]))]).

Definition is_dict (v : pyval) : Prop := ∃ d, v = PyDict d.

(** The envelopes the loop leaves in the history when every request is
    answered with the research: for each executive the request of the
    coordinator and the response of the person agent, whose id and clock
    reading [draw_person] gives. *)
Fixpoint exchanges (draw : nat → string * string) (draw_person : A2AMessage → string * string)
    (person_info career_info : pyval → pyval) (idx : nat) (executives : list pyval)
    : list A2AMessage :=
  match executives with
  | [] => []
  | exec_info :: executives =>
      let name := field exec_info "name" in
      let title := field exec_info "title" in
      let arg := PyDict {[ "person_name" := name ]} in
      let msg := create_request (draw idx).1 (draw idx).2 COORDINATOR PERSON_AGENT
                   "research_executive"
                   (PyDict (list_to_map [("name", name); ("title", title)])) in
      let reply := create_response (draw_person msg).1 (draw_person msg).2
                     PERSON_AGENT COORDINATOR
                     (PyDict (list_to_map [("name", name); ("title", title);
                                           ("person_info", person_info arg);
                                           ("career_info", career_info arg)]))
                     (draw idx).1 in
      msg :: reply :: exchanges draw draw_person person_info career_info (S idx) executives
  end.

End Workflow.

Module StandardCompanyAgent.
Import Standard Idioms.

Definition role : AgentRole := COMPANY_AGENT.

Section Agent.
Variable get_stock_price_tool : pyval → result pyval.
Variable get_company_info_tool : pyval → result pyval.

Definition reply (uuid now : string) (agent_msg : AgentMessage)
    (key : string) (result action ticker : pyval) : AgentMessage :=
  let response_msg :=
    create_response_message (PyDict {[ key := result ]})
      (Some (list_to_map [("action", action); ("ticker", ticker)])) in
  create_agent_message uuid now role (sender agent_msg) response_msg
    (Some (message_id agent_msg)).

(** The loop over [msg.parts]: the first json Part with an action the
    agent knows decides; a json Part with another action is passed over. *)
Fixpoint handle_parts (uuid now : string) (agent_msg : AgentMessage) (parts : list Part)
    : result (option AgentMessage) :=
  match parts with
  | [] => Ok None
  | JsonPart _ request_data :: parts =>
      action ← call_get request_data "action" PyNone;
      params ← call_get request_data "params" (PyDict ∅);
      if eq_str action "get_stock_price" then
        ticker ← call_get params "ticker" PyNone;
        result ← invoke get_stock_price_tool "ticker" ticker;
        Ok (Some (reply uuid now agent_msg "stock_price" result action ticker))
      else if eq_str action "get_company_info" then
        ticker ← call_get params "ticker" PyNone;
        result ← invoke get_company_info_tool "ticker" ticker;
        Ok (Some (reply uuid now agent_msg "company_info" result action ticker))
      else handle_parts uuid now agent_msg parts
  | _ :: parts => handle_parts uuid now agent_msg parts
  end.

(** [msg.role == "user" and msg.metadata.get("message_type") == "request"] *)
Definition is_request (msg : A2AMessage) : result bool :=
  if eq_str (Standard.role msg) "user" then
    message_type ← call_get (metadata msg) "message_type" PyNone;
    Ok (eq_str message_type "request")
  else Ok false.

Definition handle_message (uuid now : string) (agent_msg : AgentMessage)
    : result (option AgentMessage) :=
  let msg := message agent_msg in
  request ← is_request msg;
  if request : bool then handle_parts uuid now agent_msg (parts msg) else Ok None.

Definition handler (draw : AgentMessage → string * string) (agent_msg : AgentMessage)
    : Bus.prog AgentMessage :=
  as_prog (handle_message (draw agent_msg).1 (draw agent_msg).2 agent_msg).

Definition init (verbose : bool) (draw : AgentMessage → string * string)
    (message_bus : StandardBus.MessageBus) : StandardBus.MessageBus :=
  StandardBus.register_agent verbose role (handler draw) message_bus.

End Agent.
End StandardCompanyAgent.

Module StandardPersonAgent.
Import Standard Idioms.

Definition role : AgentRole := PERSON_AGENT.

Section Agent.
Variable get_person_info_tool : pyval → result pyval.

Definition reply (uuid now : string) (agent_msg : AgentMessage)
    (result action person_name : pyval) : AgentMessage :=
  let response_msg :=
    create_response_message (PyDict {[ "person_info" := result ]})
      (Some (list_to_map [("action", action); ("person_name", person_name)])) in
  create_agent_message uuid now role (sender agent_msg) response_msg
    (Some (message_id agent_msg)).

Fixpoint handle_parts (uuid now : string) (agent_msg : AgentMessage) (parts : list Part)
    : result (option AgentMessage) :=
  match parts with
  | [] => Ok None
  | JsonPart _ request_data :: parts =>
      action ← call_get request_data "action" PyNone;
      params ← call_get request_data "params" (PyDict ∅);
      if eq_str action "get_person_info" then
        person_name ← call_get params "person_name" PyNone;
        result ← invoke get_person_info_tool "person_name" person_name;
        Ok (Some (reply uuid now agent_msg result action person_name))
      else handle_parts uuid now agent_msg parts
  | _ :: parts => handle_parts uuid now agent_msg parts
  end.

Definition handle_message (uuid now : string) (agent_msg : AgentMessage)
    : result (option AgentMessage) :=
  let msg := message agent_msg in
  request ← StandardCompanyAgent.is_request msg;
  if request : bool then handle_parts uuid now agent_msg (parts msg) else Ok None.

Definition handler (draw : AgentMessage → string * string) (agent_msg : AgentMessage)
    : Bus.prog AgentMessage :=
  as_prog (handle_message (draw agent_msg).1 (draw agent_msg).2 agent_msg).

Definition init (verbose : bool) (draw : AgentMessage → string * string)
    (message_bus : StandardBus.MessageBus) : StandardBus.MessageBus :=
  StandardBus.register_agent verbose role (handler draw) message_bus.

End Agent.
End StandardPersonAgent.

(** What a reply of a standard agent with role [r] to [agent_msg] looks
    like. *)
Module StandardReply.
Import Standard.

Definition answers (r : AgentRole) (uuid now : string) (agent_msg reply : AgentMessage)
    : Prop :=
  sender reply = r ∧ receiver reply = sender agent_msg ∧
  in_reply_to reply = Some (message_id agent_msg) ∧
  message_id reply = uuid ∧ timestamp reply = now ∧
  Standard.role (message reply) = PyStr "agent" ∧
  (∃ key result, parts (message reply) = [JsonPart (PyStr "json") (PyDict {[ key := result ]})]) ∧
  (∃ md : dict, metadata (message reply) = PyDict md ∧
                md !! "message_type" = Some (PyStr "response")) ∧
  from_dict (to_dict (message reply)) = Decoded (message reply).

End StandardReply.

(** ** Concrete inputs

    The values at which the properties below are instantiated. *)

Module Samples.

(** A message with one Part of each kind, the file Part with a MIME type. *)
Definition sample_message : Standard.A2AMessage :=
  {| Standard.role := PyStr "agent";
     Standard.parts :=
       [Standard.TextPart (PyStr "text/plain") "report attached";
        Standard.JsonPart (PyStr "application/json") (PyDict {["ticker" := PyStr "AAPL"]});
        Standard.FilePart (PyStr "image/jpeg") (PyStr "file:///tmp/chart.jpg") PyNone
          (PyStr "chart.jpg")];
     Standard.metadata := PyDict {["message_type" := PyStr "response"]} |}.

(** A file Part with the MIME type of a text file. *)
Definition text_file_message : Standard.A2AMessage :=
  {| Standard.role := PyStr "user";
     Standard.parts :=
       [Standard.FilePart (PyStr "text/plain") (PyStr "notes.txt") PyNone PyNone];
     Standard.metadata := PyDict ∅ |}.

(** A wire dictionary whose only Part has the unknown type "blob". *)
Definition blob_data : dict :=
  list_to_map [
    ("role", PyStr "user");
    ("parts", PyList [PyDict (list_to_map [("type", PyStr "blob"); ("uri", PyStr "x.bin")])])
  ].

(** A wire dictionary whose only Part has the type [None]. *)
Definition none_type_data : dict :=
  list_to_map [
    ("role", PyStr "user");
    ("parts", PyList [PyDict {["type" := PyNone]}])
  ].

(** Wire dictionaries with an absent or unknown tag. *)
Definition no_role_data : dict :=
  list_to_map [("parts", PyList []); ("metadata", PyDict ∅)].

Definition robot_role_data : dict :=
  list_to_map [("role", PyStr "robot")].

Definition legacy_base : list (string * pyval) :=
  [("sender", PyStr "coordinator"); ("receiver", PyStr "company_agent");
   ("content", PyDict ∅); ("message_id", PyStr "m-1");
   ("timestamp", PyStr "2024-01-01T00:00:00")].

Definition legacy_no_type_data : dict := list_to_map legacy_base.

Definition legacy_bad_type_data : dict :=
  list_to_map (("message_type", PyStr "reqest") :: legacy_base).

(** A legacy request and the response to it. *)
Definition legacy_request : Legacy.A2AMessage :=
  Legacy.create_request "id-1" "2024-01-01T00:00:00" COORDINATOR COMPANY_AGENT
    "get_stock_price" (PyDict {["ticker" := PyStr "AAPL"]}).

Definition legacy_response : Legacy.A2AMessage :=
  Legacy.create_response "id-2" "2024-01-01T00:00:01" COMPANY_AGENT COORDINATOR
    (PyDict {["price" := PyInt 273]}) "id-1".

(** A legacy bus on which the company agent answers every envelope with
    [legacy_response]. *)
Definition legacy_bus : LegacyBus.MessageBus :=
  LegacyBus.register_agent COMPANY_AGENT (fun _ => Bus.Return (Some legacy_response))
    LegacyBus.init.

(** A standard request, and a standard bus whose company agent raises. *)
Definition standard_request : Standard.AgentMessage :=
  Standard.create_agent_message "id-1" "2024-01-01T00:00:00" COORDINATOR COMPANY_AGENT
    (Standard.create_request_message "get_stock_price"
       (PyDict {["ticker" := PyStr "AAPL"]}) None) None.

(** A request to a role that nobody registered. *)
Definition legacy_stray : Legacy.A2AMessage :=
  Legacy.create_request "id-9" "2024-01-01T00:00:09" COORDINATOR PERSON_AGENT
    "full_research" (PyDict {["person_name" := PyStr "Ada"]}).

(** A thread of three legacy envelopes: A, the reply B to A, the reply C
    to B. *)
Definition thread_A : Legacy.A2AMessage :=
  Legacy.create_request "1" "2024-01-01T00:00:00" COORDINATOR COMPANY_AGENT
    "get_company_info" (PyDict {["ticker" := PyStr "AAPL"]}).

Definition thread_B : Legacy.A2AMessage :=
  Legacy.create_response "2" "2024-01-01T00:00:01" COMPANY_AGENT COORDINATOR
    (PyDict {["company_info" := PyStr "Apple Inc."]}) "1".

Definition thread_C : Legacy.A2AMessage :=
  Legacy.create_response "3" "2024-01-01T00:00:02" COORDINATOR COMPANY_AGENT
    (PyDict {["ack" := PyBool true]}) "2".

Definition thread_bus : LegacyBus.MessageBus :=
  {| Bus.message_history := [thread_A; thread_B; thread_C];
     Bus.agent_handlers := ∅; Bus.stdout := []; Bus.trace := [] |}.

(** Four messages of a conversation. *)
Definition msg1 : Standard.A2AMessage :=
  Standard.create_text_message "user" "Research AAPL stock" None.
Definition msg2 : Standard.A2AMessage :=
  Standard.create_text_message "agent" "AAPL price: $273.81" None.
Definition msg3 : Standard.A2AMessage :=
  Standard.create_text_message "user" "What about its competitors?" None.
Definition msg4 : Standard.A2AMessage :=
  Standard.create_text_message "agent" "MSFT and GOOGL" None.

(** One task of session "sess-1" that was given two messages. *)
Definition one_task : TaskContext.ref * TaskContext.TaskManager * TaskContext.heap :=
  TaskContext.create_task "uuid-s" "task-1" "2024-01-01T00:00:00" (Some "sess-1") None
    TaskContext.TaskManager_init ∅.

Definition task1 : TaskContext.ref := one_task.1.1.

Definition task1_obj : TaskContext.Task :=
  {| TaskContext.id := "task-1"; TaskContext.session_id := "sess-1";
     TaskContext.status :=
       {| TaskContext.state := TaskContext.SUBMITTED; TaskContext.message := None;
          TaskContext.timestamp := "2024-01-01T00:00:00" |};
     TaskContext.history := 0; TaskContext.artifacts := 1;
     TaskContext.metadata := ∅ |}.

Definition talk_heap : TaskContext.heap :=
  default ∅ (TaskContext.add_message task1 msg1 one_task.2
             ≫= TaskContext.add_message task1 msg2).

(** Two tasks created with the same explicit session id, two messages
    each. *)
Definition two_tasks (session_id : string) : list TaskContext.call :=
  [TaskContext.CreateTask "uuid-s1" "task-1" "2024-01-01T00:00:00" (Some session_id) None;
   TaskContext.CreateTask "uuid-s2" "task-2" "2024-01-01T00:00:01" (Some session_id) None;
   TaskContext.AddMessage "task-1" msg1;
   TaskContext.AddMessage "task-1" msg2;
   TaskContext.AddMessage "task-2" msg3;
   TaskContext.AddMessage "task-2" msg4].

Definition boom : exn := Exception_ "RuntimeError" "boom".

Definition failing_bus (verbose : bool) : StandardBus.MessageBus :=
  StandardBus.register_agent verbose COMPANY_AGENT (fun _ => Bus.Throw boom)
    (StandardBus.init verbose).

End Samples.
Import Samples.

(** Concrete agents, tools and buses. *)

Module MoreSamples.
Import Samples.

Definition now0 : string := "2024-01-01T00:00:00".
Definition now1 : string := "2024-01-01T00:01:00".

(** A handler that answers nothing. *)
Definition silent : Legacy.A2AMessage → Bus.prog Legacy.A2AMessage :=
  fun _ => Bus.Return None.

(** A legacy bus whose company agent first asks the person agent, whom
    nobody registered, and then answers. *)
Definition relay_bus : LegacyBus.MessageBus :=
  LegacyBus.register_agent COMPANY_AGENT
    (fun _ => Bus.Send legacy_stray (fun _ => Bus.Return (Some legacy_response)))
    LegacyBus.init.

(** A late reply D to the C of the thread A, B, C, and the history with it. *)
Definition thread_D : Legacy.A2AMessage :=
  Legacy.create_response "4" "2024-01-01T00:00:03" COMPANY_AGENT COORDINATOR
    (PyDict {["ack" := PyBool true]}) "3".

Definition late_reply_bus : LegacyBus.MessageBus :=
  {| Bus.message_history := [thread_A; thread_B; thread_C; thread_D];
     Bus.agent_handlers := ∅; Bus.stdout := []; Bus.trace := [] |}.

(** Another reply E to A, and the history where it comes before B. *)
Definition thread_E : Legacy.A2AMessage :=
  Legacy.create_error "5" "2024-01-01T00:00:01" PERSON_AGENT COORDINATOR
    "busy" "1".

Definition early_reply_bus : LegacyBus.MessageBus :=
  {| Bus.message_history := [thread_A; thread_E; thread_B; thread_C];
     Bus.agent_handlers := ∅; Bus.stdout := []; Bus.trace := [] |}.

(** A standard reply, and a bus that has seen a request and its reply. *)
Definition standard_reply : Standard.AgentMessage :=
  Standard.create_agent_message "id-2" now1 COMPANY_AGENT COORDINATOR
    (Standard.create_response_message (PyDict {["price" := PyInt 273]}) None)
    (Some "id-1").

Definition stats_bus : StandardBus.MessageBus :=
  {| Bus.message_history := [standard_request; standard_reply];
     Bus.agent_handlers := ∅; Bus.stdout := []; Bus.trace := [] |}.

(** One message written twice, the metadata filled in two orders. *)
Definition filled_forwards : Standard.A2AMessage :=
  {| Standard.role := PyStr "agent";
     Standard.parts := [Standard.JsonPart (PyStr "json") (PyInt 273)];
     Standard.metadata :=
       PyDict (<["ticker" := PyStr "AAPL"]> (<["action" := PyStr "get_stock_price"]> ∅)) |}.

Definition filled_backwards : Standard.A2AMessage :=
  {| Standard.role := PyStr "agent";
     Standard.parts := [Standard.JsonPart (PyStr "json") (PyInt 273)];
     Standard.metadata :=
       PyDict (<["action" := PyStr "get_stock_price"]> (<["ticker" := PyStr "AAPL"]> ∅)) |}.

(** A legacy wire dictionary without its timestamp. *)
Definition legacy_no_timestamp_data : dict :=
  list_to_map [
    ("sender", PyStr "coordinator"); ("receiver", PyStr "company_agent");
    ("message_type", PyStr "request"); ("content", PyDict ∅);
    ("message_id", PyStr "m-1")].

(** What [text_file_message] is read back as. *)
Definition text_file_read_back : Standard.A2AMessage :=
  {| Standard.role := PyStr "user";
     Standard.parts := [Standard.TextPart (PyStr "text/plain") ""];
     Standard.metadata := PyDict ∅ |}.

(** The life of one task. *)
Definition lifecycle_calls : list TaskContext.call :=
  [TaskContext.CreateTask "uuid-s" "task-1" now0 (Some "sess-1") None;
   TaskContext.UpdateStatus "task-1" TaskContext.WORKING None now1;
   TaskContext.AddMessage "task-1" msg1;
   TaskContext.AddArtifact "task-1" {["ticker" := PyStr "AAPL"]};
   TaskContext.UpdateStatus "task-1" TaskContext.COMPLETED None "2024-01-01T00:02:00"].

(** Tools. *)
Definition price_tool : pyval → result pyval :=
  fun _ => Ok (PyDict {["price" := PyInt 273]}).
Definition info_tool : pyval → result pyval :=
  fun _ => Ok (PyStr "Apple Inc.").
Definition failing_tool : pyval → result pyval :=
  fun _ => Raise boom.

Definition executive (name title : string) : pyval :=
  PyDict (list_to_map [("name", PyStr name); ("title", PyStr title)]).

Definition six_executives : list pyval :=
  [executive "Ann" "CEO"; executive "Bob" "CFO"; executive "Cy" "COO";
   executive "Di" "CTO"; executive "Ed" "CMO"; executive "Flo" "CIO"].

Definition executives_data : dict :=
  list_to_map [("success", PyBool true);
               ("data", PyDict {["executives" := PyList six_executives]})].

Definition executives_tool : pyval → result pyval :=
  fun _ => Ok (PyDict executives_data).

Definition person_info_of (arg : pyval) : pyval := PyDict {["bio" := arg]}.
Definition career_info_of (arg : pyval) : pyval := PyDict {["career" := arg]}.
Definition person_info_tool : pyval → result pyval := fun arg => Ok (person_info_of arg).
Definition career_tool : pyval → result pyval := fun arg => Ok (career_info_of arg).

(** Texts. *)
Definition sample_str (v : pyval) : string :=
  match v with
  | PyStr s => s
  | _ => "None"
  end.

Definition sample_str_exn (e : exn) : string :=
  match e with
  | Exception_ _ msg => msg
  | _ => "error"
  end.

(** Ids and clock readings. *)
Definition reply_draw (m : Legacy.A2AMessage) : string * string :=
  ("re-" +:+ Legacy.message_id m, now1).
Definition standard_reply_draw (m : Standard.AgentMessage) : string * string :=
  ("re-" +:+ Standard.message_id m, now1).
Definition turn_draw (idx : nat) : string * string := ("exec-" +:+ pretty idx, now0).
Definition role_draw (r : AgentRole) : string * string := ("note-" +:+ AgentRole_value r, now0).

(** The three legacy agents on one bus; and the same with an info tool that
    raises. *)
Definition with_agents (company_info_tool : pyval → result pyval) : LegacyBus.MessageBus :=
  A2APersonAgent.init person_info_tool career_tool failing_tool failing_tool
    sample_str sample_str_exn reply_draw
    (A2ACompanyAgent.init company_info_tool price_tool executives_tool
       sample_str sample_str_exn reply_draw
       (A2ACoordinator.init LegacyBus.init)).

Definition agents_bus : LegacyBus.MessageBus := with_agents info_tool.

(** The request of the coordinator for the research of a company. *)
Definition research_request : Legacy.A2AMessage :=
  Legacy.create_request "id-1" now0 COORDINATOR COMPANY_AGENT "full_research"
    (PyDict {["ticker" := PyStr "AAPL"]}).

Definition research_data : pyval :=
  PyDict (list_to_map [
    ("ticker", PyStr "AAPL"); ("company_info", PyStr "Apple Inc.");
    ("stock_price", PyDict {["price" := PyInt 273]});
    ("executives", PyDict executives_data)]).

Definition research_response : Legacy.A2AMessage :=
  Legacy.create_response "re-id-1" now1 COMPANY_AGENT COORDINATOR research_data "id-1".

(** A request for the research of an executive without a title. *)
Definition executive_request : Legacy.A2AMessage :=
  Legacy.create_request "id-7" now0 COORDINATOR PERSON_AGENT "research_executive"
    (PyDict {["name" := PyStr "Ada"]}).

(** The standard company agent on a standard bus. *)
Definition standard_agents_bus (verbose : bool) : StandardBus.MessageBus :=
  StandardCompanyAgent.init price_tool info_tool verbose standard_reply_draw
    (StandardBus.init verbose).

Definition standard_answer : Standard.AgentMessage :=
  StandardCompanyAgent.reply "re-id-1" now1 standard_request "stock_price"
    (PyDict {["price" := PyInt 273]}) (PyStr "get_stock_price") (PyStr "AAPL").

End MoreSamples.
Import MoreSamples.

(** * Properties *)

Local Open Scope nat_scope.

(** ** Enumerations *)

Lemma AgentRole_call_value r : AgentRole_call (PyStr (AgentRole_value r)) = Ok r.
Proof. by destruct r. Qed.

Lemma MessageType_call_value t :
  Legacy.MessageType_call (PyStr (Legacy.MessageType_value t)) = Ok t.
Proof. by destruct t. Qed.

(** ** Round trip of the two codecs *)

Lemma legacy_from_dict_to_dict (m : Legacy.A2AMessage) :
  Legacy.from_dict (Legacy.to_dict m) = Decoded m.
Proof.
  destruct m as [s r t c mid ts irt].
  unfold Legacy.from_dict, Legacy.from_dict_args, Legacy.to_dict; simpl.
  unfold getitem, get.
  repeat (rewrite ?lookup_insert_eq; rewrite ?lookup_insert_ne by done); simpl.
  rewrite AgentRole_call_value; simpl.
  repeat (rewrite ?lookup_insert_eq; rewrite ?lookup_insert_ne by done); simpl.
  rewrite AgentRole_call_value; simpl.
  repeat (rewrite ?lookup_insert_eq; rewrite ?lookup_insert_ne by done); simpl.
  rewrite MessageType_call_value; simpl.
  repeat (rewrite ?lookup_insert_eq; rewrite ?lookup_insert_ne by done); simpl.
  by destruct irt.
Qed.

#[local] Arguments in_strs : simpl never.

(** Lookups in a dict written as a literal. *)
Ltac map_lookups :=
  repeat first
    [ rewrite lookup_insert_eq
    | rewrite lookup_insert_ne by done
    | rewrite lookup_singleton_eq
    | rewrite lookup_singleton_ne by done
    | rewrite lookup_empty ].

Lemma eq_str_true v s : eq_str v s = true → v = PyStr s.
Proof.
  destruct v; simpl; try done.
  intros H. apply String.eqb_eq in H. by subst.
Qed.

Lemma in_strs_cases v l : in_strs v l = true → ∃ s, s ∈ l ∧ v = PyStr s.
Proof.
  unfold in_strs. intros H. apply existsb_exists in H as (s & Hin & Heq).
  exists s. split; [by apply list_elem_of_In | by apply eq_str_true].
Qed.

Lemma from_dict_part_to_dict (p : Standard.Part) :
  Standard.part_ok p = true →
  Standard.from_dict_part (PyDict (Standard.Part_to_dict p))
  = Ok (Some (Standard.as_read p)).
Proof.
  destruct p as [type text | type json | type uri data filename];
    intros Hok; unfold Standard.part_ok in Hok.
  - unfold Standard.from_dict_part; simpl. unfold get_or.
    rewrite lookup_insert_eq; simpl. rewrite Hok; simpl.
    by rewrite lookup_insert_ne, lookup_insert_eq.
  - unfold Standard.from_dict_part; simpl. unfold get_or.
    rewrite lookup_insert_eq; simpl. rewrite Hok.
    apply in_strs_cases in Hok as (s & Hs & ->).
    assert (in_strs (PyStr s) ["text"; "text/plain"] = false) as ->.
    { set_unfold in Hs. by destruct Hs as [-> | [-> | []]]. }
    simpl. by rewrite lookup_insert_ne, lookup_insert_eq.
  - apply andb_prop in Hok as [Hok Hf]. apply andb_prop in Hok as [Hok Hd].
    apply andb_prop in Hok as [Ht Hu].
    destruct type as [| | |s| |]; simpl in Ht; try done.
    apply andb_prop in Ht as [Hnot Hsub]. apply negb_true_iff in Hnot.
    assert (∀ d : dict, d !! "type" = Some (PyStr s) →
      Standard.from_dict_part (PyDict d) =
      Ok (Some (Standard.FilePart (T := pyval) (PyStr s) (get_or d "uri" PyNone)
                  (get_or d "data" PyNone) (get_or d "filename" PyNone)))) as Hgen.
    { intros d Hty.
      assert (get_or d "type" (PyStr "") = PyStr s) as Hg
        by (unfold get_or; by rewrite Hty).
      unfold Standard.from_dict_part; simpl. rewrite !Hg.
      assert (in_strs (PyStr s) ["text"; "text/plain"] = false) as ->.
      { unfold in_strs in *. simpl in *. repeat (apply orb_false_elim in Hnot as [? Hnot]).
        by repeat (apply orb_false_intro; [done|]). }
      assert (in_strs (PyStr s) ["json"; "application/json"] = false) as ->.
      { unfold in_strs in *. simpl in *.
        apply orb_false_elim in Hnot as [_ Hnot]. apply orb_false_elim in Hnot as [_ Hnot].
        done. }
      simpl. destruct (contains "file" s) eqn:Hfile; simpl; [done|].
      simpl in Hsub. by rewrite Hsub. }
    assert (∀ v, Standard.opt_field_ok v = true → truthy v = false → v = PyNone) as Hnone.
    { intros v Hv Htr. destruct v; simpl in *; congruence. }
    unfold Standard.Part_to_dict.
    destruct (truthy uri) eqn:Eu, (truthy data) eqn:Ed, (truthy filename) eqn:Ef;
      rewrite ?(Hnone uri), ?(Hnone data), ?(Hnone filename) by done;
      (rewrite Hgen;
       [ unfold get_or;
         repeat first [ rewrite lookup_insert_eq | rewrite lookup_insert_ne by done
                      | rewrite lookup_singleton_ne by done ];
         reflexivity
       | repeat (rewrite lookup_insert_ne by done); by rewrite lookup_singleton_eq ]).
Qed.

Lemma from_dict_loop_to_dict (ps : list Standard.Part) acc :
  forallb Standard.part_ok ps = true →
  Standard.from_dict_loop ((fun part => PyDict (Standard.Part_to_dict part)) <$> ps) acc
  = Ok (acc ++ (Standard.as_read <$> ps)).
Proof.
  revert acc. induction ps as [|p ps IH]; intros acc Hok; simpl.
  - by rewrite app_nil_r.
  - simpl in Hok. apply andb_prop in Hok as [Hp Hps].
    rewrite from_dict_part_to_dict by done. simpl.
    rewrite IH by done. by rewrite <- app_assoc.
Qed.

Lemma typed_part_as_read (ps : list Standard.Part) :
  mapM Standard.typed_part (Standard.as_read <$> ps) = Some ps.
Proof.
  induction ps as [|p ps IH]; [done|]. rewrite fmap_cons. simpl.
  assert (Standard.typed_part (Standard.as_read p) = Some p) as -> by (by destruct p).
  simpl. by rewrite IH.
Qed.

Lemma standard_from_dict_to_dict (m : Standard.A2AMessage) :
  forallb Standard.part_ok (Standard.parts m) = true →
  Standard.from_dict (Standard.to_dict m) = Decoded m.
Proof.
  destruct m as [role parts metadata]; simpl. intros Hok.
  unfold Standard.from_dict, Standard.from_dict_args, Standard.to_dict.
  remember ((fun part => PyDict (Standard.Part_to_dict part)) <$> parts) as items eqn:Hitems.
  simpl. unfold get_or, getitem. map_lookups. simpl.
  subst items. rewrite from_dict_loop_to_dict by done. simpl.
  map_lookups. simpl. by rewrite typed_part_as_read.
Qed.

Lemma create_text_message_ok role text metadata :
  forallb Standard.part_ok (Standard.parts (Standard.create_text_message role text metadata)) = true.
Proof. reflexivity. Qed.

Lemma create_json_message_ok role data metadata :
  forallb Standard.part_ok (Standard.parts (Standard.create_json_message role data metadata)) = true.
Proof. reflexivity. Qed.

Lemma create_request_message_ok action params metadata :
  forallb Standard.part_ok
    (Standard.parts (Standard.create_request_message action params metadata)) = true.
Proof. reflexivity. Qed.

Lemma create_response_message_ok data metadata :
  forallb Standard.part_ok (Standard.parts (Standard.create_response_message data metadata)) = true.
Proof. reflexivity. Qed.

(** C1, as amended. Every legacy envelope, and with it every envelope built
    by [create_request], [create_response], [create_notification] and
    [create_error], is given back unchanged by [to_dict] then [from_dict].
    A standard message is given back unchanged when each of its Parts carries
    a type tag of its own kind ("text" or "text/plain" for a text Part, "json"
    or "application/json" for a json Part, for a file Part a string with
    "file" or "/" in it that is none of those four) and the optional fields of
    its file Parts are [None] or non-empty; the messages of the four helper
    constructors are of that form. *)
Theorem to_dict_from_dict_roundtrip :
  (∀ m : Legacy.A2AMessage, Legacy.from_dict (Legacy.to_dict m) = Decoded m) ∧
  (∀ m : Standard.A2AMessage,
     forallb Standard.part_ok (Standard.parts m) = true →
     Standard.from_dict (Standard.to_dict m) = Decoded m) ∧
  (∀ role text data action params metadata,
     let built := [Standard.create_text_message role text metadata;
                   Standard.create_json_message role data metadata;
                   Standard.create_request_message action params metadata;
                   Standard.create_response_message data metadata] in
     ∀ m, m ∈ built → Standard.from_dict (Standard.to_dict m) = Decoded m).
Proof.
  split; [exact legacy_from_dict_to_dict|].
  split; [exact standard_from_dict_to_dict|].
  intros role text data action params metadata built m Hm.
  apply standard_from_dict_to_dict.
  subst built. set_unfold in Hm.
  destruct Hm as [-> | [-> | [-> | [-> | []]]]]; reflexivity.
Qed.

Lemma to_dict_from_dict_roundtrip_witness :
  Standard.from_dict (Standard.to_dict sample_message) = Decoded sample_message.
Proof.
  apply (proj1 (proj2 to_dict_from_dict_roundtrip) sample_message).
  reflexivity.
Defined.

(** C1 as stated fails: a file Part whose MIME type is "text/plain" comes
    back from the round trip as a text Part, since [from_dict] picks the kind
    from the type tag alone. *)
Lemma roundtrip_text_plain_file_differs :
  Standard.from_dict (Standard.to_dict text_file_message)
  = Decoded {| Standard.role := PyStr "user";
               Standard.parts := [Standard.TextPart (PyStr "text/plain") ""];
               Standard.metadata := PyDict ∅ |}
  ∧ Standard.from_dict (Standard.to_dict text_file_message) ≠ Decoded text_file_message.
Proof.
  assert (Standard.from_dict (Standard.to_dict text_file_message)
          = Decoded {| Standard.role := PyStr "user";
                       Standard.parts := [Standard.TextPart (PyStr "text/plain") ""];
                       Standard.metadata := PyDict ∅ |}) as H by (vm_compute; reflexivity).
  split; [exact H|]. rewrite H. intros Heq. discriminate Heq.
Qed.

(** ** What deserialization rejects *)

Lemma legacy_from_dict_failed data e :
  Legacy.from_dict_args data = Raise e → Legacy.from_dict data = Failed e.
Proof. unfold Legacy.from_dict. by intros ->. Qed.

(** With [sender] and [receiver] in order, the outcome of the legacy
    [from_dict] is decided at [message_type]. *)
Lemma legacy_from_dict_args_message_type data s r :
  (getitem data "sender" ≫= AgentRole_call) = Ok s →
  (getitem data "receiver" ≫= AgentRole_call) = Ok r →
  ∀ e, (getitem data "message_type" ≫= Legacy.MessageType_call) = Raise e →
  Legacy.from_dict_args data = Raise e.
Proof.
  intros Hs Hr e He. unfold Legacy.from_dict_args.
  destruct (getitem data "sender") as [vs|]; simpl in *; [|done].
  rewrite Hs; simpl.
  destruct (getitem data "receiver") as [vr|]; simpl in *; [|done].
  rewrite Hr; simpl.
  destruct (getitem data "message_type") as [vt|]; simpl in *; [|congruence].
  by rewrite He.
Qed.

Lemma legacy_from_dict_args_fails data e :
  (getitem data "message_type" ≫= Legacy.MessageType_call) = Raise e →
  ∃ e', Legacy.from_dict_args data = Raise e'.
Proof.
  intros He. unfold Legacy.from_dict_args.
  destruct (getitem data "sender") as [vs|]; simpl; [|by eexists].
  destruct (AgentRole_call vs); simpl; [|by eexists].
  destruct (getitem data "receiver") as [vr|]; simpl; [|by eexists].
  destruct (AgentRole_call vr); simpl; [|by eexists].
  destruct (getitem data "message_type") as [vt|]; simpl in *; [|by eexists].
  rewrite He. by eexists.
Qed.

Lemma standard_from_dict_role_absent (data : dict) :
  data !! "role" = None →
  ∃ e, Standard.from_dict data = Failed e ∧
    (∀ items parts, iterate (get_or data "parts" (PyList [])) = Ok items →
       Standard.from_dict_loop items [] = Ok parts → e = KeyError "role").
Proof.
  intros Hrole. unfold Standard.from_dict, Standard.from_dict_args.
  destruct (iterate _) as [items|e] eqn:Hit; simpl.
  - destruct (Standard.from_dict_loop items []) as [parts|e] eqn:Hloop; simpl.
    + unfold getitem. rewrite Hrole. simpl. by exists (KeyError "role").
    + exists e. split; [done|]. intros items' parts' [= <-]. congruence.
  - exists e. split; [done|]. by intros items' parts'.
Qed.

Lemma standard_from_dict_any_role (data : dict) (v : pyval) items read parts :
  data !! "role" = Some v →
  iterate (get_or data "parts" (PyList [])) = Ok items →
  Standard.from_dict_loop items [] = Ok read →
  mapM Standard.typed_part read = Some parts →
  Standard.from_dict data
  = Decoded {| Standard.role := v; Standard.parts := parts;
               Standard.metadata := get_or data "metadata" (PyDict ∅) |}.
Proof.
  intros Hrole Hit Hloop Htyped. unfold Standard.from_dict, Standard.from_dict_args.
  rewrite Hit; simpl. rewrite Hloop; simpl. unfold getitem. rewrite Hrole. simpl.
  by rewrite Htyped.
Qed.

Lemma from_dict_part_skipped (part_data : dict) (s : string) :
  get_or part_data "type" (PyStr "") = PyStr s →
  in_strs (PyStr s) ["text"; "text/plain"; "json"; "application/json"] = false →
  contains "file" s = false → contains "/" s = false →
  Standard.from_dict_part (PyDict part_data) = Ok None.
Proof.
  intros Hty Hnot Hfile Hslash. unfold Standard.from_dict_part; simpl. rewrite !Hty.
  assert (in_strs (PyStr s) ["text"; "text/plain"] = false) as ->.
  { unfold in_strs in *. simpl in *. repeat (apply orb_false_elim in Hnot as [? Hnot]).
    by repeat (apply orb_false_intro; [done|]). }
  assert (in_strs (PyStr s) ["json"; "application/json"] = false) as ->.
  { unfold in_strs in *. simpl in *.
    apply orb_false_elim in Hnot as [_ Hnot]. by apply orb_false_elim in Hnot as [_ Hnot]. }
  simpl. by rewrite Hfile, Hslash.
Qed.

Lemma from_dict_loop_app items1 items2 acc parts :
  Standard.from_dict_loop items1 acc = Ok parts →
  Standard.from_dict_loop (items1 ++ items2) acc = Standard.from_dict_loop items2 parts.
Proof.
  revert acc. induction items1 as [|x items1 IH]; intros acc; simpl.
  - by intros [= ->].
  - destruct (Standard.from_dict_part x) as [p|]; simpl; [|done]. apply IH.
Qed.

Lemma MessageType_call_unknown v :
  (∀ t, v ≠ PyStr (Legacy.MessageType_value t)) →
  Legacy.MessageType_call v = Raise (ValueError v "MessageType").
Proof.
  intros Hv. unfold Legacy.MessageType_call.
  destruct (eq_str v "request") eqn:E1.
  { apply eq_str_true in E1. by destruct (Hv Legacy.REQUEST). }
  destruct (eq_str v "response") eqn:E2.
  { apply eq_str_true in E2. by destruct (Hv Legacy.RESPONSE). }
  destruct (eq_str v "notification") eqn:E3.
  { apply eq_str_true in E3. by destruct (Hv Legacy.NOTIFICATION). }
  destruct (eq_str v "error") eqn:E4.
  { apply eq_str_true in E4. by destruct (Hv Legacy.ERROR). }
  done.
Qed.

(** A Part with a tag that is none of the four known ones: the test for
    "file" and "/" decides. *)
Lemma from_dict_part_other (part_data : dict) v :
  get_or part_data "type" (PyStr "") = v →
  in_strs v ["text"; "text/plain"; "json"; "application/json"] = false →
  Standard.from_dict_part (PyDict part_data)
  = match or_ (str_in "file" v) (str_in "/" v) with
    | Ok true =>
        Ok (Some (Standard.FilePart v (get_or part_data "uri" PyNone)
                    (get_or part_data "data" PyNone) (get_or part_data "filename" PyNone)))
    | Ok false => Ok None
    | Raise e => Raise e
    end.
Proof.
  intros Hty Hnot. unfold Standard.from_dict_part; simpl. rewrite !Hty.
  assert (in_strs v ["text"; "text/plain"] = false) as ->.
  { unfold in_strs in *. simpl in *. repeat (apply orb_false_elim in Hnot as [? Hnot]).
    by repeat (apply orb_false_intro; [done|]). }
  assert (in_strs v ["json"; "application/json"] = false) as ->.
  { unfold in_strs in *. simpl in *.
    apply orb_false_elim in Hnot as [_ Hnot]. by apply orb_false_elim in Hnot as [_ Hnot]. }
  simpl. by destruct (or_ _ _) as [[|]|e].
Qed.

(** C2, as amended. The code has no [DecodeError] and raises Python's own
    exceptions. The legacy [from_dict] always fails when [message_type] is
    absent or is no member of [MessageType], and with [sender] and
    [receiver] in order the exception is [KeyError] naming "message_type" for
    an absent key and [ValueError] carrying the value for an unknown one. The
    standard [from_dict] always fails when [role] is absent, with [KeyError]
    naming "role" once the Parts have been read; it takes any role value as
    it is. A Part whose type is absent, or is a string other than the four
    known tags with neither "file" nor "/" in it, is skipped without an
    error. A Part whose type is a list or a dict is tested as a container: it
    is read as a file Part when "file" or "/" is among the elements or keys,
    and skipped otherwise. A Part whose type is [None], a boolean or a number
    makes [from_dict] fail with the [TypeError] of the test for "file", which
    names no field. *)
Theorem from_dict_tag_checks :
  (∀ data : dict, data !! "message_type" = None →
     (∃ e, Legacy.from_dict data = Failed e) ∧
     (∀ s r, (getitem data "sender" ≫= AgentRole_call) = Ok s →
             (getitem data "receiver" ≫= AgentRole_call) = Ok r →
             Legacy.from_dict data = Failed (KeyError "message_type"))) ∧
  (∀ (data : dict) v, data !! "message_type" = Some v →
     (∀ t, v ≠ PyStr (Legacy.MessageType_value t)) →
     (∃ e, Legacy.from_dict data = Failed e) ∧
     (∀ s r, (getitem data "sender" ≫= AgentRole_call) = Ok s →
             (getitem data "receiver" ≫= AgentRole_call) = Ok r →
             Legacy.from_dict data = Failed (ValueError v "MessageType"))) ∧
  (∀ data : dict, data !! "role" = None →
     ∃ e, Standard.from_dict data = Failed e ∧
       (∀ items parts, iterate (get_or data "parts" (PyList [])) = Ok items →
          Standard.from_dict_loop items [] = Ok parts → e = KeyError "role")) ∧
  (∀ (data : dict) v items read parts, data !! "role" = Some v →
     iterate (get_or data "parts" (PyList [])) = Ok items →
     Standard.from_dict_loop items [] = Ok read →
     mapM Standard.typed_part read = Some parts →
     Standard.from_dict data
     = Decoded {| Standard.role := v; Standard.parts := parts;
                  Standard.metadata := get_or data "metadata" (PyDict ∅) |}) ∧
  (∀ (part_data : dict) s,
     get_or part_data "type" (PyStr "") = PyStr s →
     in_strs (PyStr s) ["text"; "text/plain"; "json"; "application/json"] = false →
     contains "file" s = false → contains "/" s = false →
     ∀ items acc, Standard.from_dict_loop (PyDict part_data :: items) acc
                  = Standard.from_dict_loop items acc) ∧
  (∀ (part_data : dict) v (has : bool),
     get_or part_data "type" (PyStr "") = v →
     (∃ l, v = PyList l ∧
           has = existsb (fun x => eq_str x "file") l || existsb (fun x => eq_str x "/") l) ∨
     (∃ d : dict, v = PyDict d ∧
           has = bool_decide (is_Some (d !! "file")) || bool_decide (is_Some (d !! "/"))) →
     ∀ items acc,
       Standard.from_dict_loop (PyDict part_data :: items) acc
       = Standard.from_dict_loop items
           (acc ++ if has
                   then [Standard.FilePart v (get_or part_data "uri" PyNone)
                           (get_or part_data "data" PyNone)
                           (get_or part_data "filename" PyNone)]
                   else [])) ∧
  (∀ (data part_data : dict) v before after read,
     get_or part_data "type" (PyStr "") = v →
     v = PyNone ∨ (∃ b, v = PyBool b) ∨ (∃ z, v = PyInt z) →
     data !! "parts" = Some (PyList (before ++ PyDict part_data :: after)) →
     Standard.from_dict_loop before [] = Ok read →
     Standard.from_dict data = Failed (TypeError "not iterable")).
Proof.
  split; [|split; [|split; [|split; [|split; [|split]]]]].
  - intros data Hnone.
    assert ((getitem data "message_type" ≫= Legacy.MessageType_call)
            = Raise (KeyError "message_type")) as Ht.
    { unfold getitem. by rewrite Hnone. }
    split.
    + apply legacy_from_dict_args_fails in Ht as [e' He'].
      exists e'. by apply legacy_from_dict_failed.
    + intros s r Hs Hr. apply legacy_from_dict_failed.
      by apply (legacy_from_dict_args_message_type data s r Hs Hr).
  - intros data v Hsome Hv.
    assert ((getitem data "message_type" ≫= Legacy.MessageType_call)
            = Raise (ValueError v "MessageType")) as Ht.
    { unfold getitem. rewrite Hsome. simpl. by apply MessageType_call_unknown. }
    split.
    + apply legacy_from_dict_args_fails in Ht as [e' He'].
      exists e'. by apply legacy_from_dict_failed.
    + intros s r Hs Hr. apply legacy_from_dict_failed.
      by apply (legacy_from_dict_args_message_type data s r Hs Hr).
  - exact standard_from_dict_role_absent.
  - intros data v items read parts. apply standard_from_dict_any_role.
  - intros part_data s Hty Hnot Hfile Hslash items acc. simpl.
    rewrite (from_dict_part_skipped part_data s) by done. simpl.
    by rewrite app_nil_r.
  - intros part_data v has Hty Hv items acc. cbn [Standard.from_dict_loop].
    rewrite (from_dict_part_other part_data v Hty).
    2:{ by destruct Hv as [(l & -> & _) | (d & -> & _)]. }
    destruct Hv as [(l & -> & ->) | (d & -> & ->)]; simpl.
    + destruct (existsb (fun x => eq_str x "file") l); simpl; [done|].
      destruct (existsb (fun x => eq_str x "/") l); simpl; [done|]. by rewrite app_nil_r.
    + destruct (bool_decide (is_Some (d !! "file"))); simpl; [done|].
      destruct (bool_decide (is_Some (d !! "/"))); simpl; [done|]. by rewrite app_nil_r.
  - intros data part_data v before after read Hty Hv Hparts Hbefore.
    unfold Standard.from_dict, Standard.from_dict_args, get_or. rewrite Hparts. simpl.
    rewrite (from_dict_loop_app before _ [] read Hbefore). cbn [Standard.from_dict_loop].
    rewrite (from_dict_part_other part_data v Hty).
    2:{ by destruct Hv as [-> | [[b ->] | [z ->]]]. }
    by destruct Hv as [-> | [[b ->] | [z ->]]].
Qed.

Lemma from_dict_tag_checks_witness :
  Legacy.from_dict legacy_no_type_data = Failed (KeyError "message_type") ∧
  Legacy.from_dict legacy_bad_type_data
    = Failed (ValueError (PyStr "reqest") "MessageType") ∧
  (∃ e, Standard.from_dict no_role_data = Failed e ∧
     (∀ items parts, iterate (get_or no_role_data "parts" (PyList [])) = Ok items →
        Standard.from_dict_loop items [] = Ok parts → e = KeyError "role")) ∧
  Standard.from_dict robot_role_data
    = Decoded {| Standard.role := PyStr "robot"; Standard.parts := [];
                 Standard.metadata := PyDict ∅ |} ∧
  Standard.from_dict_loop
    [PyDict (list_to_map [("type", PyStr "blob"); ("uri", PyStr "x.bin")])] []
  = Standard.from_dict_loop [] [] ∧
  Standard.from_dict_loop [PyDict {["type" := PyList [PyStr "file"]]}] []
  = Ok [Standard.FilePart (PyList [PyStr "file"]) PyNone PyNone PyNone] ∧
  Standard.from_dict none_type_data = Failed (TypeError "not iterable").
Proof.
  destruct from_dict_tag_checks
    as (Habsent & Hunknown & Hrole & Hany & Hskip & Hcontainer & Hscalar).
  split; [|split; [|split; [|split; [|split; [|split]]]]].
  - apply (proj2 (Habsent legacy_no_type_data eq_refl) COORDINATOR COMPANY_AGENT);
      reflexivity.
  - refine (proj2 (Hunknown legacy_bad_type_data (PyStr "reqest") eq_refl _)
              COORDINATOR COMPANY_AGENT eq_refl eq_refl).
    intros [] Heq; discriminate Heq.
  - apply (Hrole no_role_data). reflexivity.
  - apply (Hany robot_role_data (PyStr "robot") [] [] []); reflexivity.
  - apply (Hskip (list_to_map [("type", PyStr "blob"); ("uri", PyStr "x.bin")]) "blob");
      reflexivity.
  - refine (Hcontainer {["type" := PyList [PyStr "file"]]} (PyList [PyStr "file"]) true
              eq_refl _ [] []).
    left. exists [PyStr "file"]. split; reflexivity.
  - apply (Hscalar none_type_data {["type" := PyNone]} PyNone [] [] []); try reflexivity.
    by left.
Defined.

(** C2 as stated fails: a Part whose type is the unknown string "blob" is
    dropped and [from_dict] returns a message; nothing is raised. *)
Lemma from_dict_unknown_part_type_accepted :
  Standard.from_dict blob_data
  = Decoded {| Standard.role := PyStr "user"; Standard.parts := [];
               Standard.metadata := PyDict ∅ |}
  ∧ ¬ (∃ e, Standard.from_dict blob_data = Failed e).
Proof.
  assert (Standard.from_dict blob_data
          = Decoded {| Standard.role := PyStr "user"; Standard.parts := [];
                       Standard.metadata := PyDict ∅ |}) as H by (vm_compute; reflexivity).
  split; [exact H|]. rewrite H. intros [e He]. discriminate He.
Qed.

(** ** The bus *)

#[local] Arguments Bus.say : simpl never.

Section BusFacts.
Context {Msg : Type}.
Variable receiver : Msg → AgentRole.
Variable prints : Bus.line Msg → bool.

#[local] Abbreviation say := (Bus.say prints).
#[local] Abbreviation send_message := (Bus.send_message receiver prints).
#[local] Abbreviation nested := (Bus.nested receiver).
#[local] Abbreviation accounted := (Bus.accounted receiver).

Lemma say_history l (bus : Bus.MessageBus Msg) :
  Bus.message_history (say l bus) = Bus.message_history bus.
Proof. unfold Bus.say. by destruct (prints l). Qed.

Lemma say_handlers l (bus : Bus.MessageBus Msg) :
  Bus.agent_handlers (say l bus) = Bus.agent_handlers bus.
Proof. unfold Bus.say. by destruct (prints l). Qed.

Lemma say_trace l (bus : Bus.MessageBus Msg) :
  Bus.trace (say l bus) = Bus.trace bus.
Proof. unfold Bus.say. by destruct (prints l). Qed.

Lemma say_stdout l (bus : Bus.MessageBus Msg) :
  Bus.stdout (say l bus) = Bus.stdout bus ++ (if prints l then [l] else []).
Proof. unfold Bus.say. destruct (prints l); simpl; [done|]. by rewrite app_nil_r. Qed.

Ltac bus_fields :=
  repeat first
    [ rewrite say_handlers | rewrite say_history | rewrite say_trace
    | rewrite say_stdout | progress simpl ].

Ltac bus_fields_in H :=
  repeat first
    [ rewrite say_handlers in H | rewrite say_history in H | rewrite say_trace in H
    | rewrite say_stdout in H | progress simpl in H ].

Lemma nested_app handlers (tr1 tr2 : list (Bus.event Msg)) :
  nested handlers tr1 → nested handlers tr2 → nested handlers (tr1 ++ tr2).
Proof.
  intros H1 H2. induction H2 as [|tr m Htr IH Hm|tr inner m h r Htr IH Hin _ Hm].
  - by rewrite app_nil_r.
  - rewrite app_assoc. by apply Bus.nested_miss.
  - rewrite app_assoc. by eapply Bus.nested_call.
Qed.

Lemma accounted_refl (bus : Bus.MessageBus Msg) : accounted bus bus.
Proof.
  exists [], []. rewrite !app_nil_r. split; [done|]. split; [done|]. split; [done|].
  split; [constructor | done].
Qed.

Lemma accounted_trans (b1 b2 b3 : Bus.MessageBus Msg) :
  accounted b1 b2 → accounted b2 b3 → accounted b1 b3.
Proof.
  intros (n1 & a1 & Hh1 & Ht1 & Hm1 & Hn1 & Hl1) (n2 & a2 & Hh2 & Ht2 & Hm2 & Hn2 & Hl2).
  exists (n1 ++ n2), (a1 ++ a2). rewrite Hh1 in *.
  split; [congruence|]. split; [by rewrite Ht2, Ht1, app_assoc|].
  split; [by rewrite Hm2, Hm1, app_assoc|].
  split; [by apply nested_app|].
  rewrite length_app, sum_list_with_app. lia.
Qed.

(** A handler's run is accounted for when the sends it makes are. *)
Lemma run_accounted (send : Bus.MessageBus Msg → Msg → Bus.outcome) :
  (∀ bus m bus' r, send bus m = Some (bus', r) → accounted bus bus') →
  ∀ p bus bus' r, Bus.run send p bus = Some (bus', r) → accounted bus bus'.
Proof.
  intros Hsend p. induction p as [response|e|m k IH]; intros bus bus' r; simpl.
  - intros [= <- _]. apply accounted_refl.
  - intros [= <- _]. apply accounted_refl.
  - destruct (send bus m) as [[bus1 r1]|] eqn:Hs; [|done].
    intros Hrun. eapply accounted_trans; [by eapply Hsend | by eapply IH].
Qed.


(** [send_message] for a receiver without a handler. *)
Lemma send_message_unrouted fuel (bus : Bus.MessageBus Msg) m :
  Bus.agent_handlers bus !! receiver m = None →
  send_message (S fuel) bus m =
  Some (Bus.note (Bus.Finished m (Ok None))
          (say (Bus.NoHandlerRegistered (receiver m))
             (say (Bus.AddedToHistory (S (length (Bus.message_history bus))))
                (Bus.append m (say (Bus.SendingMessage m) bus)))), Ok None).
Proof.
  intros Hnone. simpl. rewrite say_handlers. simpl. rewrite say_handlers, Hnone.
  by rewrite say_history, length_app, Nat.add_1_r.
Qed.

(** [send_message] for a receiver with a handler: the handler runs once, on
    the bus that holds the request, and what it returns or raises is what
    [send_message] returns or raises. *)
Lemma send_message_routed fuel (bus : Bus.MessageBus Msg) m handler :
  Bus.agent_handlers bus !! receiver m = Some handler →
  send_message (S fuel) bus m =
  match Bus.run (send_message fuel) (handler m)
          (Bus.note (Bus.Invoked (receiver m) m)
             (say (Bus.RoutingToHandler (receiver m))
                (say (Bus.AddedToHistory (S (length (Bus.message_history bus))))
                   (Bus.append m (say (Bus.SendingMessage m) bus))))) with
  | Some (bus', r) =>
      Some (Bus.note (Bus.Finished m r)
              match r with
              | Ok (Some response) =>
                  say (Bus.ResponseReceived response) (Bus.append response bus')
              | Ok None => say Bus.NoResponseGenerated bus'
              | Raise e => say (Bus.ErrorInHandler e) bus'
              end, r)
  | None => None
  end.
Proof.
  intros Hsome. simpl. rewrite say_handlers. simpl. rewrite say_handlers, Hsome.
  rewrite say_history, length_app, Nat.add_1_r.
  destruct (Bus.run _ _ _) as [[bus' [[response|]|e]]|]; reflexivity.
Qed.

Lemma send_message_accounted fuel :
  ∀ (bus : Bus.MessageBus Msg) m bus' r,
    send_message fuel bus m = Some (bus', r) → accounted bus bus'.
Proof.
  induction fuel as [|fuel IH]; intros bus m bus' r; [done|].
  destruct (Bus.agent_handlers bus !! receiver m) as [handler|] eqn:Hh.
  - rewrite (send_message_routed _ _ _ handler Hh).
    destruct (Bus.run _ _ _) as [[bus3 r3]|] eqn:Hrun; [|done].
    intros [= <- <-].
    apply (run_accounted _ IH) in Hrun as (new & added & Hh3 & Ht3 & Hm3 & Hn3 & Hl3).
    bus_fields_in Hh3. bus_fields_in Ht3. bus_fields_in Hm3. bus_fields_in Hn3.
    exists (Bus.Invoked (receiver m) m :: new ++ [Bus.Finished m r3]),
           (m :: added ++ Bus.response_entry r3).
    split; [|split; [|split; [|split]]].
    + destruct r3 as [[response|]|e]; bus_fields; congruence.
    + destruct r3 as [[response|]|e]; bus_fields;
        rewrite Ht3, <- !app_assoc; reflexivity.
    + destruct r3 as [[response|]|e]; bus_fields;
        rewrite Hm3, <- ?app_assoc, ?app_nil_r; reflexivity.
    + apply (Bus.nested_call receiver _ [] new m handler r3); [constructor|done..].
    + simpl. rewrite length_app, sum_list_with_app, Hl3.
      destruct r3 as [[response|]|e]; simpl; lia.
  - rewrite (send_message_unrouted _ _ _ Hh). intros [= <- <-].
    exists [Bus.Finished m (Ok None)], [m].
    bus_fields.
    split; [done|]. split; [done|]. split; [done|]. split; [|done].
    by apply (Bus.nested_miss receiver _ [] m); [constructor|].
Qed.

(** Leaf handlers: the handler returns or raises without sending. *)
Lemma send_message_returns fuel (bus : Bus.MessageBus Msg) m handler response :
  Bus.agent_handlers bus !! receiver m = Some handler →
  handler m = Bus.Return response →
  ∃ bus', send_message (S fuel) bus m = Some (bus', Ok response) ∧
    Bus.agent_handlers bus' = Bus.agent_handlers bus ∧
    Bus.message_history bus' = Bus.message_history bus ++ m :: option_list response ∧
    Bus.trace bus' = Bus.trace bus ++
      [Bus.Invoked (receiver m) m; Bus.Finished m (Ok response)].
Proof.
  intros Hh Hret. rewrite (send_message_routed _ _ _ handler Hh), Hret. simpl.
  eexists. split; [reflexivity|].
  destruct response as [response|]; bus_fields; rewrite <- ?app_assoc; done.
Qed.

Lemma send_message_throws fuel (bus : Bus.MessageBus Msg) m handler e :
  Bus.agent_handlers bus !! receiver m = Some handler →
  handler m = Bus.Throw e →
  ∃ bus', send_message (S fuel) bus m = Some (bus', Raise e) ∧
    Bus.agent_handlers bus' = Bus.agent_handlers bus ∧
    Bus.message_history bus' = Bus.message_history bus ++ [m] ∧
    Bus.trace bus' = Bus.trace bus ++
      [Bus.Invoked (receiver m) m; Bus.Finished m (Raise e)] ∧
    Bus.stdout bus' =
      Bus.stdout bus
      ++ (if prints (Bus.SendingMessage m) then [Bus.SendingMessage m] else [])
      ++ (if prints (Bus.AddedToHistory (S (length (Bus.message_history bus))))
          then [Bus.AddedToHistory (S (length (Bus.message_history bus)))] else [])
      ++ (if prints (Bus.RoutingToHandler (receiver m))
          then [Bus.RoutingToHandler (receiver m)] else [])
      ++ (if prints (Bus.ErrorInHandler e) then [Bus.ErrorInHandler e] else []).
Proof.
  intros Hh Hret. rewrite (send_message_routed _ _ _ handler Hh), Hret. simpl.
  eexists. split; [reflexivity|]. bus_fields. rewrite <- ?app_assoc. done.
Qed.

(** A handler whose run ends in an exception: the same exception leaves
    [send_message], and nothing is appended to the history after the handler. *)
Lemma send_message_reraises fuel (bus : Bus.MessageBus Msg) m handler bus_h e :
  Bus.agent_handlers bus !! receiver m = Some handler →
  Bus.run (send_message fuel) (handler m) (Bus.at_handler receiver prints m bus)
    = Some (bus_h, Raise e) →
  ∃ bus', send_message (S fuel) bus m = Some (bus', Raise e) ∧
    Bus.message_history bus' = Bus.message_history bus_h ∧
    Bus.trace bus' = Bus.trace bus_h ++ [Bus.Finished m (Raise e)] ∧
    Bus.stdout bus' =
      Bus.stdout bus_h ++ (if prints (Bus.ErrorInHandler e) then [Bus.ErrorInHandler e] else []).
Proof.
  intros Hh Hrun. rewrite (send_message_routed _ _ _ handler Hh).
  unfold Bus.at_handler in Hrun. bus_fields_in Hrun.
  rewrite length_app, Nat.add_1_r in Hrun. rewrite Hrun.
  eexists. split; [reflexivity|]. by bus_fields.
Qed.

(** The shape of any finished send to a receiver with a handler. *)
Lemma send_message_routed_shape fuel (bus : Bus.MessageBus Msg) m handler bus' r :
  Bus.agent_handlers bus !! receiver m = Some handler →
  send_message fuel bus m = Some (bus', r) →
  ∃ inner mid,
    nested (Bus.agent_handlers bus) inner ∧
    Bus.trace bus' = Bus.trace bus ++ Bus.Invoked (receiver m) m :: inner ++ [Bus.Finished m r] ∧
    Bus.message_history bus' = Bus.message_history bus ++ m :: mid ++ Bus.response_entry r ∧
    length mid = sum_list_with Bus.entries_of inner.
Proof.
  intros Hh. destruct fuel as [|fuel]; [done|].
  rewrite (send_message_routed _ _ _ handler Hh).
  destruct (Bus.run _ _ _) as [[bus3 r3]|] eqn:Hrun; [|done].
  intros [= <- <-].
  apply (run_accounted _ (send_message_accounted fuel)) in Hrun
    as (new & added & Hh3 & Ht3 & Hm3 & Hn3 & Hl3).
  bus_fields_in Hh3. bus_fields_in Ht3. bus_fields_in Hm3. bus_fields_in Hn3.
  exists new, added. split; [done|]. split; [|split; [|done]].
  - destruct r3 as [[response|]|e]; bus_fields; rewrite Ht3, <- !app_assoc; reflexivity.
  - destruct r3 as [[response|]|e]; bus_fields;
      rewrite Hm3, <- ?app_assoc, ?app_nil_r; reflexivity.
Qed.

(** A handler's run that ends: the send ends with it. *)
Lemma send_message_finishes fuel (bus : Bus.MessageBus Msg) m handler bus_h r :
  Bus.agent_handlers bus !! receiver m = Some handler →
  Bus.run (send_message fuel) (handler m) (Bus.at_handler receiver prints m bus)
    = Some (bus_h, r) →
  ∃ bus', send_message (S fuel) bus m = Some (bus', r) ∧
    Bus.agent_handlers bus' = Bus.agent_handlers bus_h ∧
    Bus.message_history bus' = Bus.message_history bus_h ++ Bus.response_entry r ∧
    Bus.trace bus' = Bus.trace bus_h ++ [Bus.Finished m r].
Proof.
  intros Hh Hrun. rewrite (send_message_routed _ _ _ handler Hh).
  unfold Bus.at_handler in Hrun. bus_fields_in Hrun.
  rewrite length_app, Nat.add_1_r in Hrun. rewrite Hrun.
  eexists. split; [reflexivity|].
  destruct r as [[response|]|e]; bus_fields; rewrite ?app_nil_r; done.
Qed.

Lemma at_handler_fields (bus : Bus.MessageBus Msg) m :
  Bus.agent_handlers (Bus.at_handler receiver prints m bus) = Bus.agent_handlers bus ∧
  Bus.message_history (Bus.at_handler receiver prints m bus)
  = Bus.message_history bus ++ [m] ∧
  Bus.trace (Bus.at_handler receiver prints m bus)
  = Bus.trace bus ++ [Bus.Invoked (receiver m) m].
Proof. unfold Bus.at_handler. by bus_fields. Qed.

Lemma send_message_misses fuel (bus : Bus.MessageBus Msg) m :
  Bus.agent_handlers bus !! receiver m = None →
  ∃ bus', send_message (S fuel) bus m = Some (bus', Ok None) ∧
    Bus.agent_handlers bus' = Bus.agent_handlers bus ∧
    Bus.message_history bus' = Bus.message_history bus ++ [m].
Proof.
  intros Hnone. rewrite (send_message_unrouted _ _ _ Hnone).
  eexists. split; [reflexivity|]. by bus_fields.
Qed.

(** A handler that sends one envelope and goes on with what it got. *)
Lemma send_message_relays fuel (bus : Bus.MessageBus Msg) m handler m2 k bus2 r2 bus_h r :
  Bus.agent_handlers bus !! receiver m = Some handler →
  handler m = Bus.Send m2 k →
  send_message fuel (Bus.at_handler receiver prints m bus) m2 = Some (bus2, r2) →
  Bus.run (send_message fuel) (k r2) bus2 = Some (bus_h, r) →
  ∃ bus', send_message (S fuel) bus m = Some (bus', r) ∧
    Bus.agent_handlers bus' = Bus.agent_handlers bus_h ∧
    Bus.message_history bus' = Bus.message_history bus_h ++ Bus.response_entry r ∧
    Bus.trace bus' = Bus.trace bus_h ++ [Bus.Finished m r].
Proof.
  intros Hh Hsend Hinner Hrest. apply (send_message_finishes _ _ _ handler); [done|].
  rewrite Hsend. simpl. by rewrite Hinner.
Qed.

(** One send after the other to handlers that do not send. *)
Lemma send_message_plain fuel (bus : Bus.MessageBus Msg) m :
  Caller.no_handler_sends bus →
  ∃ bus', send_message (S fuel) bus m = Some (bus', Caller.outcome_of receiver bus m) ∧
    Bus.agent_handlers bus' = Bus.agent_handlers bus ∧
    Bus.message_history bus'
    = Bus.message_history bus ++ m :: Bus.response_entry (Caller.outcome_of receiver bus m).
Proof.
  intros Hplain. unfold Caller.outcome_of.
  destruct (Bus.agent_handlers bus !! receiver m) as [handler|] eqn:Hh.
  - destruct (Hplain _ handler m Hh) as [a Ha]. rewrite Ha. simpl.
    destruct (handler m) as [response|e|m2 k] eqn:Hm; simpl in Ha; [| |done].
    + injection Ha as <-.
      destruct (send_message_returns fuel bus m handler response Hh Hm)
        as (bus' & Hsend & Hh' & Hhist & _).
      exists bus'. split; [done|]. split; [done|]. rewrite Hhist. by destruct response.
    + injection Ha as <-.
      destruct (send_message_throws fuel bus m handler e Hh Hm)
        as (bus' & Hsend & Hh' & Hhist & _).
      exists bus'. by rewrite Hhist.
  - rewrite (send_message_unrouted _ _ _ Hh). eexists. split; [reflexivity|].
    by bus_fields.
Qed.

Lemma send_all_plain fuel messages :
  ∀ bus : Bus.MessageBus Msg,
    Caller.no_handler_sends bus →
    ∃ bus',
      Caller.send_all receiver prints (S fuel) bus messages
      = Some (bus', Caller.outcome_of receiver bus <$> messages) ∧
      Bus.agent_handlers bus' = Bus.agent_handlers bus ∧
      Bus.message_history bus'
      = Bus.message_history bus
        ++ concat ((fun m => m :: Bus.response_entry (Caller.outcome_of receiver bus m))
                   <$> messages).
Proof.
  induction messages as [|m messages IH]; intros bus Hplain.
  - exists bus. simpl. by rewrite app_nil_r.
  - destruct (send_message_plain fuel bus m Hplain) as (bus1 & Hsend & Hh1 & Hhist1).
    assert (Caller.no_handler_sends bus1) as Hplain1.
    { intros role handler m' Hr. rewrite Hh1 in Hr. by apply (Hplain role). }
    destruct (IH bus1 Hplain1) as (bus' & Hall & Hh' & Hhist').
    assert (∀ m', Caller.outcome_of receiver bus1 m' = Caller.outcome_of receiver bus m')
      as Hsame by (intros m'; unfold Caller.outcome_of; by rewrite Hh1).
    exists bus'. cbn [Caller.send_all]. rewrite Hsend, Hall.
    split; [|split].
    + rewrite fmap_cons. do 3 f_equal. apply list_fmap_ext. intros _ m' _. apply Hsame.
    + congruence.
    + rewrite Hhist', Hhist1, fmap_cons. cbn [concat]. rewrite <- app_assoc. do 2 f_equal.
      f_equal. apply list_fmap_ext. intros _ m' _. by rewrite Hsame.
Qed.

(** C3. Postcondition of [send_message], for both buses (they are this
    function at their own [receiver] and [prints]). (1) For a receiver
    without a handler the call returns [None] without raising, appends the
    request alone to the history and invokes no handler. (2) For a receiver
    with a handler that answers without sending, the call invokes that
    handler once with the envelope, returns what it returned, and appends
    the request and, when there is one, the response. (3) Any finished send
    to a receiver with a handler has its one [Invoked] event, for that role
    and envelope, before the events of the handler's own sends, and its
    request and response around their history entries. (4) After any
    sequence of sends, nested ones included, the handlers are unchanged and
    the history has grown by two entries for each send that got a response
    and one for each send that got none. (5) Whatever the handler does, the
    call returns or raises what the handler's run returned or raised, on the
    bus that run left, with the response appended when there is one. (6) A
    handler that sends an envelope itself: that send runs on the bus that
    holds the request, what it returned is what the handler goes on with, and
    the call ends as the rest of the handler does. (7) So a handler that asks
    a second handler, which answers without sending, and then answers: the
    history gains the request, the handler's own request and the answer to it,
    and the response, each once and in that order, and the handler has gone on
    with the answer it got. (8) A caller's sends one after the other, to
    handlers none of which sends: every call returns what the handler of its
    receiver returns ([None] without one), and the history gains, call by
    call, the request and then the response when there is one: two entries
    for each call that got a response and one for each that got none. *)
Theorem send_message_postcondition :
  (∀ fuel (bus : Bus.MessageBus Msg) m,
     Bus.agent_handlers bus !! receiver m = None →
     ∃ bus', send_message (S fuel) bus m = Some (bus', Ok None) ∧
       Bus.agent_handlers bus' = Bus.agent_handlers bus ∧
       Bus.message_history bus' = Bus.message_history bus ++ [m] ∧
       Bus.trace bus' = Bus.trace bus ++ [Bus.Finished m (Ok None)]) ∧
  (∀ fuel (bus : Bus.MessageBus Msg) m handler response,
     Bus.agent_handlers bus !! receiver m = Some handler →
     handler m = Bus.Return response →
     ∃ bus', send_message (S fuel) bus m = Some (bus', Ok response) ∧
       Bus.agent_handlers bus' = Bus.agent_handlers bus ∧
       Bus.message_history bus' = Bus.message_history bus ++ m :: option_list response ∧
       Bus.trace bus' = Bus.trace bus ++
         [Bus.Invoked (receiver m) m; Bus.Finished m (Ok response)]) ∧
  (∀ fuel (bus : Bus.MessageBus Msg) m handler bus' r,
     Bus.agent_handlers bus !! receiver m = Some handler →
     send_message fuel bus m = Some (bus', r) →
     ∃ inner mid,
       nested (Bus.agent_handlers bus) inner ∧
       Bus.trace bus' =
         Bus.trace bus ++ Bus.Invoked (receiver m) m :: inner ++ [Bus.Finished m r] ∧
       Bus.message_history bus' =
         Bus.message_history bus ++ m :: mid ++ Bus.response_entry r ∧
       length mid = sum_list_with Bus.entries_of inner) ∧
  (∀ fuel p (bus : Bus.MessageBus Msg) bus' r,
     Bus.run (send_message fuel) p bus = Some (bus', r) →
     ∃ new added,
       Bus.agent_handlers bus' = Bus.agent_handlers bus ∧
       Bus.trace bus' = Bus.trace bus ++ new ∧
       Bus.message_history bus' = Bus.message_history bus ++ added ∧
       nested (Bus.agent_handlers bus) new ∧
       length added = sum_list_with Bus.entries_of new) ∧
  (∀ fuel (bus : Bus.MessageBus Msg) m handler bus_h r,
     Bus.agent_handlers bus !! receiver m = Some handler →
     Bus.run (send_message fuel) (handler m) (Bus.at_handler receiver prints m bus)
       = Some (bus_h, r) →
     ∃ bus', send_message (S fuel) bus m = Some (bus', r) ∧
       Bus.agent_handlers bus' = Bus.agent_handlers bus_h ∧
       Bus.message_history bus' = Bus.message_history bus_h ++ Bus.response_entry r) ∧
  (∀ fuel (bus : Bus.MessageBus Msg) m handler m2 k bus2 r2 bus_h r,
     Bus.agent_handlers bus !! receiver m = Some handler →
     handler m = Bus.Send m2 k →
     send_message fuel (Bus.at_handler receiver prints m bus) m2 = Some (bus2, r2) →
     Bus.run (send_message fuel) (k r2) bus2 = Some (bus_h, r) →
     ∃ bus', send_message (S fuel) bus m = Some (bus', r) ∧
       Bus.agent_handlers bus' = Bus.agent_handlers bus_h ∧
       Bus.message_history bus' = Bus.message_history bus_h ++ Bus.response_entry r) ∧
  (∀ fuel (bus : Bus.MessageBus Msg) m handler m2 k response2 response,
     Bus.agent_handlers bus !! receiver m = Some handler →
     handler m = Bus.Send m2 k →
     (Bus.agent_handlers bus !! receiver m2 = None ∧ response2 = None) ∨
     (∃ handler2, Bus.agent_handlers bus !! receiver m2 = Some handler2 ∧
                  handler2 m2 = Bus.Return response2) →
     k (Ok response2) = Bus.Return response →
     ∃ bus', send_message (S (S fuel)) bus m = Some (bus', Ok response) ∧
       Bus.agent_handlers bus' = Bus.agent_handlers bus ∧
       Bus.message_history bus'
       = Bus.message_history bus
         ++ [m; m2] ++ option_list response2 ++ option_list response) ∧
  (∀ fuel (bus : Bus.MessageBus Msg) messages,
     Caller.no_handler_sends bus →
     ∃ bus',
       Caller.send_all receiver prints (S fuel) bus messages
       = Some (bus', Caller.outcome_of receiver bus <$> messages) ∧
       Bus.agent_handlers bus' = Bus.agent_handlers bus ∧
       Bus.message_history bus'
       = Bus.message_history bus
         ++ concat ((fun m => m :: Bus.response_entry (Caller.outcome_of receiver bus m))
                    <$> messages) ∧
       length (Bus.message_history bus')
       = length (Bus.message_history bus)
         + sum_list_with
             (fun m => match Caller.outcome_of receiver bus m with
                       | Ok (Some _) => 2
                       | _ => 1
                       end) messages).
Proof.
  split; [|split; [|split; [|split; [|split; [|split; [|split]]]]]].
  - intros fuel bus m Hnone. rewrite (send_message_unrouted _ _ _ Hnone).
    eexists. split; [reflexivity|]. by bus_fields.
  - intros fuel bus m handler response. apply send_message_returns.
  - intros fuel bus m handler bus' r. apply send_message_routed_shape.
  - intros fuel p bus bus' r Hrun.
    apply (run_accounted _ (send_message_accounted fuel) _ _ _ _ Hrun).
  - intros fuel bus m handler bus_h r Hh Hrun.
    destruct (send_message_finishes fuel bus m handler bus_h r Hh Hrun)
      as (bus' & Hsend & Hh' & Hhist & _).
    by exists bus'.
  - intros fuel bus m handler m2 k bus2 r2 bus_h r Hh Hm Hinner Hrest.
    destruct (send_message_relays fuel bus m handler m2 k bus2 r2 bus_h r Hh Hm Hinner Hrest)
      as (bus' & Hsend & Hh' & Hhist & _).
    by exists bus'.
  - intros fuel bus m handler m2 k response2 response Hh Hm Hsecond Hk.
    destruct (at_handler_fields bus m) as (Hha & Hhista & _).
    assert (∃ bus2, send_message (S fuel) (Bus.at_handler receiver prints m bus) m2
                    = Some (bus2, Ok response2) ∧
              Bus.agent_handlers bus2 = Bus.agent_handlers bus ∧
              Bus.message_history bus2
              = Bus.message_history bus ++ [m; m2] ++ option_list response2)
      as (bus2 & Hinner & Hh2 & Hhist2).
    { destruct Hsecond as [[Hnone ->] | (handler2 & Hsome & Hret)].
      - rewrite <- Hha in Hnone.
        destruct (send_message_misses fuel _ m2 Hnone) as (bus2 & Hsend2 & Hh2 & Hhist2).
        exists bus2. split; [done|]. split; [congruence|].
        rewrite Hhist2, Hhista, <- app_assoc. done.
      - rewrite <- Hha in Hsome.
        destruct (send_message_returns fuel _ m2 handler2 response2 Hsome Hret)
          as (bus2 & Hsend2 & Hh2 & Hhist2 & _).
        exists bus2. split; [done|]. split; [congruence|].
        rewrite Hhist2, Hhista, <- app_assoc. done. }
    destruct (send_message_relays (S fuel) bus m handler m2 k bus2 (Ok response2)
                bus2 (Ok response) Hh Hm Hinner) as (bus' & Hsend & Hh' & Hhist & _).
    { by rewrite Hk. }
    exists bus'. split; [done|]. split; [congruence|].
    rewrite Hhist, Hhist2. destruct response; simpl; by rewrite <- !app_assoc.
  - intros fuel bus messages Hplain.
    destruct (send_all_plain fuel messages bus Hplain) as (bus' & Hall & Hh' & Hhist).
    exists bus'. split; [done|]. split; [done|]. split; [done|].
    rewrite Hhist, length_app. f_equal.
    clear. induction messages as [|m messages IH]; [done|].
    rewrite fmap_cons. cbn [concat sum_list_with]. rewrite length_app, IH. f_equal.
    by destruct (Caller.outcome_of receiver bus m) as [[response|]|e].
Qed.

End BusFacts.

Lemma send_message_postcondition_witness :
  (∃ bus', LegacyBus.send_message 1 legacy_bus legacy_stray = Some (bus', Ok None) ∧
     Bus.agent_handlers bus' = Bus.agent_handlers legacy_bus ∧
     Bus.message_history bus' = Bus.message_history legacy_bus ++ [legacy_stray] ∧
     Bus.trace bus' = Bus.trace legacy_bus ++ [Bus.Finished legacy_stray (Ok None)]) ∧
  (∃ bus', LegacyBus.send_message 1 legacy_bus legacy_request
           = Some (bus', Ok (Some legacy_response)) ∧
     Bus.agent_handlers bus' = Bus.agent_handlers legacy_bus ∧
     Bus.message_history bus' =
       Bus.message_history legacy_bus ++ legacy_request :: option_list (Some legacy_response) ∧
     Bus.trace bus' = Bus.trace legacy_bus ++
       [Bus.Invoked (Legacy.receiver legacy_request) legacy_request;
        Bus.Finished legacy_request (Ok (Some legacy_response))]) ∧
  (∃ bus', LegacyBus.send_message 2 relay_bus legacy_request
           = Some (bus', Ok (Some legacy_response)) ∧
     Bus.message_history bus' = [legacy_request; legacy_stray; legacy_response]) ∧
  (∃ bus', Caller.send_all Legacy.receiver LegacyBus.prints 1 legacy_bus
             [legacy_request; legacy_stray; legacy_request]
           = Some (bus', [Ok (Some legacy_response); Ok None; Ok (Some legacy_response)]) ∧
     length (Bus.message_history bus') = 5).
Proof.
  destruct (send_message_postcondition Legacy.receiver LegacyBus.prints)
    as (Hmiss & Hhit & _ & _ & _ & _ & Hrelay & Hall).
  split; [|split; [|split]].
  - apply (Hmiss 0 legacy_bus legacy_stray). reflexivity.
  - apply (Hhit 0 legacy_bus legacy_request (fun _ => Bus.Return (Some legacy_response))
             (Some legacy_response)); reflexivity.
  - destruct (Hrelay 0 relay_bus legacy_request
                (fun _ => Bus.Send legacy_stray (fun _ => Bus.Return (Some legacy_response)))
                legacy_stray (fun _ => Bus.Return (Some legacy_response)) None
                (Some legacy_response) eq_refl eq_refl (or_introl (conj eq_refl eq_refl))
                eq_refl) as (bus' & Hsend & _ & Hhist).
    exists bus'. split; [exact Hsend | exact Hhist].
  - destruct (Hall 0 legacy_bus [legacy_request; legacy_stray; legacy_request])
      as (bus' & Hsends & _ & _ & Hlen).
    + intros role handler m Hrole.
      destruct role; try discriminate Hrole.
      injection Hrole as <-. by eexists.
    + exists bus'. split; [exact Hsends | exact Hlen].
Defined.


(** ** Handlers that raise *)

(** C9, as amended. When the handler of a registered receiver raises, with
    or without sends of its own before, [send_message] raises the same
    exception (never a response, an error envelope or [None]) and appends
    nothing to the history after the handler: for a handler that raises at
    once the history holds the request and no response for that call. This
    holds for both buses. The standard bus prints the error line before it
    raises again exactly when [verbose] is set and the exception derives
    from [Exception]; otherwise it prints nothing for it. *)
Theorem handler_exception_propagates :
  (∀ (Msg : Type) (receiver : Msg → AgentRole) (prints : Bus.line Msg → bool)
     fuel (bus : Bus.MessageBus Msg) m handler e,
     Bus.agent_handlers bus !! receiver m = Some handler →
     handler m = Bus.Throw e →
     ∃ bus', Bus.send_message receiver prints (S fuel) bus m = Some (bus', Raise e) ∧
       Bus.message_history bus' = Bus.message_history bus ++ [m] ∧
       Bus.trace bus' = Bus.trace bus ++
         [Bus.Invoked (receiver m) m; Bus.Finished m (Raise e)]) ∧
  (∀ (Msg : Type) (receiver : Msg → AgentRole) (prints : Bus.line Msg → bool)
     fuel (bus : Bus.MessageBus Msg) m handler bus_h e,
     Bus.agent_handlers bus !! receiver m = Some handler →
     Bus.run (Bus.send_message receiver prints fuel) (handler m)
       (Bus.at_handler receiver prints m bus) = Some (bus_h, Raise e) →
     ∃ bus', Bus.send_message receiver prints (S fuel) bus m = Some (bus', Raise e) ∧
       Bus.message_history bus' = Bus.message_history bus_h) ∧
  (∀ verbose fuel (bus : StandardBus.MessageBus) m handler bus_h e,
     Bus.agent_handlers bus !! Standard.receiver m = Some handler →
     Bus.run (StandardBus.send_message verbose fuel) (handler m)
       (Bus.at_handler Standard.receiver (StandardBus.prints verbose) m bus)
       = Some (bus_h, Raise e) →
     ∃ bus', StandardBus.send_message verbose (S fuel) bus m = Some (bus', Raise e) ∧
       Bus.stdout bus' =
         Bus.stdout bus_h ++
         (if verbose && is_Exception e then [Bus.ErrorInHandler e] else [])).
Proof.
  split; [|split].
  - intros Msg receiver prints fuel bus m handler e Hh Hthrow.
    destruct (send_message_throws receiver prints fuel bus m handler e Hh Hthrow)
      as (bus' & Hsend & _ & Hhist & Htrace & _).
    by exists bus'.
  - intros Msg receiver prints fuel bus m handler bus_h e Hh Hrun.
    destruct (send_message_reraises receiver prints fuel bus m handler bus_h e Hh Hrun)
      as (bus' & Hsend & Hhist & _).
    by exists bus'.
  - intros verbose fuel bus m handler bus_h e Hh Hrun.
    destruct (send_message_reraises _ _ fuel bus m handler bus_h e Hh Hrun)
      as (bus' & Hsend & _ & _ & Hout).
    exists bus'. split; [exact Hsend|]. exact Hout.
Qed.

Lemma handler_exception_propagates_witness :
  (∃ bus', StandardBus.send_message true 1 (failing_bus true) standard_request
           = Some (bus', Raise boom) ∧
     Bus.message_history bus' = Bus.message_history (failing_bus true) ++ [standard_request] ∧
     Bus.trace bus' = Bus.trace (failing_bus true) ++
       [Bus.Invoked (Standard.receiver standard_request) standard_request;
        Bus.Finished standard_request (Raise boom)]) ∧
  (∃ bus', StandardBus.send_message true 1 (failing_bus true) standard_request
           = Some (bus', Raise boom) ∧
     Bus.stdout bus' =
       Bus.stdout (Bus.at_handler Standard.receiver (StandardBus.prints true)
                     standard_request (failing_bus true)) ++
       (if true && is_Exception boom then [Bus.ErrorInHandler boom] else [])).
Proof.
  destruct handler_exception_propagates as (Hleaf & _ & Hlog).
  split.
  - apply (Hleaf _ Standard.receiver (StandardBus.prints true) 0 (failing_bus true)
             standard_request (fun _ => Bus.Throw boom) boom); reflexivity.
  - apply (Hlog true 0 (failing_bus true) standard_request (fun _ => Bus.Throw boom));
      reflexivity.
Defined.

(** C9 as stated fails: with [verbose] off the standard bus raises the
    handler's exception again and prints nothing, the error included. *)
Lemma quiet_bus_does_not_log_error :
  ∃ bus', StandardBus.send_message false 1 (failing_bus false) standard_request
          = Some (bus', Raise boom) ∧
    Bus.stdout bus' = [] ∧
    Bus.ErrorInHandler boom ∉ Bus.stdout bus'.
Proof.
  eexists. split; [reflexivity|]. split; [reflexivity|].
  simpl. apply not_elem_of_nil.
Qed.

(** ** The conversation threader *)

Section ThreaderFacts.
Context {Msg : Type}.
Variable message_id : Msg → string.
Variable in_reply_to : Msg → option string.

#[local] Abbreviation replies := (Bus.replies message_id in_reply_to).
#[local] Abbreviation get_conversation := (Bus.get_conversation message_id in_reply_to).
#[local] Abbreviation first_reply := (Bus.first_reply in_reply_to).
#[local] Abbreviation linked := (Bus.linked message_id in_reply_to).
#[local] Abbreviation is_reply_to id := (fun m : Msg => bool_decide (in_reply_to m = Some id)).
#[local] Abbreviation has_id id := (fun m : Msg => String.eqb (message_id m) id).

(** [next(...)]: the first match splits the list. *)
Lemma find_first (f : Msg → bool) (l : list Msg) x :
  find f l = Some x →
  ∃ before after, l = before ++ x :: after ∧ f x = true ∧ ∀ y, y ∈ before → f y = false.
Proof.
  induction l as [|a l IH]; simpl; [done|].
  destruct (f a) eqn:Ha.
  - intros [= ->]. exists [], l. split; [done|]. split; [done|].
    intros y Hy. by apply elem_of_nil in Hy.
  - intros Hfind. destruct (IH Hfind) as (before & after & -> & Hx & Hbefore).
    exists (a :: before), after. split; [done|]. split; [done|].
    intros y Hy. apply elem_of_cons in Hy as [-> | Hy]; [done | by apply Hbefore].
Qed.

Lemma find_absent (f : Msg → bool) (l : list Msg) :
  (∀ y, y ∈ l → f y = false) → find f l = None.
Proof.
  induction l as [|a l IH]; simpl; [done|]. intros Hall.
  rewrite (Hall a) by (apply elem_of_cons; by left).
  apply IH. intros y Hy. apply Hall. apply elem_of_cons. by right.
Qed.

Lemma find_only (f : Msg → bool) (l : list Msg) x :
  x ∈ l → f x = true → (∀ y, y ∈ l → f y = true → y = x) → find f l = Some x.
Proof.
  induction l as [|a l IH]; simpl; intros Hin Hx Honly.
  - by apply elem_of_nil in Hin.
  - destruct (f a) eqn:Ha.
    + f_equal. apply Honly; [apply elem_of_cons; by left | done].
    + apply elem_of_cons in Hin as [-> | Hin]; [congruence|].
      apply IH; [done..|]. intros y Hy. apply Honly. apply elem_of_cons. by right.
Qed.

Lemma replies_step fuel history current_id conversation reply :
  find (is_reply_to current_id) history = Some reply →
  replies (S fuel) history current_id conversation
  = replies fuel history (message_id reply) (conversation ++ [reply]).
Proof. simpl. by intros ->. Qed.

Lemma replies_stop fuel history current_id conversation :
  find (is_reply_to current_id) history = None →
  replies (S fuel) history current_id conversation = Some conversation.
Proof. simpl. by intros ->. Qed.

(** More fuel does not change a result. *)
Lemma replies_more_fuel fuel history :
  ∀ current_id conversation out,
    replies fuel history current_id conversation = Some out →
    ∀ fuel', fuel ≤ fuel' → replies fuel' history current_id conversation = Some out.
Proof.
  induction fuel as [|fuel IH]; intros current_id conversation out; [done|].
  intros Hrun fuel' Hle. destruct fuel' as [|fuel']; [lia|].
  simpl in *. destruct (find _ history) as [reply|]; [|done].
  apply (IH _ _ _ Hrun). lia.
Qed.

Lemma replies_linked fuel history :
  ∀ current_id conversation last_one out,
    last conversation = Some last_one →
    message_id last_one = current_id →
    linked history conversation →
    replies fuel history current_id conversation = Some out →
    linked history out.
Proof.
  induction fuel as [|fuel IH]; intros current_id conversation last_one out; [done|].
  intros Hlast Hid Hlinked. simpl.
  destruct (find _ history) as [reply|] eqn:Hfind; [|by intros [= <-]].
  apply (IH _ _ reply); [by rewrite last_snoc | done |].
  intros i prev x Hprev Hx.
  destruct (decide (S i < length conversation)) as [Hlt|Hge].
  - rewrite lookup_app_l in Hx by done. rewrite lookup_app_l in Hprev by lia.
    by apply (Hlinked i).
  - assert (i < length conversation) as Hi.
    { apply lookup_lt_Some in Hx. rewrite length_app in Hx. simpl in Hx. lia. }
    assert (S i = length conversation) as HSi by lia.
    rewrite lookup_app_l in Hprev by done.
    rewrite lookup_app_r in Hx by lia. rewrite HSi, Nat.sub_diag in Hx.
    simpl in Hx. injection Hx as <-.
    assert (prev = last_one) as ->.
    { rewrite last_lookup in Hlast. replace (pred (length conversation)) with i in Hlast by lia.
      congruence. }
    apply find_first in Hfind as (before & after & -> & Hreply & Hbefore).
    exists before, after. apply bool_decide_eq_true in Hreply.
    split; [done|]. split; [congruence|].
    intros y Hy. specialize (Hbefore y Hy). apply bool_decide_eq_false in Hbefore. congruence.
Qed.

Lemma find_found (f : Msg → bool) (before after : list Msg) x :
  f x = true → (∀ y, y ∈ before → f y = false) → find f (before ++ x :: after) = Some x.
Proof.
  intros Hx. induction before as [|a before IH]; simpl; intros Hbefore.
  - by rewrite Hx.
  - rewrite (Hbefore a) by (apply elem_of_cons; by left).
    apply IH. intros y Hy. apply Hbefore. apply elem_of_cons. by right.
Qed.

Lemma find_first_reply history id x :
  find (is_reply_to id) history = Some x ↔ first_reply history id x.
Proof.
  split.
  - intros Hfind. apply find_first in Hfind as (before & after & -> & Hx & Hbefore).
    exists before, after. split; [done|]. split; [by apply bool_decide_eq_true in Hx|].
    intros y Hy. specialize (Hbefore y Hy). by apply bool_decide_eq_false in Hbefore.
  - intros (before & after & -> & Hx & Hbefore). apply find_found.
    + by apply bool_decide_eq_true.
    + intros y Hy. apply bool_decide_eq_false. by apply Hbefore.
Qed.

Lemma find_no_reply history id :
  find (is_reply_to id) history = None ↔ ∀ m, m ∈ history → in_reply_to m ≠ Some id.
Proof.
  split.
  - intros Hfind m Hm Hr. apply list_elem_of_split in Hm as (l1 & l2 & ->).
    induction l1 as [|a l1 IH]; simpl in Hfind.
    + by rewrite (bool_decide_eq_true_2 _ Hr) in Hfind.
    + destruct (bool_decide (in_reply_to a = Some id)); [done | by apply IH].
  - intros Hall. apply find_absent. intros y Hy. apply bool_decide_eq_false. by apply Hall.
Qed.

(** The loop only appends. *)
Lemma replies_prefix fuel history :
  ∀ current_id conversation out,
    replies fuel history current_id conversation = Some out →
    ∃ rest, out = conversation ++ rest.
Proof.
  induction fuel as [|fuel IH]; intros current_id conversation out; [done|]. simpl.
  destruct (find _ history) as [reply|].
  - intros Hrun. destruct (IH _ _ _ Hrun) as [rest ->].
    exists (reply :: rest). by rewrite <- app_assoc.
  - intros [= <-]. exists []. by rewrite app_nil_r.
Qed.

(** C4, as amended. Thread reconstruction, for both buses
    ([get_conversation] is the same function in both). (1) With fuel for four
    turns, [get_conversation] at A's id returns [A; B; C], in that order,
    exactly in the histories where A is the first entry with its id, B the
    first entry that replies to A's id, C the first entry that replies to
    B's id, and no entry replies to C's id (the ids "1", "2", "3" of the
    claim are one instance). A history that holds A, B and C and more replies
    gives another thread. (2) For an id that no entry carries the result is
    empty, whatever the fuel. (3) In every thread returned, each entry after
    the first is the first entry of the history, in insertion order, that
    replies to the entry before it, so later entries with the same
    [in_reply_to] are not attached. *)
Theorem get_conversation_thread :
  (∀ (bus : Bus.MessageBus Msg) A B C fuel,
     3 < fuel →
     get_conversation fuel bus (message_id A) = Some [A; B; C] ↔
     (∃ before after,
        Bus.message_history bus = before ++ A :: after ∧
        ∀ m, m ∈ before → message_id m ≠ message_id A) ∧
     first_reply (Bus.message_history bus) (message_id A) B ∧
     first_reply (Bus.message_history bus) (message_id B) C ∧
     (∀ m, m ∈ Bus.message_history bus → in_reply_to m ≠ Some (message_id C))) ∧
  (∀ (bus : Bus.MessageBus Msg) id fuel,
     (∀ m, m ∈ Bus.message_history bus → message_id m ≠ id) →
     get_conversation fuel bus id = Some []) ∧
  (∀ (bus : Bus.MessageBus Msg) id fuel conversation,
     get_conversation fuel bus id = Some conversation →
     ∀ i prev x, conversation !! i = Some prev → conversation !! S i = Some x →
       first_reply (Bus.message_history bus) (message_id prev) x).
Proof.
  split; [|split].
  - intros bus A B C fuel Hfuel.
    do 4 (destruct fuel as [|fuel]; [lia|]). clear Hfuel.
    unfold Bus.get_conversation. split.
    + destruct (find (has_id (message_id A)) _) as [initial|] eqn:Hinitial; [|done].
      rewrite <- !find_first_reply, <- find_no_reply.
      destruct (find (is_reply_to (message_id A)) (Bus.message_history bus))
        as [r1|] eqn:Hr1;
        [rewrite (replies_step _ _ _ _ _ Hr1) | by rewrite (replies_stop _ _ _ _ Hr1)].
      destruct (find (is_reply_to (message_id r1)) (Bus.message_history bus))
        as [r2|] eqn:Hr2;
        [rewrite (replies_step _ _ _ _ _ Hr2) | by rewrite (replies_stop _ _ _ _ Hr2)].
      destruct (find (is_reply_to (message_id r2)) (Bus.message_history bus))
        as [r3|] eqn:Hr3;
        [rewrite (replies_step _ _ _ _ _ Hr3) | rewrite (replies_stop _ _ _ _ Hr3)].
      * intros Hrun. apply replies_prefix in Hrun as [rest Hrest].
        apply (f_equal length) in Hrest. rewrite length_app in Hrest. simpl in Hrest. lia.
      * intros [= -> -> ->]. split; [|done].
        apply find_first in Hinitial as (before & after & Hsplit & _ & Hbefore).
        exists before, after. split; [done|].
        intros m Hm. specialize (Hbefore m Hm). by apply String.eqb_neq in Hbefore.
    + intros ((before & after & Hsplit & Hbefore) & HB & HC & Hlast).
      apply find_first_reply in HB, HC. apply find_no_reply in Hlast.
      rewrite Hsplit at 1. rewrite find_found.
      * rewrite (replies_step _ _ _ _ _ HB), (replies_step _ _ _ _ _ HC).
        by rewrite (replies_stop _ _ _ _ Hlast).
      * apply String.eqb_refl.
      * intros y Hy. apply String.eqb_neq. by apply Hbefore.
  - intros bus id fuel Hnone. unfold Bus.get_conversation.
    rewrite find_absent; [done|]. intros y Hy.
    apply String.eqb_neq. by apply Hnone.
  - intros bus id fuel conversation. unfold Bus.get_conversation.
    destruct (find (has_id id) _) as [initial|] eqn:Hfind.
    + intros Hrun. apply find_first in Hfind as (before & after & _ & Hid & _).
      apply String.eqb_eq in Hid.
      apply (replies_linked fuel (Bus.message_history bus) id [initial] initial
               conversation eq_refl Hid); [|done].
      intros i prev x Hprev Hx. by destruct i.
    + intros [= <-] i prev x Hprev. done.
Qed.

(** The entry found by [next(...)] sits at an index of the history. *)
Lemma find_lookup (f : Msg → bool) (l : list Msg) x :
  find f l = Some x → ∃ j, l !! j = Some x ∧ f x = true.
Proof.
  intros Hfind. apply find_first in Hfind as (before & after & -> & Hx & _).
  exists (length before). split; [|done].
  by rewrite lookup_app_r, Nat.sub_diag by lia.
Qed.

Section Termination.
Variable history : list Msg.
Hypothesis unique_ids : NoDup (message_id <$> history).
Hypothesis replies_point_back :
  ∀ j m r, history !! j = Some m → in_reply_to m = Some r →
    ∃ i m', i < j ∧ history !! i = Some m' ∧ message_id m' = r.

(** A reply sits after the entry it replies to. *)
Lemma reply_is_later i mi j reply :
  history !! i = Some mi → history !! j = Some reply →
  in_reply_to reply = Some (message_id mi) → i < j.
Proof.
  intros Hi Hj Hr.
  destruct (replies_point_back j reply _ Hj Hr) as (i' & m' & Hlt & Hi' & Hid).
  assert (i' = i) as ->; [|done].
  apply (NoDup_lookup (message_id <$> history) i' i (message_id mi)); [done|..].
  - by rewrite list_lookup_fmap, Hi', <- Hid.
  - by rewrite list_lookup_fmap, Hi.
Qed.

(** The loop ends before the fuel does once the fuel exceeds what is left
    of the history behind the current entry. *)
Lemma replies_terminates fuel :
  ∀ i mi conversation,
    history !! i = Some mi → length history - i ≤ fuel →
    ∃ out, replies (S fuel) history (message_id mi) conversation = Some out.
Proof.
  induction fuel as [|fuel IH]; intros i mi conversation Hi Hfuel.
  - apply lookup_lt_Some in Hi. lia.
  - destruct (find (is_reply_to (message_id mi)) history) as [reply|] eqn:Hfind.
    + rewrite (replies_step _ _ _ _ reply Hfind).
      apply find_lookup in Hfind as (j & Hj & Hr). apply bool_decide_eq_true in Hr.
      pose proof (reply_is_later i mi j reply Hi Hj Hr) as Hlt.
      apply (IH j); [done | lia].
    + rewrite replies_stop by done. by eexists.
Qed.

End Termination.

(** C5. Termination of the threader. In a history whose message ids are
    pairwise distinct and where every [in_reply_to] that is set names the id
    of a strictly earlier entry, [get_conversation] returns for every
    starting id: with fuel beyond the length of the history the loop finds
    no further reply before the fuel ends, and the thread is the same for
    every such fuel. *)
Theorem get_conversation_terminates (bus : Bus.MessageBus Msg) :
  NoDup (message_id <$> Bus.message_history bus) →
  (∀ j m r, Bus.message_history bus !! j = Some m → in_reply_to m = Some r →
     ∃ i m', i < j ∧ Bus.message_history bus !! i = Some m' ∧ message_id m' = r) →
  ∀ id, ∃ conversation,
    ∀ fuel, length (Bus.message_history bus) < fuel →
      get_conversation fuel bus id = Some conversation.
Proof.
  intros Hunique Hback id. unfold Bus.get_conversation.
  destruct (find (has_id id) _) as [initial|] eqn:Hfind; [|by exists []].
  apply find_lookup in Hfind as (i & Hi & Hid). apply String.eqb_eq in Hid. subst id.
  destruct (replies_terminates _ Hunique Hback (length (Bus.message_history bus))
              i initial [initial] Hi) as [out Hout]; [lia|].
  exists out. intros fuel Hfuel.
  apply (replies_more_fuel _ _ _ _ _ Hout). lia.
Qed.

End ThreaderFacts.

Lemma get_conversation_thread_witness :
  LegacyBus.get_conversation 4 thread_bus "1" = Some [thread_A; thread_B; thread_C] ∧
  LegacyBus.get_conversation 0 thread_bus "7" = Some [].
Proof.
  destruct (get_conversation_thread Legacy.message_id Legacy.in_reply_to)
    as (Hthread & Hunknown & _).
  split.
  - apply (Hthread thread_bus thread_A thread_B thread_C 4); [lia|].
    split; [|split; [|split]].
    + exists [], [thread_B; thread_C]. split; [reflexivity|].
      intros m Hm. by apply elem_of_nil in Hm.
    + exists [thread_A], [thread_C]. split; [reflexivity|]. split; [reflexivity|].
      intros m Hm. apply list_elem_of_singleton in Hm as ->. discriminate.
    + exists [thread_A; thread_B], []. split; [reflexivity|]. split; [reflexivity|].
      intros m Hm. apply elem_of_cons in Hm as [-> | Hm]; [discriminate|].
      apply list_elem_of_singleton in Hm as ->. discriminate.
    + simpl. intros m Hm. set_unfold in Hm.
      destruct Hm as [-> | [-> | [-> | []]]]; simpl; done.
  - apply (Hunknown thread_bus "7" 0). simpl. intros m Hm. set_unfold in Hm.
    destruct Hm as [-> | [-> | [-> | []]]]; simpl; done.
Defined.

(** C4 as stated fails: a history can hold A, B and C and a later reply D
    to C, and then the thread of A is [A; B; C; D]; or another reply E to A
    before B, and then the thread of A is [A; E]. *)
Lemma get_conversation_thread_longer :
  (thread_A ∈ Bus.message_history late_reply_bus ∧
   thread_B ∈ Bus.message_history late_reply_bus ∧
   thread_C ∈ Bus.message_history late_reply_bus ∧
   LegacyBus.get_conversation 5 late_reply_bus "1"
   = Some [thread_A; thread_B; thread_C; thread_D] ∧
   LegacyBus.get_conversation 5 late_reply_bus "1"
   ≠ Some [thread_A; thread_B; thread_C]) ∧
  (thread_A ∈ Bus.message_history early_reply_bus ∧
   thread_B ∈ Bus.message_history early_reply_bus ∧
   thread_C ∈ Bus.message_history early_reply_bus ∧
   LegacyBus.get_conversation 5 early_reply_bus "1" = Some [thread_A; thread_E] ∧
   LegacyBus.get_conversation 5 early_reply_bus "1"
   ≠ Some [thread_A; thread_B; thread_C]).
Proof.
  split.
  - split; [simpl; set_solver|]. split; [simpl; set_solver|]. split; [simpl; set_solver|].
    split; [reflexivity|]. discriminate.
  - split; [simpl; set_solver|]. split; [simpl; set_solver|]. split; [simpl; set_solver|].
    split; [reflexivity|]. discriminate.
Qed.

Lemma get_conversation_terminates_witness :
  ∃ conversation,
    ∀ fuel, length (Bus.message_history thread_bus) < fuel →
      LegacyBus.get_conversation fuel thread_bus "1" = Some conversation.
Proof.
  apply (get_conversation_terminates Legacy.message_id Legacy.in_reply_to thread_bus).
  - apply (bool_decide_unpack _). reflexivity.
  - simpl. intros j m r Hj Hr.
    destruct j as [|[|[|j]]]; simpl in Hj; try done; injection Hj as <-; simpl in Hr.
    + done.
    + injection Hr as <-. exists 0, thread_A. split; [lia|done].
    + injection Hr as <-. exists 1, thread_B. split; [lia|done].
Defined.

(** ** Tasks *)

Section TaskFacts.
Import TaskContext.

Lemma alloc_spec (o : object) (h : heap) :
  ∃ r, alloc o h = (r, <[r := o]> h) ∧ h !! r = None.
Proof.
  exists (fresh (dom h)). split; [done|].
  apply not_elem_of_dom. apply is_fresh.
Qed.

Lemma task_at_Some (h : heap) self t :
  task_at h self = Some t ↔ h !! self = Some (TaskObj t).
Proof.
  unfold task_at. destruct (h !! self) as [[]|]; split; intros; simplify_eq; done.
Qed.

Lemma messages_at_Some (h : heap) r l :
  messages_at h r = Some l ↔ h !! r = Some (Messages l).
Proof.
  unfold messages_at. destruct (h !! r) as [[]|]; split; intros; simplify_eq; done.
Qed.

Lemma artifacts_at_Some (h : heap) r l :
  artifacts_at h r = Some l ↔ h !! r = Some (Artifacts l).
Proof.
  unfold artifacts_at. destruct (h !! r) as [[]|]; split; intros; simplify_eq; done.
Qed.

(** A new task: three new objects, the old ones untouched. *)
Lemma Task_init_spec uuid now sid md (h : heap) :
  ∃ t hist arts,
    Task_init uuid now sid md h =
      (t, <[t := TaskObj {| id := uuid; session_id := sid;
                            status := {| state := SUBMITTED; message := None;
                                         timestamp := now |};
                            history := hist; artifacts := arts; metadata := md |}]>
            (<[arts := Artifacts []]> (<[hist := Messages []]> h))) ∧
    h !! hist = None ∧ h !! arts = None ∧ h !! t = None ∧
    hist ≠ arts ∧ hist ≠ t ∧ arts ≠ t.
Proof.
  unfold Task_init.
  destruct (alloc_spec (Messages []) h) as (hist & -> & Hhist).
  destruct (alloc_spec (Artifacts []) (<[hist := Messages []]> h)) as (arts & -> & Harts).
  match goal with |- context [alloc ?o ?h'] =>
    destruct (alloc_spec o h') as (t & -> & Ht) end.
  exists t, hist, arts. split; [done|].
  apply lookup_insert_None in Harts as [Harts Hne1].
  apply lookup_insert_None in Ht as [Ht Hne2].
  apply lookup_insert_None in Ht as [Ht Hne3].
  done.
Qed.

Lemma update_status_spec (h : heap) self t st msg now :
  h !! self = Some (TaskObj t) →
  update_status self st msg now h =
    Some (<[self := TaskObj {| id := id t; session_id := session_id t;
                               status := {| state := st; message := msg; timestamp := now |};
                               history := history t; artifacts := artifacts t;
                               metadata := metadata t |}]> h).
Proof.
  intros Ht. unfold update_status. apply task_at_Some in Ht. by rewrite Ht.
Qed.

Lemma add_message_spec (h : heap) self t l m :
  h !! self = Some (TaskObj t) → h !! history t = Some (Messages l) →
  add_message self m h = Some (<[history t := Messages (l ++ [m])]> h).
Proof.
  intros Ht Hl. unfold add_message.
  apply task_at_Some in Ht. apply messages_at_Some in Hl. rewrite Ht. simpl. by rewrite Hl.
Qed.

Lemma add_artifact_spec (h : heap) self t l a :
  h !! self = Some (TaskObj t) → h !! artifacts t = Some (Artifacts l) →
  add_artifact self a h = Some (<[artifacts t := Artifacts (l ++ [a])]> h).
Proof.
  intros Ht Hl. unfold add_artifact.
  apply task_at_Some in Ht. apply artifacts_at_Some in Hl. rewrite Ht. simpl. by rewrite Hl.
Qed.

Lemma get_context_spec (h : heap) self t l max_messages :
  h !! self = Some (TaskObj t) → h !! history t = Some (Messages l) →
  ∃ r, get_context self max_messages h
       = Some (r, <[r := Messages (trailing max_messages l)]> h) ∧
    h !! r = None.
Proof.
  intros Ht Hl. unfold get_context.
  apply task_at_Some in Ht. apply messages_at_Some in Hl. rewrite Ht. simpl. rewrite Hl. simpl.
  destruct (alloc_spec (Messages (trailing max_messages l)) h) as (r & -> & Hr).
  by exists r.
Qed.

(** C6. Task lifecycle frame conditions. (1) A new task is in state
    [SUBMITTED], with empty history and artifacts, and [create_task] returns
    such a task. (2) [update_status] replaces the status by the given state
    and message with the clock's stamp and keeps the id, the session id, the
    metadata and the history and artifacts lists, and every other object.
    (3) After [update_status], [get_context()] still returns all prior
    messages. (4) [add_message] appends one entry to the history and
    [add_artifact] one to the artifacts; neither changes the task object,
    and so not its status, nor any other object. *)
Theorem task_lifecycle_frame :
  (∀ uuid now sid md (h : heap),
     ∃ t h' T, Task_init uuid now sid md h = (t, h') ∧
       h' !! t = Some (TaskObj T) ∧
       state (status T) = SUBMITTED ∧
       h' !! history T = Some (Messages []) ∧
       h' !! artifacts T = Some (Artifacts [])) ∧
  (∀ uuid_session uuid_task now session_id md manager (h : heap),
     ∃ t manager' h' T,
       create_task uuid_session uuid_task now session_id md manager h = (t, manager', h') ∧
       h' !! t = Some (TaskObj T) ∧ state (status T) = SUBMITTED) ∧
  (∀ (h : heap) self T st msg now,
     h !! self = Some (TaskObj T) →
     ∃ h', update_status self st msg now h = Some h' ∧
       h' !! self =
         Some (TaskObj {| id := id T; session_id := session_id T;
                          status := {| state := st; message := msg; timestamp := now |};
                          history := history T; artifacts := artifacts T;
                          metadata := metadata T |}) ∧
       ∀ r, r ≠ self → h' !! r = h !! r) ∧
  (∀ (h : heap) self T l st msg now,
     h !! self = Some (TaskObj T) → h !! history T = Some (Messages l) →
     ∃ h1 r h2, update_status self st msg now h = Some h1 ∧
       get_context self None h1 = Some (r, h2) ∧
       h2 !! r = Some (Messages l)) ∧
  (∀ (h : heap) self T l m,
     h !! self = Some (TaskObj T) → h !! history T = Some (Messages l) →
     ∃ h', add_message self m h = Some h' ∧
       h' !! history T = Some (Messages (l ++ [m])) ∧
       h' !! self = Some (TaskObj T) ∧
       ∀ r, r ≠ history T → h' !! r = h !! r) ∧
  (∀ (h : heap) self T l a,
     h !! self = Some (TaskObj T) → h !! artifacts T = Some (Artifacts l) →
     ∃ h', add_artifact self a h = Some h' ∧
       h' !! artifacts T = Some (Artifacts (l ++ [a])) ∧
       h' !! self = Some (TaskObj T) ∧
       ∀ r, r ≠ artifacts T → h' !! r = h !! r).
Proof.
  split; [|split; [|split; [|split; [|split]]]].
  - intros uuid now sid md h.
    destruct (Task_init_spec uuid now sid md h)
      as (t & hist & arts & -> & Hhist & Harts & Ht & Hne1 & Hne2 & Hne3).
    eexists t, _, _. split; [reflexivity|]. rewrite lookup_insert_eq.
    split; [reflexivity|]. split; [reflexivity|]. simpl. split.
    + by rewrite !lookup_insert_ne, lookup_insert_eq by done.
    + by rewrite lookup_insert_ne, lookup_insert_eq by done.
  - intros uuid_session uuid_task now session_id md manager h. unfold create_task.
    destruct (Task_init_spec uuid_task now (session_or session_id uuid_session)
                (default ∅ md) h)
      as (t & hist & arts & -> & _).
    eexists t, _, _, _. split; [reflexivity|]. rewrite lookup_insert_eq. done.
  - intros h self T st msg now HT. rewrite (update_status_spec h self T) by done.
    eexists. split; [reflexivity|]. rewrite lookup_insert_eq. split; [done|].
    intros r Hr. by rewrite lookup_insert_ne.
  - intros h self T l st msg now HT Hl. rewrite (update_status_spec h self T) by done.
    assert (history T ≠ self) as Hne by (intros Heq; rewrite Heq in Hl; congruence).
    match goal with |- context [Some (<[self := TaskObj ?T']> h)] =>
      destruct (get_context_spec (<[self := TaskObj T']> h) self T' l None)
        as (r & Hget & Hr) end.
    { by rewrite lookup_insert_eq. }
    { simpl. by rewrite lookup_insert_ne. }
    eexists _, r, _. split; [reflexivity|]. split; [exact Hget|].
    by rewrite lookup_insert_eq.
  - intros h self T l m HT Hl. rewrite (add_message_spec h self T l) by done.
    assert (history T ≠ self) as Hne by (intros Heq; rewrite Heq in Hl; congruence).
    eexists. split; [reflexivity|]. rewrite lookup_insert_eq. split; [done|].
    split; [by rewrite lookup_insert_ne|]. intros r Hr. by rewrite lookup_insert_ne.
  - intros h self T l a HT Hl. rewrite (add_artifact_spec h self T l) by done.
    assert (artifacts T ≠ self) as Hne by (intros Heq; rewrite Heq in Hl; congruence).
    eexists. split; [reflexivity|]. rewrite lookup_insert_eq. split; [done|].
    split; [by rewrite lookup_insert_ne|]. intros r Hr. by rewrite lookup_insert_ne.
Qed.

(** *** [get_context] *)

Lemma slice_from_most_recent {A} (n : Z) (xs : list A) :
  (0 < n)%Z → slice_from (- n) xs = most_recent (Z.to_nat n) xs.
Proof.
  intros Hn. unfold slice_from, most_recent.
  destruct (Z.ltb_spec (- n) 0) as [_|H]; [|lia]. f_equal. lia.
Qed.

Lemma most_recent_all {A} (n : nat) (xs : list A) :
  length xs ≤ n → most_recent n xs = xs.
Proof. intros Hn. unfold most_recent. by replace (length xs - n) with 0 by lia. Qed.

(** X23. [get_context] as its docstring has it. For a positive [max],
    [get_context(max)] returns the most recent [max] entries of the history
    in order, all of them when [max] exceeds the length; without [max] it
    returns all entries. The list returned is a new object: the heap did not
    hold it before, no other object has changed, and whatever is stored in it
    afterwards the task's history is the same. *)
Theorem get_context_recent_copy :
  ∀ (h : heap) self T l max_messages,
    h !! self = Some (TaskObj T) → h !! history T = Some (Messages l) →
    ∃ r h' out,
      get_context self max_messages h = Some (r, h') ∧
      h !! r = None ∧
      h' !! r = Some (Messages out) ∧
      (∀ r', r' ≠ r → h' !! r' = h !! r') ∧
      (∀ l', <[r := Messages l']> h' !! history T = Some (Messages l)) ∧
      match max_messages with
      | None => out = l
      | Some n =>
          ((0 < n)%Z → out = most_recent (Z.to_nat n) l) ∧
          ((0 < n)%Z → (Z.of_nat (length l) ≤ n)%Z → out = l)
      end.
Proof.
  intros h self T l max_messages HT Hl.
  destruct (get_context_spec h self T l max_messages HT Hl) as (r & Hget & Hr).
  assert (history T ≠ r) as Hne by (intros Heq; rewrite Heq in Hl; congruence).
  exists r, (<[r := Messages (trailing max_messages l)]> h), (trailing max_messages l).
  split; [exact Hget|]. split; [exact Hr|]. split; [by rewrite lookup_insert_eq|].
  split; [intros r' Hr'; by rewrite lookup_insert_ne|].
  split; [intros l'; by rewrite !lookup_insert_ne|].
  destruct max_messages as [n|]; [|done]. unfold trailing.
  destruct (Z.eqb_spec n 0) as [->|Hn0].
  - split; lia.
  - split; [apply slice_from_most_recent|].
    intros Hpos Hlen. rewrite slice_from_most_recent by done.
    apply most_recent_all. lia.
Qed.

End TaskFacts.

(** ** The task manager *)

Section ManagerFacts.
Import TaskContext.

Lemma created_app calls1 calls2 : created (calls1 ++ calls2) = created calls1 ++ created calls2.
Proof. apply omap_app. Qed.

Lemma messages_of_app calls1 calls2 tid :
  messages_of (calls1 ++ calls2) tid = messages_of calls1 tid ++ messages_of calls2 tid.
Proof. apply omap_app. Qed.

Lemma ids_in_app cr1 cr2 sid : ids_in (cr1 ++ cr2) sid = ids_in cr1 sid ++ ids_in cr2 sid.
Proof. apply omap_app. Qed.

Lemma elem_of_ids_in cr sid tid : tid ∈ ids_in cr sid ↔ (tid, sid) ∈ cr.
Proof.
  unfold ids_in. rewrite list_elem_of_omap. split.
  - intros ([tid' sid'] & Hin & Hf). simpl in Hf.
    destruct (String.eqb_spec sid' sid) as [->|]; [|done]. by injection Hf as ->.
  - intros Hin. exists (tid, sid). split; [done|]. simpl. by rewrite String.eqb_refl.
Qed.

Lemma ids_in_NoDup cr sid : NoDup cr.*1 → NoDup (ids_in cr sid).
Proof.
  induction cr as [|[tid s] cr IH]; simpl; [constructor|].
  intros Hnd. apply NoDup_cons in Hnd as [Hnotin Hnd].
  destruct (String.eqb s sid); [|by apply IH].
  apply NoDup_cons. split; [|by apply IH].
  intros Hin. apply elem_of_ids_in in Hin. apply Hnotin.
  apply list_elem_of_fmap. by exists (tid, sid).
Qed.

(** What [create_task] leaves in the manager. *)
Lemma create_task_spec uuid_session uuid_task now session_id md manager (h : heap) :
  let sid := session_or session_id uuid_session in
  ∃ t h', Task_init uuid_task now sid (default ∅ md) h = (t, h') ∧
    create_task uuid_session uuid_task now session_id md manager h =
      (t, {| tasks := <[uuid_task := t]> (tasks manager);
             sessions := <[sid := default [] (sessions manager !! sid) ++ [uuid_task]]>
                           (sessions manager) |}, h').
Proof.
  intros sid. unfold create_task. fold sid.
  destruct (Task_init uuid_task now sid (default ∅ md) h) as [t h'].
  exists t, h'. split; [done|]. f_equal. f_equal.
  destruct (sessions manager !! sid) as [ids|] eqn:Hs; simpl.
  - by rewrite Hs.
  - by rewrite lookup_insert_eq, insert_insert_eq.
Qed.

Lemma consistent_start : consistent [] start.
Proof.
  split; simpl.
  - constructor.
  - intros sid. apply lookup_empty.
  - intros tid _. split; [apply lookup_empty | done].
  - intros tid sid Hin. by apply elem_of_nil in Hin.
  - intros tid tid' r r' T T' Hr. by rewrite lookup_empty in Hr.
Qed.

(** A task the manager stores is one that was created, and is held as the
    calls say. *)
Lemma consistent_lookup calls manager (h : heap) tid r :
  consistent calls (manager, h) → tasks manager !! tid = Some r →
  ∃ sid T a, (tid, sid) ∈ created calls ∧
    h !! r = Some (TaskObj T) ∧ id T = tid ∧ session_id T = sid ∧
    h !! history T = Some (Messages (messages_of calls tid)) ∧
    h !! artifacts T = Some (Artifacts a).
Proof.
  intros Hc Hr.
  destruct (decide (tid ∈ (created calls).*1)) as [Hin|Hnotin].
  - apply list_elem_of_fmap in Hin as ([tid' sid] & -> & Hin). simpl.
    destruct (tasks_ok _ _ Hc _ _ Hin) as (r' & T & a & Hr' & HT & Hid & Hsid & Hh & Ha).
    simpl in *. exists sid, T, a. by simplify_eq.
  - destruct (tasks_dom _ _ Hc _ Hnotin) as [Hnone _]. simpl in Hnone. congruence.
Qed.

Lemma consistent_create calls manager (h : heap)
    uuid_session uuid_task now session_id md t manager' h' :
  consistent calls (manager, h) →
  uuid_task ∉ (created calls).*1 →
  create_task uuid_session uuid_task now session_id md manager h = (t, manager', h') →
  consistent (calls ++ [CreateTask uuid_session uuid_task now session_id md])
    (manager', h').
Proof.
  intros Hc Hfresh Hcreate.
  destruct (create_task_spec uuid_session uuid_task now session_id md manager h)
    as (t0 & h0 & Hinit & Hspec).
  rewrite Hspec in Hcreate. injection Hcreate as <- <- <-.
  set (sid := session_or session_id uuid_session) in *.
  destruct (Task_init_spec uuid_task now sid (default ∅ md) h)
    as (t & hist & arts & Hinit' & Hhist & Harts & Ht & Hne1 & Hne2 & Hne3).
  rewrite Hinit' in Hinit. injection Hinit as <- <-.
  set (Tn := {| id := uuid_task; session_id := sid;
                status := {| state := SUBMITTED; message := None; timestamp := now |};
                history := hist; artifacts := arts; metadata := default ∅ md |}) in *.
  set (h' := <[t := TaskObj Tn]> (<[arts := Artifacts []]> (<[hist := Messages []]> h))).
  assert (∀ r o, h !! r = Some o → h' !! r = Some o) as Hold.
  { intros r o Hr. unfold h'.
    rewrite !lookup_insert_ne; [done|..]; intros ->; congruence. }
  assert (created (calls ++ [CreateTask uuid_session uuid_task now session_id md])
          = created calls ++ [(uuid_task, sid)]) as Hcr by (by rewrite created_app).
  assert (∀ tid, messages_of (calls ++ [CreateTask uuid_session uuid_task now session_id md]) tid
                 = messages_of calls tid) as Hmsgs.
  { intros tid. rewrite messages_of_app. simpl. by rewrite app_nil_r. }
  split; simpl.
  - rewrite Hcr, fmap_app. apply NoDup_app. split; [apply (fresh_ids _ _ Hc)|].
    split; [|apply NoDup_singleton].
    intros x Hx Hin. apply list_elem_of_singleton in Hin. simpl in Hin. by subst.
  - intros s. rewrite Hcr, ids_in_app. simpl.
    pose proof (sessions_ok _ _ Hc sid) as Hsid. simpl in Hsid.
    destruct (String.eqb_spec sid s) as [<-|Hne].
    + rewrite lookup_insert_eq, Hsid. by destruct (ids_in (created calls) sid).
    + rewrite lookup_insert_ne by done. rewrite app_nil_r. apply (sessions_ok _ _ Hc s).
  - intros tid Hnotin. rewrite Hcr, fmap_app in Hnotin.
    apply not_elem_of_app in Hnotin as [Hnotin Hne].
    apply not_elem_of_cons in Hne as [Hne _]. simpl in Hne.
    destruct (tasks_dom _ _ Hc tid Hnotin) as [Hnone Hempty]. simpl in Hnone.
    rewrite lookup_insert_ne by done. by rewrite Hmsgs.
  - intros tid s Hin. rewrite Hcr in Hin. apply elem_of_app in Hin as [Hin|Hin].
    + destruct (tasks_ok _ _ Hc _ _ Hin) as (r & T & a & Hr & HT & Hid & Hsid & Hh & Ha).
      simpl in *. exists r, T, a. simpl. rewrite Hmsgs.
      assert (tid ≠ uuid_task) as Hne.
      { intros ->. apply Hfresh. apply list_elem_of_fmap. by exists (uuid_task, s). }
      rewrite lookup_insert_ne by done. split; [done|].
      split; [by apply Hold|]. split; [done|]. split; [done|].
      split; by apply Hold.
    + apply list_elem_of_singleton in Hin. injection Hin as -> ->.
      exists t, Tn, []. simpl. rewrite Hmsgs, lookup_insert_eq.
      destruct (tasks_dom _ _ Hc uuid_task Hfresh) as [_ ->].
      split; [done|]. unfold h'. rewrite lookup_insert_eq. split; [done|].
      split; [done|]. split; [done|]. split.
      * by rewrite !lookup_insert_ne, lookup_insert_eq by done.
      * by rewrite lookup_insert_ne, lookup_insert_eq by done.
  - assert (∀ tid r T, tid ≠ uuid_task → tasks manager !! tid = Some r →
              h' !! r = Some (TaskObj T) →
              h !! r = Some (TaskObj T) ∧ is_Some (h !! history T)) as Hback.
    { intros tid r T Hne Hr HT.
      destruct (consistent_lookup _ _ _ _ _ Hc Hr) as (s & T0 & a & _ & HT0 & _ & _ & Hh0 & _).
      rewrite (Hold _ _ HT0) in HT. injection HT as <-. by rewrite Hh0. }
    intros tid tid' r r' T T' Hr Hr' HT HT' Heq.
    destruct (decide (tid = uuid_task)) as [->|Hne];
      destruct (decide (tid' = uuid_task)) as [->|Hne']; [done|..].
    + rewrite lookup_insert_eq in Hr. injection Hr as <-.
      rewrite lookup_insert_ne in Hr' by done.
      unfold h' in HT at 1. rewrite lookup_insert_eq in HT. injection HT as <-.
      destruct (Hback _ _ _ Hne' Hr' HT') as [_ [o Ho]].
      simpl in Heq. rewrite <- Heq in Ho. congruence.
    + rewrite lookup_insert_eq in Hr'. injection Hr' as <-.
      rewrite lookup_insert_ne in Hr by done.
      unfold h' in HT' at 1. rewrite lookup_insert_eq in HT'. injection HT' as <-.
      destruct (Hback _ _ _ Hne Hr HT) as [_ [o Ho]].
      simpl in Heq. rewrite Heq in Ho. congruence.
    + rewrite lookup_insert_ne in Hr, Hr' by done.
      destruct (Hback _ _ _ Hne Hr HT) as [HT0 _].
      destruct (Hback _ _ _ Hne' Hr' HT') as [HT0' _].
      by apply (histories_apart _ _ Hc tid tid' r r' T T').
Qed.

Lemma consistent_add_message calls manager (h : heap) tid m r h' :
  consistent calls (manager, h) →
  tasks manager !! tid = Some r →
  add_message r m h = Some h' →
  consistent (calls ++ [AddMessage tid m]) (manager, h').
Proof.
  intros Hc Hr Hadd.
  destruct (consistent_lookup _ _ _ _ _ Hc Hr) as (sid & T & a & Hin & HT & Hid & Hsid & Hh & Ha).
  rewrite (add_message_spec h r T _ m HT Hh) in Hadd. injection Hadd as <-.
  assert (created (calls ++ [AddMessage tid m]) = created calls) as Hcr.
  { rewrite created_app. simpl. by rewrite app_nil_r. }
  assert (∀ tid', messages_of (calls ++ [AddMessage tid m]) tid'
                  = messages_of calls tid' ++ (if String.eqb tid tid' then [m] else [])) as Hmsgs.
  { intros tid'. rewrite messages_of_app. simpl. by destruct (String.eqb tid tid'). }
  assert (∀ r' T', h !! r' = Some (TaskObj T') → r' ≠ history T) as Hkind.
  { intros r' T' HT' ->. congruence. }
  split; simpl; rewrite ?Hcr.
  - apply (fresh_ids _ _ Hc).
  - apply (sessions_ok _ _ Hc).
  - intros tid' Hnotin. destruct (tasks_dom _ _ Hc tid' Hnotin) as [Hnone Hempty].
    split; [done|]. rewrite Hmsgs, Hempty.
    destruct (String.eqb_spec tid tid') as [<-|]; [|done].
    destruct Hnotin. apply list_elem_of_fmap. by exists (tid, sid).
  - intros tid' s Hin'.
    destruct (tasks_ok _ _ Hc _ _ Hin') as (r' & T' & a' & Hr' & HT' & Hid' & Hsid' & Hh' & Ha').
    simpl in Hr', HT', Hh', Ha'. exists r', T', a'. simpl. rewrite Hmsgs.
    split; [done|]. split; [by rewrite lookup_insert_ne by (symmetry; by eapply Hkind)|].
    split; [done|]. split; [done|]. split.
    + destruct (String.eqb_spec tid tid') as [<-|Hne].
      * assert (r' = r) as -> by congruence. assert (T' = T) as -> by congruence.
        by rewrite lookup_insert_eq.
      * rewrite lookup_insert_ne, Hh', app_nil_r; [done|].
        intros Heq. apply Hne. by apply (histories_apart _ _ Hc tid tid' r r' T T').
    + rewrite lookup_insert_ne; [done|]. intros Heq. rewrite Heq in Hh. congruence.
  - intros tid1 tid2 r1 r2 T1 T2 Hr1 Hr2 HT1 HT2.
    assert (∀ r' T', <[history T := Messages (messages_of calls tid ++ [m])]> h !! r'
                     = Some (TaskObj T') → h !! r' = Some (TaskObj T')) as Hback.
    { intros r' T' Hl. destruct (decide (history T = r')) as [<-|Hne].
      - by rewrite lookup_insert_eq in Hl.
      - by rewrite lookup_insert_ne in Hl. }
    apply (histories_apart _ _ Hc tid1 tid2 r1 r2 T1 T2); auto.
Qed.

Lemma consistent_update_status calls manager (h : heap) tid st msg now r h' :
  consistent calls (manager, h) →
  tasks manager !! tid = Some r →
  update_status r st msg now h = Some h' →
  consistent (calls ++ [UpdateStatus tid st msg now]) (manager, h').
Proof.
  intros Hc Hr Hupd.
  destruct (consistent_lookup _ _ _ _ _ Hc Hr) as (sid & T & a & Hin & HT & Hid & Hsid & Hh & Ha).
  rewrite (update_status_spec h r T st msg now HT) in Hupd. injection Hupd as <-.
  set (Tn := {| id := id T; session_id := session_id T;
                status := {| state := st; message := msg; timestamp := now |};
                history := history T; artifacts := artifacts T; metadata := metadata T |}).
  assert (created (calls ++ [UpdateStatus tid st msg now]) = created calls) as Hcr.
  { rewrite created_app. simpl. by rewrite app_nil_r. }
  assert (∀ tid', messages_of (calls ++ [UpdateStatus tid st msg now]) tid'
                  = messages_of calls tid') as Hmsgs.
  { intros tid'. rewrite messages_of_app. simpl. by rewrite app_nil_r. }
  assert (∀ r' l, h !! r' = Some (Messages l) → <[r := TaskObj Tn]> h !! r' = Some (Messages l))
    as Hlists.
  { intros r' l Hl. rewrite lookup_insert_ne; [done|]. intros ->. congruence. }
  assert (∀ r' l, h !! r' = Some (Artifacts l) → <[r := TaskObj Tn]> h !! r' = Some (Artifacts l))
    as Harts.
  { intros r' l Hl. rewrite lookup_insert_ne; [done|]. intros ->. congruence. }
  split; simpl; rewrite ?Hcr.
  - apply (fresh_ids _ _ Hc).
  - apply (sessions_ok _ _ Hc).
  - intros tid' Hnotin. rewrite Hmsgs. apply (tasks_dom _ _ Hc tid' Hnotin).
  - intros tid' s Hin'.
    destruct (tasks_ok _ _ Hc _ _ Hin') as (r' & T' & a' & Hr' & HT' & Hid' & Hsid' & Hh' & Ha').
    simpl in Hr', HT', Hh', Ha'. unfold holds_task. rewrite Hmsgs. destruct (decide (r' = r)) as [->|Hne].
    + assert (T' = T) as -> by congruence.
      exists r, Tn, a'. simpl. rewrite lookup_insert_eq.
      split; [done|]. split; [done|]. split; [done|]. split; [done|].
      split; [by apply Hlists | by apply Harts].
    + exists r', T', a'. simpl. rewrite lookup_insert_ne by done.
      split; [done|]. split; [done|]. split; [done|]. split; [done|].
      split; [by apply Hlists | by apply Harts].
  - intros tid1 tid2 r1 r2 T1 T2 Hr1 Hr2 HT1 HT2 Heq.
    assert (∀ r' T', <[r := TaskObj Tn]> h !! r' = Some (TaskObj T') →
              ∃ T0, h !! r' = Some (TaskObj T0) ∧ history T0 = history T') as Hback.
    { intros r' T' Hl. destruct (decide (r = r')) as [<-|Hne].
      - rewrite lookup_insert_eq in Hl. injection Hl as <-. by exists T.
      - rewrite lookup_insert_ne in Hl by done. by exists T'. }
    destruct (Hback _ _ HT1) as (T1' & HT1' & Hh1).
    destruct (Hback _ _ HT2) as (T2' & HT2' & Hh2).
    apply (histories_apart _ _ Hc tid1 tid2 r1 r2 T1' T2'); auto. congruence.
Qed.

Lemma consistent_add_artifact calls manager (h : heap) tid x r h' :
  consistent calls (manager, h) →
  tasks manager !! tid = Some r →
  add_artifact r x h = Some h' →
  consistent (calls ++ [AddArtifact tid x]) (manager, h').
Proof.
  intros Hc Hr Hadd.
  destruct (consistent_lookup _ _ _ _ _ Hc Hr) as (sid & T & a & Hin & HT & Hid & Hsid & Hh & Ha).
  rewrite (add_artifact_spec h r T a x HT Ha) in Hadd. injection Hadd as <-.
  assert (created (calls ++ [AddArtifact tid x]) = created calls) as Hcr.
  { rewrite created_app. simpl. by rewrite app_nil_r. }
  assert (∀ tid', messages_of (calls ++ [AddArtifact tid x]) tid'
                  = messages_of calls tid') as Hmsgs.
  { intros tid'. rewrite messages_of_app. simpl. by rewrite app_nil_r. }
  assert (∀ r' o, h !! r' = Some o → (∀ l, o ≠ Artifacts l) →
            <[artifacts T := Artifacts (a ++ [x])]> h !! r' = Some o) as Hother.
  { intros r' o Ho Hkind. rewrite lookup_insert_ne; [done|].
    intros <-. rewrite Ha in Ho. injection Ho as <-. by destruct (Hkind a). }
  split; simpl; rewrite ?Hcr.
  - apply (fresh_ids _ _ Hc).
  - apply (sessions_ok _ _ Hc).
  - intros tid' Hnotin. rewrite Hmsgs. apply (tasks_dom _ _ Hc tid' Hnotin).
  - intros tid' s Hin'.
    destruct (tasks_ok _ _ Hc _ _ Hin') as (r' & T' & a' & Hr' & HT' & Hid' & Hsid' & Hh' & Ha').
    simpl in Hr', HT', Hh', Ha'. unfold holds_task. rewrite Hmsgs.
    destruct (decide (artifacts T = artifacts T')) as [Heq|Hne].
    + exists r', T', (a ++ [x]). simpl.
      split; [done|]. split; [by apply Hother|]. split; [done|]. split; [done|].
      split; [by apply Hother|]. by rewrite <- Heq, lookup_insert_eq.
    + exists r', T', a'. simpl.
      split; [done|]. split; [by apply Hother|]. split; [done|]. split; [done|].
      split; [by apply Hother|]. by rewrite lookup_insert_ne.
  - intros tid1 tid2 r1 r2 T1 T2 Hr1 Hr2 HT1 HT2.
    assert (∀ r' T', <[artifacts T := Artifacts (a ++ [x])]> h !! r'
                     = Some (TaskObj T') → h !! r' = Some (TaskObj T')) as Hback.
    { intros r' T' Hl. destruct (decide (artifacts T = r')) as [<-|Hne].
      - by rewrite lookup_insert_eq in Hl.
      - by rewrite lookup_insert_ne in Hl. }
    apply (histories_apart _ _ Hc tid1 tid2 r1 r2 T1 T2); auto.
Qed.

(** One call keeps the manager and the heap consistent, given that a task
    id drawn for a new task is new. *)
Lemma consistent_step calls c w w' :
  consistent calls w →
  NoDup (created (calls ++ [c])).*1 →
  step c w = Some w' →
  consistent (calls ++ [c]) w'.
Proof.
  destruct w as [manager h]. intros Hc Hnd Hstep.
  destruct c as [us ut now sido md | tid m | tid st msg now | tid x]; simpl in Hstep.
  - destruct (create_task us ut now sido md manager h) as [[t manager'] h'] eqn:Hcreate.
    injection Hstep as <-. eapply consistent_create; [done | | done].
    rewrite created_app, fmap_app in Hnd. apply NoDup_app in Hnd as (_ & Hdisj & _).
    intros Hin. apply (Hdisj _ Hin). simpl. apply list_elem_of_singleton. done.
  - unfold get_task in Hstep.
    destruct (tasks manager !! tid) as [r|] eqn:Hr; simpl in Hstep; [|done].
    destruct (add_message r m h) as [h'|] eqn:Hadd; simpl in Hstep; [|done].
    injection Hstep as <-. by eapply consistent_add_message.
  - unfold get_task in Hstep.
    destruct (tasks manager !! tid) as [r|] eqn:Hr; simpl in Hstep; [|done].
    destruct (update_status r st msg now h) as [h'|] eqn:Hupd; simpl in Hstep; [|done].
    injection Hstep as <-. by eapply consistent_update_status.
  - unfold get_task in Hstep.
    destruct (tasks manager !! tid) as [r|] eqn:Hr; simpl in Hstep; [|done].
    destruct (add_artifact r x h) as [h'|] eqn:Hadd; simpl in Hstep; [|done].
    injection Hstep as <-. by eapply consistent_add_artifact.
Qed.

Lemma consistent_run calls2 :
  ∀ calls1 w w',
    consistent calls1 w →
    NoDup (created (calls1 ++ calls2)).*1 →
    run calls2 w = Some w' →
    consistent (calls1 ++ calls2) w'.
Proof.
  induction calls2 as [|c calls2 IH]; intros calls1 w w' Hc Hnd; simpl.
  - intros [= <-]. by rewrite app_nil_r.
  - destruct (step c w) as [w1|] eqn:Hstep; simpl; [|done]. intros Hrun.
    replace (calls1 ++ c :: calls2) with ((calls1 ++ [c]) ++ calls2) in *
      by (by rewrite <- app_assoc).
    apply (IH _ w1); [|done..].
    apply (consistent_step _ _ w); [done| |done].
    rewrite created_app, fmap_app in Hnd. by apply NoDup_app in Hnd as (Hnd & _).
Qed.

(** Every state the manager reaches from its initial one is consistent
    with the calls that led to it. *)
Lemma consistent_reached calls w :
  NoDup (created calls).*1 → run calls start = Some w → consistent calls w.
Proof. intros Hnd Hrun. apply (consistent_run calls [] start w consistent_start Hnd Hrun). Qed.

Lemma run_app calls1 calls2 w :
  run (calls1 ++ calls2) w = run calls1 w ≫= run calls2.
Proof.
  revert w. induction calls1 as [|c calls1 IH]; intros w; simpl; [done|].
  destruct (step c w) as [w1|]; simpl; [apply IH | done].
Qed.

(** A method call on a task that was created succeeds. *)
Lemma step_known calls w c tid :
  consistent calls w → target c = Some tid → tid ∈ (created calls).*1 →
  is_Some (step c w).
Proof.
  destruct w as [manager h]. intros Hc Htarget Hin.
  apply list_elem_of_fmap in Hin as ([tid' sid] & -> & Hin). simpl in *.
  destruct (tasks_ok _ _ Hc _ _ Hin) as (r & T & a & Hr & HT & Hid & Hsid & Hh & Ha).
  simpl in Hr, HT, Hh, Ha.
  destruct c as [us ut now sido md | tid m | tid st msg now | tid x];
    simpl in Htarget; [done|..]; injection Htarget as ->; simpl; unfold get_task;
    rewrite Hr; simpl.
  - by rewrite (add_message_spec h r T _ m HT Hh).
  - by rewrite (update_status_spec h r T st msg now HT).
  - by rewrite (add_artifact_spec h r T a x HT Ha).
Qed.

Lemma step_create_total us ut now sido md w :
  is_Some (step (CreateTask us ut now sido md) w).
Proof.
  destruct w as [manager h]. simpl.
  by destruct (create_task us ut now sido md manager h) as [[t manager'] h'].
Qed.

(** Fresh task ids and known targets: the calls run to the end, and the
    state they reach is consistent with them. *)
Lemma run_reaches calls :
  NoDup (created calls).*1 → well_targeted calls →
  ∃ w, run calls start = Some w ∧ consistent calls w.
Proof.
  induction calls as [|c calls IH] using rev_ind; intros Hnd Hwt.
  - exists start. split; [done | apply consistent_start].
  - destruct IH as (w & Hrun & Hc).
    { rewrite created_app, fmap_app in Hnd. by apply NoDup_app in Hnd as (Hnd & _). }
    { intros i c' tid Hi Htarget.
      pose proof (lookup_lt_Some _ _ _ Hi) as Hlt.
      specialize (Hwt i c' tid). rewrite lookup_app_l in Hwt by done.
      specialize (Hwt Hi Htarget). by rewrite take_app_le in Hwt by lia. }
    assert (is_Some (step c w)) as [w' Hstep].
    { destruct (target c) as [tid|] eqn:Htarget.
      - apply (step_known calls w c tid Hc Htarget).
        specialize (Hwt (length calls) c tid).
        rewrite lookup_app_r, Nat.sub_diag in Hwt by lia.
        specialize (Hwt eq_refl Htarget).
        by rewrite take_app_length in Hwt.
      - destruct c; try done. apply step_create_total. }
    exists w'. split.
    + rewrite run_app, Hrun. simpl. by rewrite Hstep.
    + by apply (consistent_step calls c w w').
Qed.

Lemma session_ids calls manager (h : heap) sid :
  consistent calls (manager, h) →
  default [] (sessions manager !! sid) = ids_in (created calls) sid.
Proof.
  intros Hc. pose proof (sessions_ok _ _ Hc sid) as Hs. simpl in Hs. rewrite Hs.
  by destruct (ids_in (created calls) sid).
Qed.

Lemma session_tasks_lookup calls manager (h : heap) ids :
  consistent calls (manager, h) →
  (∀ tid, tid ∈ ids → tid ∈ (created calls).*1) →
  Forall2 (fun tid r => tasks manager !! tid = Some r) ids
    (omap (fun tid => tasks manager !! tid) ids).
Proof.
  intros Hc. induction ids as [|tid ids IH]; intros Hall; simpl; [constructor|].
  assert (tid ∈ (created calls).*1) as Hin by (apply Hall; apply elem_of_cons; by left).
  apply list_elem_of_fmap in Hin as ([tid' sid] & -> & Hin).
  destruct (tasks_ok _ _ Hc _ _ Hin) as (r & T & a & Hr & _). simpl in Hr. simpl.
  rewrite Hr. constructor; [done|].
  apply IH. intros x Hx. apply Hall. apply elem_of_cons. by right.
Qed.

Lemma extend_all_histories calls manager (h : heap) ids :
  consistent calls (manager, h) →
  (∀ tid, tid ∈ ids → tid ∈ (created calls).*1) →
  ∀ all_messages,
    extend_all h (omap (fun tid => tasks manager !! tid) ids) all_messages
    = Some (all_messages ++ concat (messages_of calls <$> ids)).
Proof.
  intros Hc. induction ids as [|tid ids IH]; intros Hall all_messages; simpl.
  - by rewrite app_nil_r.
  - assert (tid ∈ (created calls).*1) as Hin by (apply Hall; apply elem_of_cons; by left).
    apply list_elem_of_fmap in Hin as ([tid' sid] & -> & Hin).
    destruct (tasks_ok _ _ Hc _ _ Hin) as (r & T & a & Hr & HT & Hid & Hsid & Hh & Ha).
    simpl in Hr, HT, Hh, Ha. simpl. rewrite Hr. simpl.
    apply task_at_Some in HT. apply messages_at_Some in Hh. rewrite HT. simpl.
    rewrite Hh. simpl. rewrite IH.
    + by rewrite <- app_assoc.
    + intros x Hx. apply Hall. apply elem_of_cons. by right.
Qed.

Lemma ids_in_created cr sid tid : tid ∈ ids_in cr sid → tid ∈ cr.*1.
Proof.
  intros Hin. apply elem_of_ids_in in Hin. apply list_elem_of_fmap. by exists (tid, sid).
Qed.

Lemma get_session_context_histories calls manager (h : heap) sid max_messages :
  consistent calls (manager, h) →
  get_session_context manager sid max_messages h
  = Some (trailing max_messages
            (concat (messages_of calls <$> ids_in (created calls) sid))).
Proof.
  intros Hc. unfold get_session_context, get_session_tasks.
  rewrite (session_ids calls manager h sid Hc).
  rewrite (extend_all_histories calls manager h _ Hc); [done|].
  intros tid. apply ids_in_created.
Qed.

Lemma NoDup_fst_unique {A B} (l : list (A * B)) x y1 y2 :
  NoDup l.*1 → (x, y1) ∈ l → (x, y2) ∈ l → y1 = y2.
Proof.
  induction l as [|[x' y'] l IH]; simpl; intros Hnd H1 H2.
  - by apply elem_of_nil in H1.
  - apply NoDup_cons in Hnd as [Hnotin Hnd].
    apply elem_of_cons in H1 as [H1|H1]; apply elem_of_cons in H2 as [H2|H2].
    + congruence.
    + injection H1 as <- <-. destruct Hnotin. apply list_elem_of_fmap. by exists (x, y2).
    + injection H2 as <- <-. destruct Hnotin. apply list_elem_of_fmap. by exists (x, y1).
    + by apply IH.
Qed.

Lemma session_lookup calls manager (h : heap) sid ids :
  consistent calls (manager, h) →
  sessions manager !! sid = Some ids → ids = ids_in (created calls) sid.
Proof.
  intros Hc Hs. pose proof (sessions_ok _ _ Hc sid) as Hok. simpl in Hok.
  rewrite Hs in Hok. destruct (ids_in (created calls) sid); congruence.
Qed.

Lemma ids_in_unseen cr sid : sid ∉ cr.*2 → ids_in cr sid = [].
Proof.
  intros Hnotin. destruct (ids_in cr sid) as [|tid ids] eqn:Hids; [done|].
  assert (tid ∈ ids_in cr sid) as Hin by (rewrite Hids; apply elem_of_cons; by left).
  apply elem_of_ids_in in Hin. destruct Hnotin.
  apply list_elem_of_fmap. by exists (tid, sid).
Qed.

(** C10. The indexing invariant of the manager. Take any sequence of
    [create_task] calls, with method calls on created tasks in between or
    not, in which the task ids drawn from [uuid4] are pairwise distinct. The
    calls run to the end, and then (1) every task id in a session's list is a
    key of [tasks] whose task has that id and that session id; (2) a task id
    is in the list of one session only, and once; (3) [get_session_tasks]
    returns the tasks stored under the ids created in that session, in
    creation order; (4) for a session id that no task was created in it
    returns the empty list. *)
Theorem manager_indexing_invariant :
  ∀ calls, NoDup (created calls).*1 → well_targeted calls →
    ∃ manager (h : heap), run calls start = Some (manager, h) ∧
      (∀ sid ids tid, sessions manager !! sid = Some ids → tid ∈ ids →
         ∃ r T, tasks manager !! tid = Some r ∧ h !! r = Some (TaskObj T) ∧
           id T = tid ∧ session_id T = sid) ∧
      (∀ sid sid' ids ids' tid,
         sessions manager !! sid = Some ids → sessions manager !! sid' = Some ids' →
         tid ∈ ids → tid ∈ ids' → sid = sid') ∧
      (∀ sid ids, sessions manager !! sid = Some ids → NoDup ids) ∧
      (∀ sid, Forall2 (fun tid r => tasks manager !! tid = Some r)
                (ids_in (created calls) sid) (get_session_tasks manager sid)) ∧
      (∀ sid, sid ∉ (created calls).*2 → get_session_tasks manager sid = []).
Proof.
  intros calls Hnd Hwt.
  destruct (run_reaches calls Hnd Hwt) as ([manager h] & Hrun & Hc).
  exists manager, h. split; [done|]. split; [|split; [|split; [|split]]].
  - intros sid ids tid Hs Hin. rewrite (session_lookup _ _ _ _ _ Hc Hs) in Hin.
    apply elem_of_ids_in in Hin.
    destruct (tasks_ok _ _ Hc _ _ Hin) as (r & T & a & Hr & HT & Hid & Hsid & _).
    by exists r, T.
  - intros sid sid' ids ids' tid Hs Hs' Hin Hin'.
    rewrite (session_lookup _ _ _ _ _ Hc Hs) in Hin.
    rewrite (session_lookup _ _ _ _ _ Hc Hs') in Hin'.
    apply elem_of_ids_in in Hin, Hin'.
    by apply (NoDup_fst_unique (created calls) tid).
  - intros sid ids Hs. rewrite (session_lookup _ _ _ _ _ Hc Hs). by apply ids_in_NoDup.
  - intros sid. unfold get_session_tasks. rewrite (session_ids calls manager h sid Hc).
    apply (session_tasks_lookup calls manager h _ Hc). intros tid. apply ids_in_created.
  - intros sid Hunseen. unfold get_session_tasks.
    rewrite (session_ids calls manager h sid Hc). by rewrite ids_in_unseen.
Qed.

(** C8, as amended. Take any sequence of calls with pairwise distinct task
    ids. Then [get_session_context(session_id, max)] is the concatenation of
    the histories of the tasks created in that session, in creation order,
    cut to its trailing entries by the truncation that [get_context] applies.
    In particular two tasks created with the same explicit session id that is
    not the empty string, and given two messages each, yield all four
    messages in task-creation order. *)
Theorem get_session_context_aggregates :
  (∀ calls sid max_messages,
     NoDup (created calls).*1 → well_targeted calls →
     ∃ manager (h : heap), run calls start = Some (manager, h) ∧
       get_session_context manager sid max_messages h
       = Some (trailing max_messages
                 (concat (messages_of calls <$> ids_in (created calls) sid))) ∧
       ∀ tid r T, tasks manager !! tid = Some r → h !! r = Some (TaskObj T) →
         ∃ r' h', get_context r max_messages h = Some (r', h') ∧
           h' !! r' = Some (Messages (trailing max_messages (messages_of calls tid)))) ∧
  (∀ sid us1 us2 u1 u2 now1 now2 md1 md2 a b c d,
     sid ≠ "" → u1 ≠ u2 →
     ∃ manager (h : heap),
       run [CreateTask us1 u1 now1 (Some sid) md1; CreateTask us2 u2 now2 (Some sid) md2;
            AddMessage u1 a; AddMessage u1 b; AddMessage u2 c; AddMessage u2 d] start
       = Some (manager, h) ∧
       get_session_context manager sid None h = Some [a; b; c; d]).
Proof.
  split.
  - intros calls sid max_messages Hnd Hwt.
    destruct (run_reaches calls Hnd Hwt) as ([manager h] & Hrun & Hc).
    exists manager, h. split; [done|].
    split; [by apply get_session_context_histories|].
    intros tid r T Hr HT.
    destruct (consistent_lookup _ _ _ _ _ Hc Hr) as (s & T0 & a & _ & HT0 & _ & _ & Hh & _).
    assert (T0 = T) as -> by congruence.
    destruct (get_context_spec h r T _ max_messages HT Hh) as (r' & Hget & _).
    eexists r', _. split; [exact Hget|]. by rewrite lookup_insert_eq.
  - intros sid us1 us2 u1 u2 now1 now2 md1 md2 a b c d Hsid Hu.
    set (calls := [CreateTask us1 u1 now1 (Some sid) md1;
                   CreateTask us2 u2 now2 (Some sid) md2;
                   AddMessage u1 a; AddMessage u1 b; AddMessage u2 c; AddMessage u2 d]).
    assert (String.eqb sid "" = false) as Hne by (by apply String.eqb_neq).
    assert (created calls = [(u1, sid); (u2, sid)]) as Hcr.
    { unfold calls, created. simpl. by rewrite Hne. }
    assert (NoDup (created calls).*1) as Hnd.
    { rewrite Hcr. simpl. apply NoDup_cons. split; [|apply NoDup_singleton].
      intros Hin. apply list_elem_of_singleton in Hin. done. }
    assert (well_targeted calls) as Hwt.
    { intros i x tid Hi Htarget.
      assert (∀ n, 2 ≤ n → created (take n calls) = [(u1, sid); (u2, sid)]) as Htake.
      { intros n Hn. do 2 (destruct n as [|n]; [lia|]).
        do 4 (destruct n as [|n]; [unfold created; simpl; by rewrite Hne|]).
        unfold created. simpl. rewrite Hne. by destruct n. }
      do 6 (destruct i as [|i]; [simpl in Hi; injection Hi as <-; simpl in Htarget;
                                 try done; injection Htarget as <-;
                                 rewrite Htake by lia; simpl; set_solver|]).
      done. }
    destruct (run_reaches calls Hnd Hwt) as ([manager h] & Hrun & Hc).
    exists manager, h. split; [done|].
    rewrite (get_session_context_histories calls manager h sid None Hc), Hcr.
    assert (String.eqb u1 u2 = false) as H12 by (by apply String.eqb_neq).
    assert (String.eqb u2 u1 = false) as H21 by (by apply String.eqb_neq).
    assert (ids_in [(u1, sid); (u2, sid)] sid = [u1; u2]) as ->.
    { unfold ids_in. simpl. by rewrite String.eqb_refl. }
    assert (messages_of calls u1 = [a; b]) as Hm1.
    { unfold messages_of, calls. simpl. by rewrite String.eqb_refl, H21. }
    assert (messages_of calls u2 = [c; d]) as Hm2.
    { unfold messages_of, calls. simpl. by rewrite String.eqb_refl, H12. }
    rewrite !fmap_cons, Hm1, Hm2. done.
Qed.

End ManagerFacts.

(** ** The task properties at concrete inputs *)

Section TaskInstances.
Import TaskContext.

Lemma task_lifecycle_frame_witness :
  ∃ h1 r h2,
    update_status task1 COMPLETED None "2024-01-01T00:05:00" talk_heap = Some h1 ∧
    get_context task1 None h1 = Some (r, h2) ∧
    h2 !! r = Some (Messages [msg1; msg2]).
Proof.
  destruct task_lifecycle_frame as (_ & _ & _ & Hcontext & _ & _).
  apply (Hcontext talk_heap task1 task1_obj [msg1; msg2] COMPLETED None
           "2024-01-01T00:05:00"); reflexivity.
Defined.

Lemma get_context_recent_copy_witness :
  ∃ r h' out,
    get_context task1 (Some 1%Z) talk_heap = Some (r, h') ∧
    h' !! r = Some (Messages out) ∧
    (∀ l', <[r := Messages l']> h' !! history task1_obj = Some (Messages [msg1; msg2])) ∧
    out = [msg2].
Proof.
  destruct (get_context_recent_copy talk_heap task1 task1_obj [msg1; msg2] (Some 1%Z)
              eq_refl eq_refl)
    as (r & h' & out & Hget & _ & Hr & _ & Hcopy & Hrecent & _).
  exists r, h', out. split; [exact Hget|]. split; [exact Hr|]. split; [exact Hcopy|].
  apply Hrecent. reflexivity.
Defined.

(** C7. [get_context(0)] on a task with two messages returns the whole
    history, where the claim, as the docstring of the method ("Limit to N most
    recent messages"), promises the most recent 0 entries, which are none:
    the guard [if max_messages:] takes 0 for no limit. *)
Lemma get_context_zero_returns_all :
  ∃ r h',
    get_context task1 (Some 0%Z) talk_heap = Some (r, h') ∧
    h' !! r = Some (Messages [msg1; msg2]) ∧
    most_recent 0 [msg1; msg2] = [] ∧
    [msg1; msg2] ≠ most_recent 0 [msg1; msg2].
Proof.
  eexists _, _. split; [reflexivity|]. split; [reflexivity|].
  split; [reflexivity|]. intros Heq. discriminate Heq.
Qed.

Lemma two_tasks_fresh : NoDup (created (two_tasks "sess-1")).*1.
Proof. apply (bool_decide_unpack _). reflexivity. Qed.

Lemma two_tasks_well_targeted : well_targeted (two_tasks "sess-1").
Proof.
  intros i c tid Hi Htarget.
  do 6 (destruct i as [|i];
        [simpl in Hi; injection Hi as <-; simpl in Htarget; try done;
         injection Htarget as <-; apply (bool_decide_unpack _); reflexivity|]).
  done.
Qed.

Lemma get_session_context_aggregates_witness :
  ∃ manager (h : heap),
    run (two_tasks "sess-1") start = Some (manager, h) ∧
    get_session_context manager "sess-1" None h = Some [msg1; msg2; msg3; msg4].
Proof.
  apply (proj2 get_session_context_aggregates "sess-1" "uuid-s1" "uuid-s2"
           "task-1" "task-2" "2024-01-01T00:00:00" "2024-01-01T00:00:01" None None
           msg1 msg2 msg3 msg4); done.
Defined.

(** C8 as stated fails for the explicit session id "": [create_task] takes
    the empty string for no session id and draws a new one for each task, so
    the session "" has no task and its context is empty. *)
Lemma empty_session_id_is_not_shared :
  ∃ manager (h : heap),
    run (two_tasks "") start = Some (manager, h) ∧
    get_session_context manager "" None h = Some [] ∧
    get_session_context manager "" None h ≠ Some [msg1; msg2; msg3; msg4].
Proof.
  exists (default start (run (two_tasks "") start)).1,
         (default start (run (two_tasks "") start)).2.
  split; [vm_compute; reflexivity|].
  assert (get_session_context
            (default start (run (two_tasks "") start)).1 "" None
            (default start (run (two_tasks "") start)).2 = Some []) as H
    by (vm_compute; reflexivity).
  split; [exact H|]. intros Heq. rewrite H in Heq. discriminate Heq.
Qed.

Lemma manager_indexing_invariant_witness :
  ∃ manager (h : heap),
    run (two_tasks "sess-1") start = Some (manager, h) ∧
    (∀ sid ids tid, sessions manager !! sid = Some ids → tid ∈ ids →
       ∃ r T, tasks manager !! tid = Some r ∧ h !! r = Some (TaskObj T) ∧
         id T = tid ∧ session_id T = sid) ∧
    (∀ sid ids, sessions manager !! sid = Some ids → NoDup ids) ∧
    get_session_tasks manager "sess-9" = [].
Proof.
  destruct (manager_indexing_invariant (two_tasks "sess-1")
              two_tasks_fresh two_tasks_well_targeted)
    as (manager & h & Hrun & Hkeys & _ & Hnodup & _ & Hunseen).
  exists manager, h. split; [exact Hrun|]. split; [exact Hkeys|]. split; [exact Hnodup|].
  apply Hunseen. apply (bool_decide_unpack _). reflexivity.
Defined.

End TaskInstances.

(** * Further properties

    ** Registration and statistics *)

Section RegistryFacts.
Context {Msg : Type}.
Variable receiver : Msg → AgentRole.
Variable prints : Bus.line Msg → bool.

(** X1. Registering a handler for a role that has one replaces it: the
    role then maps to the new handler, the other roles keep theirs, the number
    of registered agents is what it was after the first registration, the
    history is untouched, and an envelope sent to the role is answered by the
    new handler. *)
Theorem register_agent_overwrites :
  ∀ (bus : Bus.MessageBus Msg) role h1 h2,
    let bus1 := Bus.register_agent prints role h1 bus in
    let bus2 := Bus.register_agent prints role h2 bus1 in
    Bus.agent_handlers bus2 !! role = Some h2 ∧
    (∀ role', role' ≠ role →
       Bus.agent_handlers bus2 !! role' = Bus.agent_handlers bus !! role') ∧
    size (Bus.agent_handlers bus2) = size (Bus.agent_handlers bus1) ∧
    Bus.message_history bus2 = Bus.message_history bus ∧
    (∀ fuel m response, receiver m = role → h2 m = Bus.Return response →
       ∃ bus', Bus.send_message receiver prints (S fuel) bus2 m = Some (bus', Ok response) ∧
         Bus.message_history bus' =
           Bus.message_history bus ++ m :: option_list response).
Proof.
  intros bus role h1 h2 bus1 bus2.
  assert (Bus.agent_handlers bus2 = <[role := h2]> (Bus.agent_handlers bus)) as Hh.
  { unfold bus2, bus1, Bus.register_agent.
    repeat first [rewrite say_handlers | progress simpl]. apply insert_insert_eq. }
  assert (Bus.message_history bus2 = Bus.message_history bus) as Hm.
  { unfold bus2, bus1, Bus.register_agent.
    by repeat first [rewrite say_history | progress simpl]. }
  split; [by rewrite Hh, lookup_insert_eq|].
  split; [intros role' Hne; by rewrite Hh, lookup_insert_ne|].
  split.
  { rewrite Hh. unfold bus1, Bus.register_agent.
    repeat first [rewrite say_handlers | progress simpl].
    destruct (Bus.agent_handlers bus !! role) as [h0|] eqn:Hold.
    - by rewrite !map_size_insert_Some by (by rewrite Hold).
    - by rewrite !map_size_insert_None by done. }
  split; [exact Hm|].
  intros fuel m response Hrole Hret.
  destruct (send_message_returns receiver prints fuel bus2 m h2 response)
    as (bus' & Hsend & _ & Hhist & _); [by rewrite Hh, Hrole, lookup_insert_eq | done |].
  exists bus'. split; [exact Hsend|]. by rewrite Hhist, Hm.
Qed.

End RegistryFacts.

Section LegacyStatisticsFacts.
Import LegacyStatistics.

Lemma count_type_cons m history t :
  count_type (m :: history) t
  = (if bool_decide (Legacy.message_type m = t) then 1 else 0) + count_type history t.
Proof. unfold count_type. simpl. by destruct (bool_decide _). Qed.

Lemma count_type_all history :
  count_type history Legacy.REQUEST + count_type history Legacy.RESPONSE
  + count_type history Legacy.NOTIFICATION + count_type history Legacy.ERROR
  = length history.
Proof.
  induction history as [|m history IH]; [done|].
  rewrite !count_type_cons. destruct m as [s r t c mid ts irt]. simpl length.
  destruct t; simpl Legacy.message_type; repeat case_bool_decide; try done; lia.
Qed.

(** X2. The legacy [get_statistics]: "message_types" always has the four
    message types as keys, each with the number of history entries of that
    type, zero included, and those four counts add up to "total_messages". *)
Theorem legacy_statistics_partition :
  ∀ bus : LegacyBus.MessageBus,
    (∀ t, message_types bus !! Legacy.MessageType_value t
          = Some (count_type (Bus.message_history bus) t)) ∧
    (∀ key, is_Some (message_types bus !! key) ↔
            ∃ t, key = Legacy.MessageType_value t) ∧
    sum_list (count_type (Bus.message_history bus) <$> MessageType_members)
    = total_messages bus.
Proof.
  intros bus. split; [|split].
  - intros t. unfold message_types. simpl. by destruct t.
  - intros key. unfold message_types. simpl. split.
    + intros [n Hn].
      destruct (decide (key = "request")) as [->|?]; [by exists Legacy.REQUEST|].
      destruct (decide (key = "response")) as [->|?]; [by exists Legacy.RESPONSE|].
      destruct (decide (key = "notification")) as [->|?]; [by exists Legacy.NOTIFICATION|].
      destruct (decide (key = "error")) as [->|?]; [by exists Legacy.ERROR|].
      by rewrite !lookup_insert_ne, lookup_empty in Hn.
    + intros [t ->]. by destruct t.
  - unfold total_messages. pose proof (count_type_all (Bus.message_history bus)).
    simpl. lia.
Qed.

End LegacyStatisticsFacts.

Section StandardStatisticsFacts.
Import StandardStatistics.

Lemma sum_counts_insert_new (counts : gmap key nat) k n :
  counts !! k = None → sum_counts (<[k := n]> counts) = n + sum_counts counts.
Proof.
  intros Hk. unfold sum_counts. by rewrite map_to_list_insert by done.
Qed.

Lemma sum_counts_insert (counts : gmap key nat) k n :
  sum_counts (<[k := n]> counts) + default 0 (counts !! k) = sum_counts counts + n.
Proof.
  destruct (counts !! k) as [n0|] eqn:Hk; simpl.
  - assert (counts = <[k := n0]> (delete k counts)) as Hsplit
      by (by rewrite insert_delete_eq, insert_id).
    rewrite Hsplit at 2. rewrite <- (insert_delete_eq counts k n).
    rewrite !sum_counts_insert_new by apply lookup_delete_eq. lia.
  - rewrite sum_counts_insert_new by done. lia.
Qed.

Lemma count_roles_sum history :
  ∀ acc counts, count_roles history acc = Ok counts →
    sum_counts counts = sum_counts acc + length history.
Proof.
  induction history as [|m history IH]; intros acc counts; simpl.
  - intros [= <-]. lia.
  - destruct (hash_key _) as [k|e]; simpl; [|done]. intros Hrun.
    rewrite (IH _ _ Hrun).
    pose proof (sum_counts_insert acc k (default 0 (acc !! k) + 1)). lia.
Qed.

Lemma count_roles_total history :
  (∀ m, m ∈ history → ∃ k, hash_key (Standard.role (Standard.message m)) = Ok k) →
  ∀ acc, ∃ counts, count_roles history acc = Ok counts.
Proof.
  induction history as [|m history IH]; intros Hall acc; simpl; [by eexists|].
  destruct (Hall m) as [k ->]; [apply elem_of_cons; by left|]. simpl.
  apply IH. intros m' Hm'. apply Hall. apply elem_of_cons. by right.
Qed.

Lemma count_roles_raises history :
  ∀ m e, m ∈ history → hash_key (Standard.role (Standard.message m)) = Raise e →
    ∀ acc, ∃ e', count_roles history acc = Raise e'.
Proof.
  induction history as [|m0 history IH]; intros m e Hin He acc; simpl.
  - by apply elem_of_nil in Hin.
  - destruct (hash_key (Standard.role (Standard.message m0))) as [k|e0] eqn:Hk; simpl;
      [|by eexists].
    apply elem_of_cons in Hin as [->|Hin]; [congruence|]. by apply (IH m e).
Qed.

Lemma count_roles_keys history :
  ∀ acc counts, count_roles history acc = Ok counts →
    ∀ k n, counts !! k = Some n →
      acc !! k = Some n ∨
      (0 < n ∧ ∃ m, m ∈ history ∧ hash_key (Standard.role (Standard.message m)) = Ok k).
Proof.
  induction history as [|m history IH]; intros acc counts; simpl.
  - intros [= <-] k n Hk. by left.
  - destruct (hash_key _) as [k0|e] eqn:Hk0; simpl; [|done]. intros Hrun k n Hk.
    destruct (IH _ _ Hrun k n Hk) as [Hacc | (Hpos & m' & Hin & Hm')].
    + destruct (decide (k0 = k)) as [->|Hne].
      * rewrite lookup_insert_eq in Hacc. injection Hacc as <-. right.
        split; [lia|]. exists m. split; [apply elem_of_cons; by left | done].
      * rewrite lookup_insert_ne in Hacc by done. by left.
    + right. split; [done|]. exists m'. split; [apply elem_of_cons; by right | done].
Qed.

(** X3. The standard [get_statistics]. When every role in the history is
    hashable (a string, as the constructors give, a number or [None]),
    "message_roles" holds only roles that occur, each with a positive count,
    and the counts add up to "total_messages". When some envelope carries a
    list or a dict as its role, [get_statistics] raises instead. *)
Theorem standard_statistics_roles :
  ∀ bus : StandardBus.MessageBus,
    ((∀ m, m ∈ Bus.message_history bus →
        ∃ k, hash_key (Standard.role (Standard.message m)) = Ok k) →
     ∃ counts, message_roles bus = Ok counts ∧
       sum_counts counts = total_messages bus ∧
       ∀ k n, counts !! k = Some n →
         0 < n ∧ ∃ m, m ∈ Bus.message_history bus ∧
                  hash_key (Standard.role (Standard.message m)) = Ok k) ∧
    (∀ m e, m ∈ Bus.message_history bus →
       hash_key (Standard.role (Standard.message m)) = Raise e →
       ∃ e', message_roles bus = Raise e').
Proof.
  intros bus. split.
  - intros Hall. unfold message_roles, total_messages.
    destruct (count_roles_total _ Hall ∅) as [counts Hcounts].
    exists counts. split; [done|]. split.
    + rewrite (count_roles_sum _ _ _ Hcounts). unfold sum_counts.
      by rewrite map_to_list_empty.
    + intros k n Hk.
      destruct (count_roles_keys _ _ _ Hcounts k n Hk) as [Hempty|H]; [|done].
      by rewrite lookup_empty in Hempty.
  - intros m e Hin He. by apply (count_roles_raises _ m e).
Qed.

End StandardStatisticsFacts.

(** ** More on the codecs *)

Section CodecFacts.

Lemma AgentRole_value_inj r1 r2 : AgentRole_value r1 = AgentRole_value r2 → r1 = r2.
Proof. by destruct r1, r2. Qed.

Lemma MessageType_value_inj t1 t2 :
  Legacy.MessageType_value t1 = Legacy.MessageType_value t2 → t1 = t2.
Proof. by destruct t1, t2. Qed.

Lemma of_opt_str_inj o1 o2 : of_opt_str o1 = of_opt_str o2 → o1 = o2.
Proof. destruct o1, o2; simpl; congruence. Qed.

Lemma legacy_to_dict_inj (m1 m2 : Legacy.A2AMessage) :
  Legacy.to_dict m1 = Legacy.to_dict m2 → m1 = m2.
Proof.
  intros Heq. pose proof (legacy_from_dict_to_dict m1) as H1.
  rewrite Heq, legacy_from_dict_to_dict in H1. congruence.
Qed.

Lemma standard_to_dict_inj (m1 m2 : Standard.A2AMessage) :
  forallb Standard.part_ok (Standard.parts m1) = true →
  forallb Standard.part_ok (Standard.parts m2) = true →
  Standard.to_dict m1 = Standard.to_dict m2 → m1 = m2.
Proof.
  intros Hok1 Hok2 Heq. pose proof (standard_from_dict_to_dict m1 Hok1) as H1.
  rewrite Heq, (standard_from_dict_to_dict m2 Hok2) in H1. congruence.
Qed.

(** X4. Serialization loses nothing, on the messages that [from_dict]
    gives back. Two legacy envelopes with the same [to_dict] are equal. Two
    standard messages with the same [to_dict] are equal when every Part of
    both carries a type tag of its own kind and every optional field of their
    file Parts is [None] or not empty; and so are two routed envelopes
    ([AgentMessage], which has [to_dict] and no [from_dict]) around such
    messages. The condition on the file Parts is needed: [FilePart.to_dict]
    leaves out an empty field as it leaves out [None], so a file Part with the
    uri "" and one with no uri have the same [to_dict]. *)
Theorem to_dict_injective :
  (∀ m1 m2 : Legacy.A2AMessage, Legacy.to_dict m1 = Legacy.to_dict m2 → m1 = m2) ∧
  (∀ m1 m2 : Standard.A2AMessage,
     forallb Standard.part_ok (Standard.parts m1) = true →
     forallb Standard.part_ok (Standard.parts m2) = true →
     Standard.to_dict m1 = Standard.to_dict m2 → m1 = m2) ∧
  (∀ e1 e2 : Standard.AgentMessage,
     forallb Standard.part_ok (Standard.parts (Standard.message e1)) = true →
     forallb Standard.part_ok (Standard.parts (Standard.message e2)) = true →
     Standard.AgentMessage_to_dict e1 = Standard.AgentMessage_to_dict e2 → e1 = e2) ∧
  (∀ role metadata type data filename,
     let with_uri uri :=
       {| Standard.role := role;
          Standard.parts := [Standard.FilePart type uri data filename];
          Standard.metadata := metadata |} in
     Standard.to_dict (with_uri (PyStr "")) = Standard.to_dict (with_uri PyNone) ∧
     with_uri (PyStr "") ≠ with_uri PyNone).
Proof.
  split; [exact legacy_to_dict_inj|]. split; [exact standard_to_dict_inj|].
  split; [|by intros role metadata type data filename with_uri].
  intros [m1 s1 r1 id1 ts1 irt1] [m2 s2 r2 id2 ts2 irt2]; simpl. intros Hok1 Hok2 Heq.
  assert (∀ key, Standard.AgentMessage_to_dict
                   {| Standard.message := m1; Standard.sender := s1;
                      Standard.receiver := r1; Standard.message_id := id1;
                      Standard.timestamp := ts1; Standard.in_reply_to := irt1 |} !! key
                 = Standard.AgentMessage_to_dict
                   {| Standard.message := m2; Standard.sender := s2;
                      Standard.receiver := r2; Standard.message_id := id2;
                      Standard.timestamp := ts2; Standard.in_reply_to := irt2 |} !! key)
    as Hkeys by (by rewrite Heq).
  unfold Standard.AgentMessage_to_dict in Hkeys. simpl in Hkeys.
  pose proof (Hkeys "message") as Hm. pose proof (Hkeys "sender") as Hs.
  pose proof (Hkeys "receiver") as Hr. pose proof (Hkeys "message_id") as Hid.
  pose proof (Hkeys "timestamp") as Hts. pose proof (Hkeys "in_reply_to") as Hirt.
  clear Hkeys Heq.
  repeat first [ rewrite lookup_insert_eq in Hm | rewrite lookup_insert_ne in Hm by done ].
  repeat first [ rewrite lookup_insert_eq in Hs | rewrite lookup_insert_ne in Hs by done ].
  repeat first [ rewrite lookup_insert_eq in Hr | rewrite lookup_insert_ne in Hr by done ].
  repeat first [ rewrite lookup_insert_eq in Hid | rewrite lookup_insert_ne in Hid by done ].
  repeat first [ rewrite lookup_insert_eq in Hts | rewrite lookup_insert_ne in Hts by done ].
  repeat first [ rewrite lookup_insert_eq in Hirt | rewrite lookup_insert_ne in Hirt by done ].
  assert (Standard.to_dict m1 = Standard.to_dict m2) as Hm' by congruence.
  injection Hs as Hs. injection Hr as Hr.
  injection Hid as ->. injection Hts as ->. injection Hirt as Hirt.
  apply (standard_to_dict_inj m1 m2 Hok1 Hok2) in Hm' as ->.
  apply AgentRole_value_inj in Hs as ->. apply AgentRole_value_inj in Hr as ->.
  by apply of_opt_str_inj in Hirt as ->.
Qed.

(** The legacy [from_dict] once the three enumerated fields are in order. *)
Lemma legacy_from_dict_args_tail (data : dict) s r t :
  (getitem data "sender" ≫= AgentRole_call) = Ok s →
  (getitem data "receiver" ≫= AgentRole_call) = Ok r →
  (getitem data "message_type" ≫= Legacy.MessageType_call) = Ok t →
  Legacy.from_dict_args data =
    (content ← getitem data "content";
     message_id ← getitem data "message_id";
     timestamp ← getitem data "timestamp";
     Ok (s, r, t, content, message_id, timestamp, get data "in_reply_to")).
Proof.
  intros Hs Hr Ht. unfold Legacy.from_dict_args.
  destruct (getitem data "sender") as [vs|]; simpl in *; [|done]. rewrite Hs; simpl.
  destruct (getitem data "receiver") as [vr|]; simpl in *; [|done]. rewrite Hr; simpl.
  destruct (getitem data "message_type") as [vt|]; simpl in *; [|done]. by rewrite Ht.
Qed.

(** X5. The legacy [from_dict] beyond its tags. With [sender], [receiver]
    and [message_type] in order: the first of "content", "message_id" and
    "timestamp" that is absent is the key of the [KeyError]; "in_reply_to" is
    optional, and absent it decodes as [None]; and a key that [from_dict] does
    not read changes nothing. *)
Theorem legacy_from_dict_fields :
  (∀ (data : dict) s r t,
     (getitem data "sender" ≫= AgentRole_call) = Ok s →
     (getitem data "receiver" ≫= AgentRole_call) = Ok r →
     (getitem data "message_type" ≫= Legacy.MessageType_call) = Ok t →
     (data !! "content" = None → Legacy.from_dict data = Failed (KeyError "content")) ∧
     (∀ c, data !! "content" = Some c → data !! "message_id" = None →
        Legacy.from_dict data = Failed (KeyError "message_id")) ∧
     (∀ c mid, data !! "content" = Some c → data !! "message_id" = Some mid →
        data !! "timestamp" = None →
        Legacy.from_dict data = Failed (KeyError "timestamp")) ∧
     (∀ c mid ts, data !! "content" = Some c → data !! "message_id" = Some (PyStr mid) →
        data !! "timestamp" = Some (PyStr ts) → data !! "in_reply_to" = None →
        Legacy.from_dict data
        = Decoded {| Legacy.sender := s; Legacy.receiver := r; Legacy.message_type := t;
                     Legacy.content := c; Legacy.message_id := mid;
                     Legacy.timestamp := ts; Legacy.in_reply_to := None |})) ∧
  (∀ (data : dict) key v,
     key ∉ ["sender"; "receiver"; "message_type"; "content"; "message_id";
            "timestamp"; "in_reply_to"] →
     Legacy.from_dict (<[key := v]> data) = Legacy.from_dict data).
Proof.
  split.
  - intros data s r t Hs Hr Ht.
    pose proof (legacy_from_dict_args_tail data s r t Hs Hr Ht) as Hargs.
    unfold Legacy.from_dict. rewrite Hargs. unfold getitem, get.
    split; [by intros ->|]. split; [by intros c -> ->|].
    split; [by intros c mid -> -> ->|]. by intros c mid ts -> -> -> ->.
  - intros data key v Hkey.
    assert (∀ k, k ∈ ["sender"; "receiver"; "message_type"; "content"; "message_id";
                      "timestamp"; "in_reply_to"] →
                 <[key := v]> data !! k = data !! k) as Hsame.
    { intros k Hk. apply lookup_insert_ne. by intros ->. }
    unfold Legacy.from_dict, Legacy.from_dict_args, getitem, get.
    rewrite !Hsame by set_solver. done.
Qed.

Lemma from_dict_part_not_dict (x : pyval) :
  (∀ d, x ≠ PyDict d) →
  Standard.from_dict_part x = Raise (AttributeError (type_name x) "get").
Proof. intros Hx. destruct x; try done. by destruct (Hx d). Qed.

(** X6. The standard [from_dict] on sparse and malformed input. Without
    "parts" the message has no Parts, and without "metadata" an empty one.
    "parts" that is [None], a number or a boolean raises [TypeError]. An item
    of "parts" that is not a dict raises [AttributeError] once the items
    before it are read, and it does so whether or not "role" is there, since
    the Parts are read first. A key that [from_dict] does not read changes
    nothing. *)
Theorem standard_from_dict_edges :
  (∀ (data : dict) role,
     data !! "role" = Some role → data !! "parts" = None →
     Standard.from_dict data
     = Decoded {| Standard.role := role; Standard.parts := [];
                  Standard.metadata := default (PyDict ∅) (data !! "metadata") |}) ∧
  (∀ (data : dict) v,
     data !! "parts" = Some v →
     v = PyNone ∨ (∃ b, v = PyBool b) ∨ (∃ z, v = PyInt z) →
     Standard.from_dict data = Failed (TypeError "not iterable")) ∧
  (∀ (data : dict) before x after read,
     data !! "parts" = Some (PyList (before ++ x :: after)) →
     Standard.from_dict_loop before [] = Ok read →
     (∀ d, x ≠ PyDict d) →
     Standard.from_dict data = Failed (AttributeError (type_name x) "get")) ∧
  (∀ (data : dict) key v,
     key ∉ ["parts"; "role"; "metadata"] →
     Standard.from_dict (<[key := v]> data) = Standard.from_dict data).
Proof.
  split; [|split; [|split]].
  - intros data role Hrole Hparts.
    unfold Standard.from_dict, Standard.from_dict_args, get_or, getitem.
    by rewrite Hparts, Hrole.
  - intros data v Hparts Hv.
    unfold Standard.from_dict, Standard.from_dict_args, get_or. rewrite Hparts. simpl.
    by destruct Hv as [-> | [[b ->] | [z ->]]].
  - intros data before x after read Hparts Hbefore Hx.
    unfold Standard.from_dict, Standard.from_dict_args, get_or. rewrite Hparts. simpl.
    rewrite (from_dict_loop_app before (x :: after) [] read Hbefore). simpl.
    by rewrite (from_dict_part_not_dict x Hx).
  - intros data key v Hkey.
    assert (∀ k, k ∈ ["parts"; "role"; "metadata"] →
                 <[key := v]> data !! k = data !! k) as Hsame.
    { intros k Hk. apply lookup_insert_ne. by intros ->. }
    unfold Standard.from_dict, Standard.from_dict_args, get_or, getitem.
    rewrite !Hsame by set_solver. done.
Qed.

(** *** One round trip settles a message *)

Lemma typed_part_as_read_inv q q' :
  Standard.typed_part q = Some q' → q = Standard.as_read q'.
Proof.
  destruct q as [type text| |]; simpl; [|by intros [= <-]..].
  destruct text; try done. by intros [= <-].
Qed.

Lemma mapM_typed_part_inv qs : ∀ qs',
  mapM Standard.typed_part qs = Some qs' → qs = Standard.as_read <$> qs'.
Proof.
  induction qs as [|q qs IH]; intros qs'; simpl.
  - by intros [= <-].
  - destruct (Standard.typed_part q) as [q'|] eqn:Hq; simpl; [|done].
    destruct (mapM Standard.typed_part qs) as [qs0|] eqn:Hqs; simpl; [|done].
    intros [= <-]. rewrite fmap_cons. f_equal; [by apply typed_part_as_read_inv | by apply IH].
Qed.

(** What [from_dict] makes of a dictionary written by [Part_to_dict] is
    settled. *)
Lemma opt_field_written (part : Standard.Part) key :
  key = "uri" ∨ key = "data" ∨ key = "filename" →
  Standard.opt_field_ok (get_or (Standard.Part_to_dict part) key PyNone) = true.
Proof.
  intros Hkey. unfold get_or.
  destruct part as [type text | type json | type uri data filename]; simpl.
  - destruct Hkey as [-> | [-> | ->]]; by map_lookups.
  - destruct Hkey as [-> | [-> | ->]]; by map_lookups.
  - destruct (truthy uri) eqn:Eu, (truthy data) eqn:Ed, (truthy filename) eqn:Ef;
      destruct Hkey as [-> | [-> | ->]]; map_lookups; simpl; try done.
    all: match goal with
         | H : truthy ?v = true |- Standard.opt_field_ok ?v = true =>
             by destruct v
         end.
Qed.

Lemma from_dict_part_settled (part : Standard.Part) q :
  Standard.from_dict_part (PyDict (Standard.Part_to_dict part)) = Ok (Some q) →
  Settled.settled q.
Proof.
  unfold Standard.from_dict_part. simpl.
  set (d := Standard.Part_to_dict part).
  destruct (in_strs (get_or d "type" (PyStr "")) ["text"; "text/plain"]) eqn:Htext.
  { simpl. by intros [= <-]. }
  destruct (in_strs (get_or d "type" (PyStr "")) ["json"; "application/json"]) eqn:Hjson.
  { simpl. by intros [= <-]. }
  destruct (or_ _ _) as [[|]|e] eqn:Hfile; simpl; [|done..].
  intros [= <-]. simpl.
  split; [done|]. split; [done|]. split; [done|].
  split; [|split]; apply opt_field_written; auto.
Qed.

(** A settled Part is read back as it is. *)
Lemma from_dict_part_of_settled (part : Standard.Part) :
  Settled.settled part →
  Standard.from_dict_part (PyDict (Standard.Part_to_dict part))
  = Ok (Some (Standard.as_read part)).
Proof.
  destruct part as [type text | type json | type uri data filename]; simpl.
  - intros Htext. unfold Standard.from_dict_part. simpl. unfold get_or. map_lookups.
    simpl. rewrite Htext. simpl. by map_lookups.
  - intros [Htext Hjson]. unfold Standard.from_dict_part. simpl. unfold get_or. map_lookups.
    simpl. rewrite Htext, Hjson. simpl. by map_lookups.
  - intros (Htext & Hjson & Hfile & Hu & Hd & Hf).
    assert (∀ v, Standard.opt_field_ok v = true → truthy v = false → v = PyNone) as Hnone.
    { intros v Hv Htr. destruct v; simpl in *; congruence. }
    assert (∀ d : dict, d !! "type" = Some type →
      Standard.from_dict_part (PyDict d) =
      Ok (Some (Standard.FilePart (T := pyval) type (get_or d "uri" PyNone)
                  (get_or d "data" PyNone) (get_or d "filename" PyNone)))) as Hgen.
    { intros d Hty.
      assert (get_or d "type" (PyStr "") = type) as Hg by (unfold get_or; by rewrite Hty).
      unfold Standard.from_dict_part; simpl. rewrite !Hg, Htext, Hjson, Hfile. done. }
    destruct (truthy uri) eqn:Eu, (truthy data) eqn:Ed, (truthy filename) eqn:Ef;
      rewrite ?(Hnone uri), ?(Hnone data), ?(Hnone filename) by done;
      (rewrite Hgen;
       [ unfold get_or; map_lookups; reflexivity
       | map_lookups; reflexivity ]).
Qed.

Lemma from_dict_loop_settles (ps : list Standard.Part) :
  ∀ acc out,
    Standard.from_dict_loop ((fun part => PyDict (Standard.Part_to_dict part)) <$> ps) acc
    = Ok out →
    ∃ qs, out = acc ++ qs ∧ Forall Settled.settled qs.
Proof.
  induction ps as [|p ps IH]; intros acc out; simpl.
  - intros [= <-]. exists []. by rewrite app_nil_r.
  - destruct (Standard.from_dict_part _) as [q|] eqn:Hq; simpl; [|done]. intros Hloop.
    destruct (IH _ _ Hloop) as (qs & -> & Hqs).
    exists (option_list q ++ qs). split; [by rewrite app_assoc|].
    apply Forall_app. split; [|done].
    destruct q as [q|]; simpl; [|constructor].
    constructor; [|constructor]. by apply (from_dict_part_settled p).
Qed.

Lemma from_dict_loop_of_settled (ps : list Standard.Part) :
  Forall Settled.settled ps →
  ∀ acc,
    Standard.from_dict_loop ((fun part => PyDict (Standard.Part_to_dict part)) <$> ps) acc
    = Ok (acc ++ (Standard.as_read <$> ps)).
Proof.
  induction 1 as [|p ps Hp Hps IH]; intros acc; simpl.
  - by rewrite app_nil_r.
  - rewrite (from_dict_part_of_settled p Hp). simpl. rewrite IH. by rewrite <- app_assoc.
Qed.

Lemma settled_as_read (p : Standard.Part) :
  Settled.settled (Standard.as_read p) → Settled.settled p.
Proof. by destruct p. Qed.

(** X7. One round trip settles a message: whenever [to_dict] then
    [from_dict] gives a message, doing the same to that message gives it back
    unchanged. Parts that the first round drops, retags or strips of empty
    fields stay as the first round left them. *)
Theorem roundtrip_idempotent :
  ∀ m m' : Standard.A2AMessage,
    Standard.from_dict (Standard.to_dict m) = Decoded m' →
    Standard.from_dict (Standard.to_dict m') = Decoded m'.
Proof.
  intros m m' Hm.
  assert (∃ qs, Standard.parts m' = qs ∧ Forall Settled.settled qs) as (qs & Hparts & Hqs).
  { destruct m as [role parts metadata]. revert Hm.
    unfold Standard.from_dict, Standard.from_dict_args, Standard.to_dict.
    cbn [Standard.parts Standard.role Standard.metadata].
    remember ((fun part => PyDict (Standard.Part_to_dict part)) <$> parts) as items eqn:Hitems.
    simpl. unfold get_or, getitem. map_lookups. simpl.
    destruct (Standard.from_dict_loop items []) as [read|] eqn:Hloop; simpl; [|done].
    map_lookups. simpl.
    destruct (mapM Standard.typed_part read) as [typed|] eqn:Htyped; [|done].
    intros [= <-]. simpl. exists typed. split; [done|].
    subst items. apply from_dict_loop_settles in Hloop as (rs & -> & Hrs). simpl in *.
    apply mapM_typed_part_inv in Htyped as ->.
    rewrite Forall_fmap in Hrs. eapply Forall_impl; [exact Hrs|].
    intros p Hp. by apply settled_as_read. }
  clear Hm. destruct m' as [role' parts' metadata']. simpl in Hparts. subst qs.
  unfold Standard.from_dict, Standard.from_dict_args, Standard.to_dict.
    cbn [Standard.parts Standard.role Standard.metadata].
  remember ((fun part => PyDict (Standard.Part_to_dict part)) <$> parts') as items eqn:Hitems.
  simpl. unfold get_or, getitem. map_lookups. simpl.
  subst items. rewrite (from_dict_loop_of_settled parts' Hqs). simpl.
  map_lookups. simpl. by rewrite typed_part_as_read.
Qed.

End CodecFacts.

(** ** More on tasks: negative limits and the context-aware builder *)

#[local] Arguments TaskContext.trailing : simpl never.

Section TaskMoreFacts.
Import TaskContext ContextBuilder.

Lemma drop_min {A} (k : nat) (xs : list A) :
  drop (k `min` length xs) xs = drop k xs.
Proof.
  destruct (decide (k ≤ length xs)) as [Hk|Hk].
  - by rewrite Nat.min_l.
  - rewrite Nat.min_r by lia. by rewrite !drop_ge by lia.
Qed.

Lemma trailing_negative {A} (n : Z) (xs : list A) :
  (n < 0)%Z → trailing (Some n) xs = drop (Z.to_nat (- n)) xs.
Proof.
  intros Hn. unfold trailing, slice_from.
  destruct (Z.eqb_spec n 0) as [|_]; [lia|].
  destruct (Z.ltb_spec (- n) 0) as [|_]; [lia|].
  rewrite <- (drop_min (Z.to_nat (- n)) xs). f_equal. lia.
Qed.

Lemma trailing_length {A} (n : Z) (xs : list A) :
  length (trailing (Some n) xs)
  = if (0 <? n)%Z then Z.to_nat n `min` length xs
    else length xs - Z.to_nat (- n).
Proof.
  unfold trailing, slice_from.
  destruct (Z.eqb_spec n 0) as [->|Hne]; simpl; [lia|].
  rewrite length_drop.
  destruct (Z.ltb_spec 0 n), (Z.ltb_spec (- n) 0); lia.
Qed.

(** X8. A negative limit. [get_context] and [get_session_context] do not
    reject a negative [max_messages]: the slice [xs[-max_messages:]] then
    starts at a positive index, so the oldest [-max_messages] messages are
    left out and the rest is returned in order; nothing is returned once the
    limit reaches below minus the number of messages. *)
Theorem negative_max_skips_oldest :
  (∀ (h : heap) self T l n,
     h !! self = Some (TaskObj T) → h !! history T = Some (Messages l) → (n < 0)%Z →
     ∃ r, h !! r = None ∧
       get_context self (Some n) h
       = Some (r, <[r := Messages (drop (Z.to_nat (- n)) l)]> h) ∧
       ((Z.of_nat (length l) ≤ - n)%Z →
        get_context self (Some n) h = Some (r, <[r := Messages []]> h))) ∧
  (∀ manager sid (h : heap) all n,
     get_session_context manager sid None h = Some all → (n < 0)%Z →
     get_session_context manager sid (Some n) h = Some (drop (Z.to_nat (- n)) all)).
Proof.
  split.
  - intros h self T l n HT Hl Hn.
    destruct (get_context_spec h self T l (Some n) HT Hl) as (r & Hget & Hr).
    rewrite trailing_negative in Hget by done.
    exists r. split; [done|]. split; [done|].
    intros Hlen. rewrite Hget. by rewrite drop_ge by lia.
  - intros manager sid h all n Hall Hn. unfold get_session_context in *.
    destruct (extend_all h (get_session_tasks manager sid) []) as [msgs|]; [|done].
    simpl in Hall. injection Hall as <-. simpl. f_equal. by apply trailing_negative.
Qed.

(** X9. [create_message_with_context] on a task with history [l]. The
    message has the given role and ends with the given text; a summary Part
    comes before it exactly when context is asked for and the history is not
    empty, and it announces as many messages as [get_context] returns: the
    smaller of the limit and the length for a positive limit, the whole
    length for the limit 0. The metadata names the task and its session,
    numbers the message one past the history, and carries [has_context] as
    the flag was given, also when no summary was written. The task and its
    history are as before, no object of the heap is changed, and the message
    is one that [to_dict] and [from_dict] give back. *)
Theorem create_message_with_context_spec :
  ∀ (h : heap) task T l role text include_context max_context_messages,
    h !! task = Some (TaskObj T) → h !! history T = Some (Messages l) →
    ∃ m h' (md : dict) n,
      create_message_with_context role text task include_context max_context_messages h
      = Some (m, h') ∧
      Standard.role m = PyStr role ∧
      Standard.parts m
      = (if include_context && bool_decide (l ≠ [])
         then [Standard.TextPart (PyStr "text") (context_summary n)] else [])
        ++ [Standard.TextPart (PyStr "text") text] ∧
      ((0 < max_context_messages)%Z → n = Z.to_nat max_context_messages `min` length l) ∧
      (max_context_messages = 0%Z → n = length l) ∧
      Standard.metadata m = PyDict md ∧
      md !! "task_id" = Some (PyStr (id T)) ∧
      md !! "session_id" = Some (PyStr (session_id T)) ∧
      md !! "message_number" = Some (PyInt (Z.of_nat (length l) + 1)) ∧
      md !! "has_context" = Some (PyBool include_context) ∧
      (∀ r o, h !! r = Some o → h' !! r = Some o) ∧
      Standard.from_dict (Standard.to_dict m) = Decoded m.
Proof.
  intros h task T l role text include_context mx HT Hl.
  pose proof HT as HT'. pose proof Hl as Hl'.
  apply task_at_Some in HT'. apply messages_at_Some in Hl'.
  unfold create_message_with_context. rewrite HT'. simpl. rewrite Hl'. simpl.
  destruct (include_context && bool_decide (l ≠ [])) eqn:Hctx; simpl.
  - destruct (get_context_spec h task T l (Some mx) HT Hl) as (r & Hget & Hr).
    rewrite Hget. simpl. unfold messages_at at 1. rewrite lookup_insert_eq. simpl.
    eexists _, _, _, (length (trailing (Some mx) l)).
    split; [reflexivity|]. simpl.
    split; [done|]. split; [done|].
    split; [intros Hpos; rewrite trailing_length;
            by destruct (Z.ltb_spec 0 mx); [|lia]|].
    split; [intros ->; done|].
    split; [reflexivity|].
    do 4 (split; [by map_lookups|]).
    split.
    + intros r' o Ho. rewrite lookup_insert_ne; [done|]. intros ->. congruence.
    + by apply standard_from_dict_to_dict.
  - eexists _, _, _, (length (trailing (Some mx) l)).
    split; [reflexivity|]. simpl.
    split; [done|]. split; [done|].
    split; [intros Hpos; rewrite trailing_length;
            by destruct (Z.ltb_spec 0 mx); [|lia]|].
    split; [intros ->; done|].
    split; [reflexivity|].
    do 4 (split; [by map_lookups|]).
    split; [done|].
    by apply standard_from_dict_to_dict.
Qed.

End TaskMoreFacts.

(** ** The state of a task follows the calls made on it *)

Section LifecycleFacts.
Import TaskContext Lifecycle.

Lemma statuses_of_app calls1 calls2 tid :
  statuses_of (calls1 ++ calls2) tid = statuses_of calls1 tid ++ statuses_of calls2 tid.
Proof. apply omap_app. Qed.

Lemma artifacts_of_app calls1 calls2 tid :
  artifacts_of (calls1 ++ calls2) tid = artifacts_of calls1 tid ++ artifacts_of calls2 tid.
Proof. apply omap_app. Qed.

Lemma eqb_ne (s1 s2 : string) : s1 ≠ s2 → String.eqb s1 s2 = false.
Proof. by apply String.eqb_neq. Qed.

Lemma tracked_start : tracked [] start.
Proof.
  split; simpl.
  - intros tid r T Hr. by rewrite lookup_empty in Hr.
  - intros tid tid' r r' T T' Hr. by rewrite lookup_empty in Hr.
  - done.
Qed.

Lemma tracked_create calls manager (h : heap) us ut now sido md t manager' h' :
  consistent calls (manager, h) → tracked calls (manager, h) →
  ut ∉ (created calls).*1 →
  create_task us ut now sido md manager h = (t, manager', h') →
  tracked (calls ++ [CreateTask us ut now sido md]) (manager', h').
Proof.
  intros Hc Ht Hnew Hcreate.
  destruct (create_task_spec us ut now sido md manager h) as (t0 & h0 & Hinit & Hcr).
  rewrite Hcr in Hcreate. injection Hcreate as <- <- <-.
  destruct (Task_init_spec ut now (session_or sido us) (default ∅ md) h)
    as (t1 & hist & arts & Hinit' & Hhist & Harts & Htn & Hne1 & Hne2 & Hne3).
  rewrite Hinit' in Hinit. injection Hinit as <- <-.
  match goal with |- tracked _ (_, <[t1 := TaskObj ?T]> _) => set (T0 := T) end.
  assert (∀ r o, h !! r = Some o →
            <[t1 := TaskObj T0]> (<[arts := Artifacts []]> (<[hist := Messages []]> h)) !! r
            = Some o) as Hold.
  { intros r o Ho. rewrite !lookup_insert_ne; [done|..]; intros ->; congruence. }
  assert (∀ tid r T, tasks manager !! tid = Some r →
            <[t1 := TaskObj T0]> (<[arts := Artifacts []]> (<[hist := Messages []]> h)) !! r
            = Some (TaskObj T) → h !! r = Some (TaskObj T)) as Hback.
  { intros tid r T Hr HT.
    destruct (consistent_lookup _ _ _ _ _ Hc Hr) as (sid & T1 & a & _ & HT1 & _).
    pose proof (Hold _ _ HT1). congruence. }
  assert (∀ tid r T, tasks manager !! tid = Some r → h !! r = Some (TaskObj T) →
            artifacts T ≠ arts) as Hnotnew.
  { intros tid r T Hr HT Heq.
    destruct (status_ok _ _ Ht tid r T Hr HT) as [_ Ha]. simpl in Ha. congruence. }
  split; simpl.
  - intros tid r T Hr HT. rewrite statuses_of_app, artifacts_of_app. simpl.
    destruct (decide (tid = ut)) as [->|Hne].
    + rewrite lookup_insert_eq in Hr. injection Hr as <-.
      rewrite lookup_insert_eq in HT. injection HT as <-. simpl.
      rewrite String.eqb_refl. simpl. split; [apply last_snoc|].
      rewrite (untouched _ _ Ht ut Hnew). simpl.
      rewrite lookup_insert_ne by done. by rewrite lookup_insert_eq.
    + rewrite lookup_insert_ne in Hr by done.
      pose proof (Hback _ _ _ Hr HT) as HT'.
      destruct (status_ok _ _ Ht tid r T Hr HT') as [Hs Ha]. simpl in Hs, Ha.
      rewrite (eqb_ne ut tid) by done. simpl. rewrite !app_nil_r.
      split; [done | by apply Hold].
  - intros tid tid' r r' T T' Hr Hr' HT HT' Heq.
    destruct (decide (tid = ut)) as [->|Hne], (decide (tid' = ut)) as [->|Hne']; [done|..].
    + exfalso. rewrite lookup_insert_eq in Hr. injection Hr as <-.
      rewrite lookup_insert_eq in HT. injection HT as <-. simpl in Heq.
      rewrite lookup_insert_ne in Hr' by done.
      apply (Hnotnew tid' r' T' Hr' (Hback _ _ _ Hr' HT')). done.
    + exfalso. rewrite lookup_insert_eq in Hr'. injection Hr' as <-.
      rewrite lookup_insert_eq in HT'. injection HT' as <-. simpl in Heq.
      rewrite lookup_insert_ne in Hr by done.
      apply (Hnotnew tid r T Hr (Hback _ _ _ Hr HT)). done.
    + rewrite lookup_insert_ne in Hr, Hr' by done.
      apply (artifacts_apart _ _ Ht tid tid' r r' T T' Hr Hr');
        [by eapply Hback | by eapply Hback | done].
  - intros tid Hnotin. rewrite created_app, fmap_app in Hnotin.
    rewrite artifacts_of_app. simpl. rewrite app_nil_r.
    apply (untouched _ _ Ht). intros Hin. apply Hnotin. apply elem_of_app. by left.
Qed.

Lemma tracked_add_message calls manager (h : heap) tid m r h' :
  consistent calls (manager, h) → tracked calls (manager, h) →
  tasks manager !! tid = Some r →
  add_message r m h = Some h' →
  tracked (calls ++ [AddMessage tid m]) (manager, h').
Proof.
  intros Hc Ht Hr Hadd.
  destruct (consistent_lookup _ _ _ _ _ Hc Hr) as (sid & T & a & Hin & HT & Hid & Hsid & Hh & Ha).
  rewrite (add_message_spec h r T _ m HT Hh) in Hadd. injection Hadd as <-.
  set (l' := messages_of calls tid ++ [m]).
  assert (∀ r' o, r' ≠ history T → <[history T := Messages l']> h !! r' = Some o →
                  h !! r' = Some o) as Hback.
  { intros r' o Hne Ho. by rewrite lookup_insert_ne in Ho. }
  assert (∀ r' T', <[history T := Messages l']> h !! r' = Some (TaskObj T') →
                   h !! r' = Some (TaskObj T')) as Htask.
  { intros r' T' Ho. apply Hback; [|done]. intros ->. by rewrite lookup_insert_eq in Ho. }
  split; simpl.
  - intros tid0 r0 T0 Hr0 HT0. apply Htask in HT0.
    destruct (status_ok _ _ Ht tid0 r0 T0 Hr0 HT0) as [Hs Harts]. simpl in Hs, Harts.
    rewrite statuses_of_app, artifacts_of_app. simpl. rewrite !app_nil_r.
    split; [done|]. rewrite lookup_insert_ne; [done|]. intros Heq. congruence.
  - intros tid1 tid2 r1 r2 T1 T2 Hr1 Hr2 HT1 HT2.
    apply (artifacts_apart _ _ Ht tid1 tid2 r1 r2 T1 T2 Hr1 Hr2); by apply Htask.
  - intros tid0 Hnotin. rewrite created_app, fmap_app in Hnotin. simpl in Hnotin.
    rewrite app_nil_r in Hnotin. rewrite artifacts_of_app. simpl. rewrite app_nil_r.
    by apply (untouched _ _ Ht).
Qed.

Lemma tracked_update_status calls manager (h : heap) tid st msg now r h' :
  consistent calls (manager, h) → tracked calls (manager, h) →
  tasks manager !! tid = Some r →
  update_status r st msg now h = Some h' →
  tracked (calls ++ [UpdateStatus tid st msg now]) (manager, h').
Proof.
  intros Hc Ht Hr Hupd.
  destruct (consistent_lookup _ _ _ _ _ Hc Hr) as (sid & T & a & Hin & HT & Hid & Hsid & Hh & Ha).
  rewrite (update_status_spec h r T st msg now HT) in Hupd. injection Hupd as <-.
  set (Tn := {| id := id T; session_id := session_id T;
                status := {| state := st; message := msg; timestamp := now |};
                history := history T; artifacts := artifacts T; metadata := metadata T |}).
  assert (∀ tid0, tasks manager !! tid0 = Some r → tid0 = tid) as Hsame.
  { intros tid0 Hr0.
    destruct (consistent_lookup _ _ _ _ _ Hc Hr0) as (sid0 & T0 & a0 & _ & HT0 & Hid0 & _).
    congruence. }
  assert (∀ r' T', <[r := TaskObj Tn]> h !! r' = Some (TaskObj T') →
            ∃ T0, h !! r' = Some (TaskObj T0) ∧ artifacts T0 = artifacts T') as Hback.
  { intros r' T' Hl. destruct (decide (r = r')) as [<-|Hne].
    - rewrite lookup_insert_eq in Hl. injection Hl as <-. by exists T.
    - rewrite lookup_insert_ne in Hl by done. by exists T'. }
  split; simpl.
  - intros tid0 r0 T0 Hr0 HT0. rewrite statuses_of_app, artifacts_of_app. simpl.
    destruct (decide (r = r0)) as [<-|Hne].
    + rewrite lookup_insert_eq in HT0. injection HT0 as <-.
      rewrite (Hsame tid0 Hr0). rewrite String.eqb_refl. simpl. rewrite app_nil_r.
      split; [apply last_snoc|].
      destruct (status_ok _ _ Ht tid r T Hr HT) as [_ Harts]. simpl in Harts.
      rewrite lookup_insert_ne; [done|]. intros Heq. congruence.
    + rewrite lookup_insert_ne in HT0 by done.
      assert (tid ≠ tid0) as Hne' by (intros ->; congruence).
      rewrite (eqb_ne tid tid0) by done. simpl. rewrite !app_nil_r.
      destruct (status_ok _ _ Ht tid0 r0 T0 Hr0 HT0) as [Hs Harts]. simpl in Hs, Harts.
      split; [done|]. rewrite lookup_insert_ne; [done|]. intros Heq. congruence.
  - intros tid1 tid2 r1 r2 T1 T2 Hr1 Hr2 HT1 HT2 Heq.
    destruct (Hback _ _ HT1) as (T1' & HT1' & Ha1).
    destruct (Hback _ _ HT2) as (T2' & HT2' & Ha2).
    apply (artifacts_apart _ _ Ht tid1 tid2 r1 r2 T1' T2' Hr1 Hr2 HT1' HT2'). congruence.
  - intros tid0 Hnotin. rewrite created_app, fmap_app in Hnotin. simpl in Hnotin.
    rewrite app_nil_r in Hnotin. rewrite artifacts_of_app. simpl. rewrite app_nil_r.
    by apply (untouched _ _ Ht).
Qed.

Lemma tracked_add_artifact calls manager (h : heap) tid x r h' :
  consistent calls (manager, h) → tracked calls (manager, h) →
  tasks manager !! tid = Some r →
  add_artifact r x h = Some h' →
  tracked (calls ++ [AddArtifact tid x]) (manager, h').
Proof.
  intros Hc Ht Hr Hadd.
  destruct (consistent_lookup _ _ _ _ _ Hc Hr) as (sid & T & a & Hin & HT & Hid & Hsid & Hh & Ha).
  destruct (status_ok _ _ Ht tid r T Hr HT) as [_ Harts]. simpl in Harts.
  rewrite (add_artifact_spec h r T _ x HT Harts) in Hadd. injection Hadd as <-.
  set (l' := artifacts_of calls tid ++ [x]).
  assert (∀ r' T', <[artifacts T := Artifacts l']> h !! r' = Some (TaskObj T') →
                   h !! r' = Some (TaskObj T')) as Htask.
  { intros r' T' Ho. destruct (decide (artifacts T = r')) as [<-|Hne].
    - by rewrite lookup_insert_eq in Ho.
    - by rewrite lookup_insert_ne in Ho. }
  split; simpl.
  - intros tid0 r0 T0 Hr0 HT0. apply Htask in HT0.
    destruct (status_ok _ _ Ht tid0 r0 T0 Hr0 HT0) as [Hs Harts0]. simpl in Hs, Harts0.
    rewrite statuses_of_app, artifacts_of_app. simpl. rewrite app_nil_r.
    split; [done|].
    destruct (decide (tid = tid0)) as [<-|Hne].
    + assert (T0 = T) as -> by congruence.
      rewrite String.eqb_refl. simpl. by rewrite lookup_insert_eq.
    + rewrite (eqb_ne tid tid0) by done. simpl. rewrite app_nil_r.
      rewrite lookup_insert_ne; [done|]. intros Heq. apply Hne.
      by apply (artifacts_apart _ _ Ht tid tid0 r r0 T T0 Hr Hr0 HT HT0).
  - intros tid1 tid2 r1 r2 T1 T2 Hr1 Hr2 HT1 HT2.
    apply (artifacts_apart _ _ Ht tid1 tid2 r1 r2 T1 T2 Hr1 Hr2); by apply Htask.
  - intros tid0 Hnotin. rewrite created_app, fmap_app in Hnotin. simpl in Hnotin.
    rewrite app_nil_r in Hnotin. rewrite artifacts_of_app. simpl.
    assert (tid ≠ tid0) as Hne.
    { intros <-. apply Hnotin. apply list_elem_of_fmap. by exists (tid, sid). }
    rewrite (eqb_ne tid tid0) by done. simpl. rewrite app_nil_r.
    by apply (untouched _ _ Ht).
Qed.

Lemma tracked_step calls c w w' :
  consistent calls w → tracked calls w →
  NoDup (created (calls ++ [c])).*1 →
  step c w = Some w' →
  tracked (calls ++ [c]) w'.
Proof.
  destruct w as [manager h]. intros Hc Ht Hnd Hstep.
  destruct c as [us ut now sido md | tid m | tid st msg now | tid x]; simpl in Hstep.
  - destruct (create_task us ut now sido md manager h) as [[t manager'] h'] eqn:Hcreate.
    injection Hstep as <-. eapply tracked_create; [done | done | | done].
    rewrite created_app, fmap_app in Hnd. apply NoDup_app in Hnd as (_ & Hdisj & _).
    intros Hin. apply (Hdisj _ Hin). simpl. apply list_elem_of_singleton. done.
  - unfold get_task in Hstep.
    destruct (tasks manager !! tid) as [r|] eqn:Hr; simpl in Hstep; [|done].
    destruct (add_message r m h) as [h'|] eqn:Hadd; simpl in Hstep; [|done].
    injection Hstep as <-. by eapply tracked_add_message.
  - unfold get_task in Hstep.
    destruct (tasks manager !! tid) as [r|] eqn:Hr; simpl in Hstep; [|done].
    destruct (update_status r st msg now h) as [h'|] eqn:Hupd; simpl in Hstep; [|done].
    injection Hstep as <-. by eapply tracked_update_status.
  - unfold get_task in Hstep.
    destruct (tasks manager !! tid) as [r|] eqn:Hr; simpl in Hstep; [|done].
    destruct (add_artifact r x h) as [h'|] eqn:Hadd; simpl in Hstep; [|done].
    injection Hstep as <-. by eapply tracked_add_artifact.
Qed.

Lemma tracked_reached calls :
  ∀ w, NoDup (created calls).*1 → run calls start = Some w → tracked calls w.
Proof.
  induction calls as [|c calls IH] using rev_ind; intros w Hnd Hrun.
  - injection Hrun as <-. apply tracked_start.
  - rewrite run_app in Hrun.
    destruct (run calls start) as [w0|] eqn:Hrun0; simpl in Hrun; [|done].
    destruct (step c w0) as [w1|] eqn:Hstep; simpl in Hrun; [|done]. injection Hrun as <-.
    assert (NoDup (created calls).*1) as Hnd0.
    { rewrite created_app, fmap_app in Hnd. by apply NoDup_app in Hnd as (Hnd & _). }
    apply (tracked_step calls c w0 w1); [by apply consistent_reached | by apply IH | done..].
Qed.

(** X10. The state of a task follows the calls made on it. Take any
    sequence of [create_task], [add_message], [update_status] and
    [add_artifact] calls with pairwise distinct task ids, each method call
    on a task created before it. The calls run to the end, and afterwards
    [get_task] finds exactly the ids of the tasks created. The task it finds
    carries its id and the session it was created in; its status is the one
    set by the last [update_status] on it, or the [SUBMITTED] it was created
    with when there was none; its history holds the messages, and its
    artifacts the artifacts, added to it, in order. A call on one task
    leaves no trace on another. *)
Theorem task_state_follows_calls :
  ∀ calls, NoDup (created calls).*1 → well_targeted calls →
    ∃ manager (h : heap), run calls start = Some (manager, h) ∧
      ∀ tid,
        match get_task manager tid with
        | None => tid ∉ (created calls).*1
        | Some r =>
            ∃ T, task_at h r = Some T ∧ id T = tid ∧
              (tid, session_id T) ∈ created calls ∧
              last (statuses_of calls tid) = Some (status T) ∧
              messages_at h (history T) = Some (messages_of calls tid) ∧
              artifacts_at h (artifacts T) = Some (artifacts_of calls tid)
        end.
Proof.
  intros calls Hnd Hwt.
  destruct (run_reaches calls Hnd Hwt) as ([manager h] & Hrun & Hc).
  pose proof (tracked_reached calls _ Hnd Hrun) as Ht.
  exists manager, h. split; [done|]. intros tid. unfold get_task.
  destruct (tasks manager !! tid) as [r|] eqn:Hr.
  - destruct (consistent_lookup _ _ _ _ _ Hc Hr)
      as (sid & T & a & Hin & HT & Hid & Hsid & Hh & Ha).
    destruct (status_ok _ _ Ht tid r T Hr HT) as [Hs Harts]. simpl in Hs, Harts.
    exists T. split; [by apply task_at_Some|]. split; [done|].
    split; [by rewrite Hsid|]. split; [done|].
    split; [by apply messages_at_Some | by apply artifacts_at_Some].
  - intros Hin. apply list_elem_of_fmap in Hin as ([tid' sid] & -> & Hin).
    destruct (tasks_ok _ _ Hc _ _ Hin) as (r & T & a & Hr' & _). simpl in Hr, Hr'. congruence.
Qed.

End LifecycleFacts.

(** ** The agents *)

#[local] Arguments Idioms.invoke : simpl never.

Ltac handler_cases :=
  repeat (simpl;
    match goal with
    | |- context [call_get ?v _ _] => destruct v eqn:?
    | |- context [if eq_str ?a ?s then _ else _] => destruct (eq_str a s) eqn:?
    | |- context [Idioms.invoke ?t ?k ?a] => destruct (Idioms.invoke t k a) eqn:?
    | |- context [is_Exception ?e] => destruct (is_Exception e) eqn:?
    end).




Section LegacyAgentFacts.
Import Legacy Idioms.

Variable str : pyval → string.
Variable str_exn : exn → string.

(** What a reply of an agent with role [role] to [message] looks like. *)
Lemma create_response_answers uuid now role message data :
  let reply := create_response uuid now role (sender message) data (message_id message) in
  sender reply = role ∧ receiver reply = sender message ∧
  in_reply_to reply = Some (message_id message) ∧
  message_id reply = uuid ∧ timestamp reply = now ∧
  ((∃ data, message_type reply = RESPONSE ∧ content reply = PyDict {[ "data" := data ]}) ∨
   (∃ error, message_type reply = ERROR ∧ content reply = PyDict {[ "error" := PyStr error ]})).
Proof. simpl. repeat split. left. by exists data. Qed.

Lemma create_error_answers uuid now role message error :
  let reply := create_error uuid now role (sender message) error (message_id message) in
  sender reply = role ∧ receiver reply = sender message ∧
  in_reply_to reply = Some (message_id message) ∧
  message_id reply = uuid ∧ timestamp reply = now ∧
  ((∃ data, message_type reply = RESPONSE ∧ content reply = PyDict {[ "data" := data ]}) ∨
   (∃ error, message_type reply = ERROR ∧ content reply = PyDict {[ "error" := PyStr error ]})).
Proof. simpl. repeat split. right. by exists error. Qed.

(** A reply of the company agent names the request and carries the id
    drawn for it. *)
Lemma company_reply_names_request info price execs uuid now message reply :
  A2ACompanyAgent.handle_message info price execs str str_exn uuid now message
  = Ok (Some reply) →
  in_reply_to reply = Some (message_id message) ∧ message_id reply = uuid.
Proof.
  unfold A2ACompanyAgent.handle_message.
  destruct (message_type message) eqn:Htype; try done.
  - unfold A2ACompanyAgent._handle_request.
    destruct (content message) as [| | | | |d] eqn:Hcontent; simpl; try done.
    unfold try_except.
    handler_cases; try done; by intros [= <-].
  - unfold A2ACompanyAgent._handle_notification.
    by destruct (content message).
Qed.

(** X11. The company agent as a handler, for any tools. It replies to
    requests only. Every reply comes from [COMPANY_AGENT], goes to the sender
    of the request, names the request in [in_reply_to], and is a [RESPONSE]
    holding data or an [ERROR] holding a text. What the handler raises is the
    [AttributeError] of a content that is not a dict, or what a tool raised
    outside the classes of [Exception]; an exception of a tool inside them
    never leaves the handler. *)
Theorem company_agent_replies :
  ∀ get_company_info_tool get_stock_price_tool get_company_executives_tool
    uuid now message,
    match A2ACompanyAgent.handle_message get_company_info_tool get_stock_price_tool
            get_company_executives_tool str str_exn uuid now message with
    | Ok (Some reply) =>
        message_type message = REQUEST ∧
        sender reply = COMPANY_AGENT ∧ receiver reply = sender message ∧
        in_reply_to reply = Some (message_id message) ∧
        message_id reply = uuid ∧ timestamp reply = now ∧
        ((∃ data, message_type reply = RESPONSE ∧
                  content reply = PyDict {[ "data" := data ]}) ∨
         (∃ error, message_type reply = ERROR ∧
                   content reply = PyDict {[ "error" := PyStr error ]}))
    | Ok None => message_type message ≠ REQUEST
    | Raise e =>
        (e = AttributeError (type_name (content message)) "get" ∧
         ∀ d, content message ≠ PyDict d) ∨
        (is_Exception e = false ∧ message_type message = REQUEST)
    end.
Proof.
  intros info price execs uuid now message.
  unfold A2ACompanyAgent.handle_message.
  destruct (message_type message) eqn:Htype; try done.
  - unfold A2ACompanyAgent._handle_request.
    destruct (content message) as [| | | | |d] eqn:Hcontent; simpl;
      try (left; split; [done|]; intros d; congruence).
    unfold try_except.
    handler_cases;
      first [ split; [done|]; apply create_response_answers
            | split; [done|]; apply create_error_answers
            | right; done ].
  - unfold A2ACompanyAgent._handle_notification.
    destruct (content message) as [| | | | |d] eqn:Hcontent; simpl;
      try (left; split; [done|]; intros d; congruence).
    done.
Qed.

Lemma in_strs_false v l : in_strs v l = false → Forall (fun s => eq_str v s = false) l.
Proof.
  unfold in_strs. induction l as [|s l IH]; simpl; [constructor|].
  intros [Hs Hl]%orb_false_iff. constructor; [done | by apply IH].
Qed.

(** X12. What the company agent answers to a request whose content is a
    dict. An action it does not know gets an [ERROR] naming the action. A
    known action with "params" that is not a dict gets an [ERROR] with the
    text of the [AttributeError] of [params.get], which names the type of the
    params: the lookup is inside the [try]. With a dict of params,
    "get_company_info", "get_stock_price" and "get_executives" ask their tool
    for the ticker and answer with what it returned, under "company_info",
    "stock_price" and "executives"; "full_research" asks the three tools in
    that order and answers with the ticker and the three results. Whichever
    tool raises first decides: an [Exception] becomes an [ERROR] with its
    text, any other exception leaves the handler, and the tools after it are
    not asked. *)
Theorem company_agent_request_outcomes :
  ∀ get_company_info_tool get_stock_price_tool get_company_executives_tool
    uuid now message (d : dict),
    message_type message = REQUEST → content message = PyDict d →
    let handle :=
      A2ACompanyAgent.handle_message get_company_info_tool get_stock_price_tool
        get_company_executives_tool str str_exn uuid now message in
    let action := get_or d "action" PyNone in
    let params := get_or d "params" (PyDict ∅) in
    let response data :=
      Ok (Some (create_response uuid now COMPANY_AGENT (sender message) data
                  (message_id message))) in
    let error text :=
      Ok (Some (create_error uuid now COMPANY_AGENT (sender message) text
                  (message_id message))) in
    let failed e :=
      if is_Exception e then error ("Error processing request: " +:+ str_exn e)
      else Raise e in
    let arg (p : dict) := PyDict {[ "ticker" := get_or p "ticker" PyNone ]} in
    (in_strs action ["get_company_info"; "get_stock_price"; "get_executives";
                     "full_research"] = false →
     handle = error ("Unknown action: " +:+ str action)) ∧
    (in_strs action ["get_company_info"; "get_stock_price"; "get_executives";
                     "full_research"] = true →
     (∀ p, params ≠ PyDict p) →
     handle = error ("Error processing request: "
                     +:+ str_exn (AttributeError (type_name params) "get"))) ∧
    (∀ p : dict, action = PyStr "get_company_info" → params = PyDict p →
       handle = match get_company_info_tool (arg p) with
                | Ok result => response (PyDict {[ "company_info" := result ]})
                | Raise e => failed e
                end) ∧
    (∀ p : dict, action = PyStr "get_stock_price" → params = PyDict p →
       handle = match get_stock_price_tool (arg p) with
                | Ok result => response (PyDict {[ "stock_price" := result ]})
                | Raise e => failed e
                end) ∧
    (∀ p : dict, action = PyStr "get_executives" → params = PyDict p →
       handle = match get_company_executives_tool (arg p) with
                | Ok result => response (PyDict {[ "executives" := result ]})
                | Raise e => failed e
                end) ∧
    (∀ p : dict, action = PyStr "full_research" → params = PyDict p →
       handle =
         match get_company_info_tool (arg p) with
         | Raise e => failed e
         | Ok company_info =>
             match get_stock_price_tool (arg p) with
             | Raise e => failed e
             | Ok stock_price =>
                 match get_company_executives_tool (arg p) with
                 | Raise e => failed e
                 | Ok executives =>
                     response (PyDict (list_to_map [
                       ("ticker", get_or p "ticker" PyNone);
                       ("company_info", company_info);
                       ("stock_price", stock_price);
                       ("executives", executives)]))
                 end
             end
         end).
Proof.
  intros info price execs uuid now message d Htype Hcontent.
  unfold A2ACompanyAgent.handle_message, A2ACompanyAgent._handle_request.
  rewrite Htype, Hcontent. cbv zeta. simpl.
  remember (get_or d "action" PyNone) as action eqn:Haction.
  remember (get_or d "params" (PyDict ∅)) as params eqn:Hparams.
  clear Haction Hparams.
  split; [|split; [|split; [|split; [|split]]]].
  - intros Hnot. apply in_strs_false in Hnot.
    apply Forall_cons in Hnot as [-> Hnot]. apply Forall_cons in Hnot as [-> Hnot].
    apply Forall_cons in Hnot as [-> Hnot]. apply Forall_cons in Hnot as [-> Hnot].
    done.
  - intros Hin Hparams. unfold in_strs in Hin. simpl in Hin.
    destruct params as [| | | | |p] eqn:Hp; [..|by destruct (Hparams p)];
      handler_cases; try done; by rewrite !orb_false_r in Hin.
  - intros p -> ->. simpl. unfold invoke.
    destruct (info _) as [result|e]; simpl; [done|]. by destruct (is_Exception e).
  - intros p -> ->. simpl. unfold invoke.
    destruct (price _) as [result|e]; simpl; [done|]. by destruct (is_Exception e).
  - intros p -> ->. simpl. unfold invoke.
    destruct (execs _) as [result|e]; simpl; [done|]. by destruct (is_Exception e).
  - intros p -> ->. simpl. unfold invoke.
    destruct (info _) as [company_info|e]; simpl; [|by destruct (is_Exception e)].
    destruct (price _) as [stock_price|e]; simpl; [|by destruct (is_Exception e)].
    destruct (execs _) as [executives|e]; simpl; [done|]. by destruct (is_Exception e).
Qed.

(** X13. The person agent as a handler, for any tools: as for the company
    agent, it replies to requests only, every reply comes from
    [PERSON_AGENT], goes to the sender of the request and names the request,
    and no [Exception] of a tool leaves the handler. *)
Theorem person_agent_replies :
  ∀ get_person_info_tool get_person_career_info_tool search_person_news_tool
    get_person_social_media_tool uuid now message,
    match A2APersonAgent.handle_message get_person_info_tool get_person_career_info_tool
            search_person_news_tool get_person_social_media_tool
            str str_exn uuid now message with
    | Ok (Some reply) =>
        message_type message = REQUEST ∧
        sender reply = PERSON_AGENT ∧ receiver reply = sender message ∧
        in_reply_to reply = Some (message_id message) ∧
        message_id reply = uuid ∧ timestamp reply = now ∧
        ((∃ data, message_type reply = RESPONSE ∧
                  content reply = PyDict {[ "data" := data ]}) ∨
         (∃ error, message_type reply = ERROR ∧
                   content reply = PyDict {[ "error" := PyStr error ]}))
    | Ok None => message_type message ≠ REQUEST
    | Raise e =>
        (e = AttributeError (type_name (content message)) "get" ∧
         ∀ d, content message ≠ PyDict d) ∨
        (is_Exception e = false ∧ message_type message = REQUEST)
    end.
Proof.
  intros info career news social uuid now message.
  unfold A2APersonAgent.handle_message.
  destruct (message_type message) eqn:Htype; try done.
  - unfold A2APersonAgent._handle_request.
    destruct (content message) as [| | | | |d] eqn:Hcontent; simpl;
      try (left; split; [done|]; intros d; congruence).
    unfold try_except.
    handler_cases;
      first [ split; [done|]; apply create_response_answers
            | split; [done|]; apply create_error_answers
            | right; done ].
  - unfold A2APersonAgent._handle_notification.
    destruct (content message) as [| | | | |d] eqn:Hcontent; simpl;
      try (left; split; [done|]; intros d; congruence).
    done.
Qed.

(** X14. "research_executive", the action the coordinator uses: for
    params that are a dict, the person agent asks the info tool and then the
    career tool about [params.get("name")], and answers with both results,
    the name and the title, which is the empty string when the params have
    none. When the info tool raises an [Exception] the career tool is not
    asked and the answer is an [ERROR]. *)
Theorem person_agent_research_executive :
  ∀ get_person_info_tool get_person_career_info_tool search_person_news_tool
    get_person_social_media_tool uuid now message (d p : dict),
    message_type message = REQUEST → content message = PyDict d →
    d !! "action" = Some (PyStr "research_executive") →
    d !! "params" = Some (PyDict p) →
    let handle :=
      A2APersonAgent.handle_message get_person_info_tool get_person_career_info_tool
        search_person_news_tool get_person_social_media_tool
        str str_exn uuid now message in
    let arg := PyDict {[ "person_name" := get_or p "name" PyNone ]} in
    (∀ person_info career_info,
       get_person_info_tool arg = Ok person_info →
       get_person_career_info_tool arg = Ok career_info →
       handle = Ok (Some (create_response uuid now PERSON_AGENT (sender message)
                            (PyDict (list_to_map [
                               ("name", get_or p "name" PyNone);
                               ("title", get_or p "title" (PyStr ""));
                               ("person_info", person_info);
                               ("career_info", career_info)]))
                            (message_id message)))) ∧
    (∀ e, get_person_info_tool arg = Raise e → is_Exception e = true →
       handle = Ok (Some (create_error uuid now PERSON_AGENT (sender message)
                            ("Error processing request: " +:+ str_exn e)
                            (message_id message)))).
Proof.
  intros info career news social uuid now message d p Htype Hcontent Haction Hparams.
  unfold A2APersonAgent.handle_message, A2APersonAgent._handle_request.
  assert (get_or d "action" PyNone = PyStr "research_executive") as Ha
    by (unfold get_or; by rewrite Haction).
  assert (get_or d "params" (PyDict ∅) = PyDict p) as Hp
    by (unfold get_or; by rewrite Hparams).
  rewrite Htype, Hcontent. cbv zeta. simpl. rewrite Ha, Hp. simpl.
  unfold invoke. split.
  - intros person_info career_info Hinfo Hcareer. by rewrite Hinfo, Hcareer.
  - intros e Hinfo He. rewrite Hinfo. simpl. by rewrite He.
Qed.

End LegacyAgentFacts.

(** *** Agents on the bus *)

Section PlainHandlers.
Context {Msg : Type}.
Variable receiver : Msg → AgentRole.
Variable prints : Bus.line Msg → bool.

(** A send to a handler that sends nothing itself. *)
Lemma send_to_plain fuel (bus : Bus.MessageBus Msg) m handler r :
  Bus.agent_handlers bus !! receiver m = Some handler →
  handler m = Idioms.as_prog r →
  ∃ bus', Bus.send_message receiver prints (S fuel) bus m = Some (bus', r) ∧
    Bus.agent_handlers bus' = Bus.agent_handlers bus ∧
    Bus.message_history bus' = Bus.message_history bus ++ m :: Bus.response_entry r.
Proof.
  intros Hh Hr. destruct r as [response|e]; simpl in Hr.
  - destruct (send_message_returns receiver prints fuel bus m handler response Hh Hr)
      as (bus' & Hsend & Hhandlers & Hhistory & _).
    exists bus'. split; [done|]. split; [done|]. rewrite Hhistory. by destruct response.
  - destruct (send_message_throws receiver prints fuel bus m handler e Hh Hr)
      as (bus' & Hsend & Hhandlers & Hhistory & _).
    exists bus'. by rewrite Hhistory.
Qed.

Lemma send_to_nobody fuel (bus : Bus.MessageBus Msg) m :
  Bus.agent_handlers bus !! receiver m = None →
  ∃ bus', Bus.send_message receiver prints (S fuel) bus m = Some (bus', Ok None) ∧
    Bus.agent_handlers bus' = Bus.agent_handlers bus ∧
    Bus.message_history bus' = Bus.message_history bus ++ [m].
Proof.
  intros Hnone. rewrite (send_message_unrouted receiver prints fuel bus m Hnone).
  eexists. split; [reflexivity|].
  split; repeat first [rewrite say_handlers | rewrite say_history | progress simpl]; done.
Qed.

Lemma find_app_absent (f : Msg → bool) (l1 l2 : list Msg) :
  (∀ y, y ∈ l1 → f y = false) → find f (l1 ++ l2) = find f l2.
Proof.
  induction l1 as [|a l1 IH]; simpl; [done|]. intros Hall.
  rewrite (Hall a) by (apply elem_of_cons; by left).
  apply IH. intros y Hy. apply Hall. apply elem_of_cons. by right.
Qed.

End PlainHandlers.

Section CoordinatorFacts.
Import Legacy Idioms.

Variable get_company_info_tool : pyval → result pyval.
Variable get_stock_price_tool : pyval → result pyval.
Variable get_company_executives_tool : pyval → result pyval.
Variable get_person_info_tool : pyval → result pyval.
Variable get_person_career_info_tool : pyval → result pyval.
Variable search_person_news_tool : pyval → result pyval.
Variable get_person_social_media_tool : pyval → result pyval.
Variable str : pyval → string.
Variable str_exn : exn → string.
Variable draw_company : A2AMessage → string * string.
Variable draw_person : A2AMessage → string * string.

#[local] Abbreviation company_handle :=
  (A2ACompanyAgent.handle_message get_company_info_tool get_stock_price_tool
     get_company_executives_tool str str_exn).
#[local] Abbreviation company_handler :=
  (A2ACompanyAgent.handler get_company_info_tool get_stock_price_tool
     get_company_executives_tool str str_exn draw_company).
#[local] Abbreviation person_handler :=
  (A2APersonAgent.handler get_person_info_tool get_person_career_info_tool
     search_person_news_tool get_person_social_media_tool str str_exn draw_person).

(** X15. The coordinator never answers: its handler returns [None] for
    every envelope, except that a request whose content is not a dict raises
    the [AttributeError] of the lookup of its action. Sent through a bus on
    which the coordinator is registered, an envelope for the coordinator
    with a dict as content adds itself to the history and nothing else, and
    [send_message] returns [None]. *)
Theorem coordinator_never_replies :
  (∀ message,
     A2ACoordinator.handle_message message = Ok None ∨
     (A2ACoordinator.handle_message message
      = Raise (AttributeError (type_name (content message)) "get") ∧
      message_type message = REQUEST ∧ ∀ d, content message ≠ PyDict d)) ∧
  (∀ fuel (bus : LegacyBus.MessageBus) message (d : dict),
     Bus.agent_handlers bus !! COORDINATOR = Some A2ACoordinator.handler →
     receiver message = COORDINATOR → content message = PyDict d →
     ∃ bus', LegacyBus.send_message (S fuel) bus message = Some (bus', Ok None) ∧
       Bus.message_history bus' = Bus.message_history bus ++ [message]).
Proof.
  split.
  - intros message. unfold A2ACoordinator.handle_message, A2ACoordinator._handle_request.
    destruct (message_type message) eqn:Htype; try (by left).
    destruct (content message) as [| | | | |d] eqn:Hcontent; simpl;
      try (right; split; [done|]; split; [done|]; intros d; congruence).
    by left.
  - intros fuel bus message d Hh Hrecv Hcontent.
    destruct (send_to_plain receiver LegacyBus.prints fuel bus message
                A2ACoordinator.handler (Ok None)) as (bus' & Hsend & _ & Hhistory).
    { by rewrite Hrecv. }
    { unfold A2ACoordinator.handler, A2ACoordinator.handle_message,
        A2ACoordinator._handle_request.
      rewrite Hcontent. by destruct (message_type message). }
    by exists bus'.
Qed.


(** A request, its reply, and the thread of the two. *)
Lemma request_reply_thread_generic {Msg : Type}
    (receiver : Msg → AgentRole) (message_id : Msg → string)
    (in_reply_to : Msg → option string) (prints : Bus.line Msg → bool)
    fuel (bus : Bus.MessageBus Msg) m handler reply :
  Bus.agent_handlers bus !! receiver m = Some handler →
  handler m = Bus.Return (Some reply) →
  in_reply_to reply = Some (message_id m) →
  in_reply_to m ≠ Some (message_id m) →
  in_reply_to m ≠ Some (message_id reply) →
  message_id reply ≠ message_id m →
  (∀ x, x ∈ Bus.message_history bus →
     message_id x ≠ message_id m ∧ in_reply_to x ≠ Some (message_id m) ∧
     in_reply_to x ≠ Some (message_id reply)) →
  ∃ bus', Bus.send_message receiver prints (S fuel) bus m = Some (bus', Ok (Some reply)) ∧
    Bus.message_history bus' = Bus.message_history bus ++ [m; reply] ∧
    ∀ fuel', Bus.get_conversation message_id in_reply_to (S (S fuel')) bus' (message_id m)
             = Some [m; reply].
Proof.
  intros Hh Hret Hreply Hself Hcross Hids Hold.
  destruct (send_message_returns receiver prints fuel bus m handler (Some reply) Hh Hret)
    as (bus' & Hsend & _ & Hhistory & _).
  exists bus'. split; [done|]. split; [done|]. intros fuel'.
  unfold Bus.get_conversation. rewrite Hhistory. simpl.
  rewrite find_app_absent.
  2:{ intros x Hx. apply String.eqb_neq. by apply Hold. }
  simpl. rewrite String.eqb_refl.
  rewrite find_app_absent.
  2:{ intros x Hx. apply bool_decide_eq_false. by apply Hold. }
  simpl. rewrite (bool_decide_eq_false_2 _ Hself). rewrite (bool_decide_eq_true_2 _ Hreply).
  rewrite find_app_absent.
  2:{ intros x Hx. apply bool_decide_eq_false. by apply Hold. }
  simpl. rewrite (bool_decide_eq_false_2 _ Hcross).
  rewrite bool_decide_eq_false_2; [done|].
  rewrite Hreply. intros [= Heq]. by apply Hids.
Qed.

(** An entry that is the first reply to its own id: the loop does not end. *)
Lemma replies_self_loop {Msg : Type} (message_id : Msg → string)
    (in_reply_to : Msg → option string) history m :
  find (fun x => bool_decide (in_reply_to x = Some (message_id m))) history = Some m →
  ∀ fuel conversation,
    Bus.replies message_id in_reply_to fuel history (message_id m) conversation = None.
Proof.
  intros Hfind fuel. induction fuel as [|fuel IH]; intros conversation; [done|].
  simpl. rewrite Hfind. apply IH.
Qed.

(** X17. The thread of a request and its reply, on either bus. Take an
    envelope that a handler answers with a reply naming it in [in_reply_to].
    Let the envelope itself name neither its own id nor the id of the reply in
    its [in_reply_to], let the two ids differ, and let no entry of the history
    carry the id of the request or reply to either id. Then [send_message]
    followed by [get_conversation] at the id of the request gives the request
    and the reply, in that order. A request built by [create_request] names
    nothing, so this holds for a request of the coordinator to the company
    agent, whatever the tools do, as long as the agent replies, the id drawn
    for the reply is not the id of the request, and the history is as said.
    The condition on the request is needed: an envelope that names itself in
    [in_reply_to] is the first reply to its own id, and [get_conversation] at
    its id does not return, whatever the fuel. *)
Theorem request_reply_thread :
  (∀ (Msg : Type) (receiver : Msg → AgentRole) (message_id : Msg → string)
     (in_reply_to : Msg → option string) (prints : Bus.line Msg → bool)
     fuel (bus : Bus.MessageBus Msg) m handler reply,
     Bus.agent_handlers bus !! receiver m = Some handler →
     handler m = Bus.Return (Some reply) →
     in_reply_to reply = Some (message_id m) →
     in_reply_to m ≠ Some (message_id m) →
     in_reply_to m ≠ Some (message_id reply) →
     message_id reply ≠ message_id m →
     (∀ x, x ∈ Bus.message_history bus →
        message_id x ≠ message_id m ∧ in_reply_to x ≠ Some (message_id m) ∧
        in_reply_to x ≠ Some (message_id reply)) →
     ∃ bus', Bus.send_message receiver prints (S fuel) bus m = Some (bus', Ok (Some reply)) ∧
       ∀ fuel', Bus.get_conversation message_id in_reply_to (S (S fuel')) bus' (message_id m)
                = Some [m; reply]) ∧
  (∀ fuel uuid now ticker (bus : LegacyBus.MessageBus) reply,
     let request := create_request uuid now COORDINATOR COMPANY_AGENT "full_research"
                      (PyDict {[ "ticker" := ticker ]}) in
     Bus.agent_handlers bus !! COMPANY_AGENT = Some company_handler →
     company_handle (draw_company request).1 (draw_company request).2 request
     = Ok (Some reply) →
     (draw_company request).1 ≠ uuid →
     (∀ x, x ∈ Bus.message_history bus →
        message_id x ≠ uuid ∧ in_reply_to x ≠ Some uuid ∧
        in_reply_to x ≠ Some (draw_company request).1) →
     ∃ bus' data,
       A2ACoordinator.request_company_research (S fuel) uuid now ticker bus
       = Some (bus', data) ∧
       ∀ fuel', LegacyBus.get_conversation (S (S fuel')) bus' uuid = Some [request; reply]) ∧
  (∀ (Msg : Type) (receiver : Msg → AgentRole) (message_id : Msg → string)
     (in_reply_to : Msg → option string) (prints : Bus.line Msg → bool)
     fuel (bus : Bus.MessageBus Msg) m handler reply,
     Bus.agent_handlers bus !! receiver m = Some handler →
     handler m = Bus.Return (Some reply) →
     in_reply_to m = Some (message_id m) →
     (∀ x, x ∈ Bus.message_history bus →
        message_id x ≠ message_id m ∧ in_reply_to x ≠ Some (message_id m)) →
     ∃ bus', Bus.send_message receiver prints (S fuel) bus m = Some (bus', Ok (Some reply)) ∧
       ∀ fuel', Bus.get_conversation message_id in_reply_to fuel' bus' (message_id m) = None).
Proof.
  split; [|split].
  - intros Msg receiver message_id in_reply_to prints fuel bus m handler reply
      Hh Hret Hreply Hself Hcross Hids Hold.
    destruct (request_reply_thread_generic receiver message_id in_reply_to prints
                fuel bus m handler reply Hh Hret Hreply Hself Hcross Hids Hold)
      as (bus' & Hsend & _ & Hthread).
    by exists bus'.
  - intros fuel uuid now ticker bus reply request Hh Hreply Hids Hold.
    destruct (company_reply_names_request str str_exn get_company_info_tool
                get_stock_price_tool get_company_executives_tool (draw_company request).1
                (draw_company request).2 request reply Hreply) as [Hin Hid].
    destruct (request_reply_thread_generic receiver message_id in_reply_to
                LegacyBus.prints fuel bus request company_handler reply)
      as (bus' & Hsend & _ & Hthread).
    + done.
    + unfold A2ACompanyAgent.handler. by rewrite Hreply.
    + done.
    + done.
    + done.
    + by rewrite Hid.
    + intros x Hx. rewrite Hid. by apply Hold.
    + unfold A2ACoordinator.request_company_research, A2ACoordinator.request.
      unfold A2ACoordinator.role. fold request.
      unfold LegacyBus.send_message. rewrite Hsend. simpl.
      eexists _, _. split; [reflexivity|]. exact Hthread.
  - intros Msg receiver message_id in_reply_to prints fuel bus m handler reply
      Hh Hret Hself Hold.
    destruct (send_message_returns receiver prints fuel bus m handler (Some reply) Hh Hret)
      as (bus' & Hsend & _ & Hhistory & _).
    exists bus'. split; [done|]. intros fuel'.
    unfold Bus.get_conversation. rewrite Hhistory. simpl.
    rewrite find_app_absent.
    2:{ intros x Hx. apply String.eqb_neq. by apply Hold. }
    simpl. rewrite String.eqb_refl.
    apply replies_self_loop.
    rewrite find_app_absent.
    2:{ intros x Hx. apply bool_decide_eq_false. by apply Hold. }
    simpl. by rewrite (bool_decide_eq_true_2 _ Hself).
Qed.

(** X18. [notify_agents] with the company agent and the person agent on
    the bus, or with either of them missing: the two notifications are
    recorded, first the one for the company agent, then the one for the
    person agent; neither is answered, no tool is asked, and the handlers are
    as before. *)
Theorem notify_agents_broadcasts :
  ∀ fuel draw event data (bus : LegacyBus.MessageBus),
    (Bus.agent_handlers bus !! COMPANY_AGENT = None ∨
     Bus.agent_handlers bus !! COMPANY_AGENT = Some company_handler) →
    (Bus.agent_handlers bus !! PERSON_AGENT = None ∨
     Bus.agent_handlers bus !! PERSON_AGENT = Some person_handler) →
    ∃ bus', A2ACoordinator.notify_agents (S fuel) draw event data bus = Some (bus', Ok ()) ∧
      Bus.agent_handlers bus' = Bus.agent_handlers bus ∧
      Bus.message_history bus' = Bus.message_history bus ++
        [create_notification (draw COMPANY_AGENT).1 (draw COMPANY_AGENT).2
           COORDINATOR COMPANY_AGENT event data;
         create_notification (draw PERSON_AGENT).1 (draw PERSON_AGENT).2
           COORDINATOR PERSON_AGENT event data].
Proof.
  intros fuel draw event data bus Hcompany Hperson.
  unfold A2ACoordinator.notify_agents, A2ACoordinator.notify_loop.
  set (n1 := create_notification (draw COMPANY_AGENT).1 (draw COMPANY_AGENT).2
               A2ACoordinator.role COMPANY_AGENT event data).
  set (n2 := create_notification (draw PERSON_AGENT).1 (draw PERSON_AGENT).2
               A2ACoordinator.role PERSON_AGENT event data).
  assert (∃ bus1, LegacyBus.send_message (S fuel) bus n1 = Some (bus1, Ok None) ∧
            Bus.agent_handlers bus1 = Bus.agent_handlers bus ∧
            Bus.message_history bus1 = Bus.message_history bus ++ [n1])
    as (bus1 & Hsend1 & Hh1 & Hhist1).
  { destruct Hcompany as [Hnone|Hsome].
    - by apply (send_to_nobody receiver LegacyBus.prints fuel bus n1).
    - by apply (send_to_plain receiver LegacyBus.prints fuel bus n1 company_handler (Ok None)). }
  assert (∃ bus2, LegacyBus.send_message (S fuel) bus1 n2 = Some (bus2, Ok None) ∧
            Bus.agent_handlers bus2 = Bus.agent_handlers bus1 ∧
            Bus.message_history bus2 = Bus.message_history bus1 ++ [n2])
    as (bus2 & Hsend2 & Hh2 & Hhist2).
  { rewrite <- Hh1 in Hperson. destruct Hperson as [Hnone|Hsome].
    - by apply (send_to_nobody receiver LegacyBus.prints fuel bus1 n2).
    - by apply (send_to_plain receiver LegacyBus.prints fuel bus1 n2 person_handler (Ok None)). }
  rewrite Hsend1, Hsend2. exists bus2. split; [done|].
  split; [congruence|]. rewrite Hhist2, Hhist1, <- app_assoc. done.
Qed.

End CoordinatorFacts.

(** *** The agents of the standard demo *)

Section StandardAgentFacts.
Import Standard Idioms.

Variable get_stock_price_tool : pyval → result pyval.
Variable get_company_info_tool : pyval → result pyval.
Variable get_person_info_tool : pyval → result pyval.

#[local] Abbreviation company_handle :=
  (StandardCompanyAgent.handle_message get_stock_price_tool get_company_info_tool).
#[local] Abbreviation person_handle :=
  (StandardPersonAgent.handle_message get_person_info_tool).

Lemma company_reply_answers uuid now agent_msg key result action ticker :
  StandardReply.answers COMPANY_AGENT uuid now agent_msg
    (StandardCompanyAgent.reply uuid now agent_msg key result action ticker).
Proof.
  unfold StandardReply.answers. simpl. do 6 (split; [done|]).
  split; [by exists key, result|].
  split; [eexists; split; [reflexivity | by map_lookups]|].
  by apply standard_from_dict_to_dict.
Qed.

Lemma person_reply_answers uuid now agent_msg result action person_name :
  StandardReply.answers PERSON_AGENT uuid now agent_msg
    (StandardPersonAgent.reply uuid now agent_msg result action person_name).
Proof.
  unfold StandardReply.answers. simpl. do 6 (split; [done|]).
  split; [by eexists _, result|].
  split; [eexists; split; [reflexivity | by map_lookups]|].
  by apply standard_from_dict_to_dict.
Qed.

Lemma company_handle_parts_answers uuid now agent_msg parts reply :
  StandardCompanyAgent.handle_parts get_stock_price_tool get_company_info_tool
    uuid now agent_msg parts = Ok (Some reply) →
  StandardReply.answers COMPANY_AGENT uuid now agent_msg reply.
Proof.
  induction parts as [|part parts IH]; simpl; [done|].
  destruct part as [type text | type json | type uri data filename]; [done| |done].
  handler_cases; try done; intros [= <-]; apply company_reply_answers.
Qed.

Lemma person_handle_parts_answers uuid now agent_msg parts reply :
  StandardPersonAgent.handle_parts get_person_info_tool uuid now agent_msg parts
  = Ok (Some reply) →
  StandardReply.answers PERSON_AGENT uuid now agent_msg reply.
Proof.
  induction parts as [|part parts IH]; simpl; [done|].
  destruct part as [type text | type json | type uri data filename]; [done| |done].
  handler_cases; try done; intros [= <-]; apply person_reply_answers.
Qed.

(** X19. The standard agents as handlers, for any tools. A reply of the
    company agent comes from [COMPANY_AGENT] (of the person agent, from
    [PERSON_AGENT]), goes to the sender of the envelope and names it in
    [in_reply_to]; its message has the role "agent", one json Part with one
    result, and metadata of type "response", and it is a message that
    [to_dict] and [from_dict] give back. Only a message with the role "user"
    is answered; for any other role the metadata and the Parts are not looked
    at, and the handler returns [None]. *)
Theorem standard_agents_reply_shape :
  (∀ uuid now agent_msg reply,
     company_handle uuid now agent_msg = Ok (Some reply) →
     Standard.role (message agent_msg) = PyStr "user" ∧
     StandardReply.answers COMPANY_AGENT uuid now agent_msg reply) ∧
  (∀ uuid now agent_msg reply,
     person_handle uuid now agent_msg = Ok (Some reply) →
     Standard.role (message agent_msg) = PyStr "user" ∧
     StandardReply.answers PERSON_AGENT uuid now agent_msg reply) ∧
  (∀ uuid now agent_msg,
     Standard.role (message agent_msg) ≠ PyStr "user" →
     company_handle uuid now agent_msg = Ok None ∧
     person_handle uuid now agent_msg = Ok None).
Proof.
  split; [|split].
  - intros uuid now agent_msg reply.
    unfold StandardCompanyAgent.handle_message, StandardCompanyAgent.is_request.
    destruct (eq_str (Standard.role (message agent_msg)) "user") eqn:Hrole; simpl; [|done].
    apply eq_str_true in Hrole.
    destruct (call_get _ _ _) as [message_type|e]; simpl; [|done].
    destruct (eq_str message_type "request"); [|done].
    intros Hparts. split; [done|]. by eapply company_handle_parts_answers.
  - intros uuid now agent_msg reply.
    unfold StandardPersonAgent.handle_message, StandardCompanyAgent.is_request.
    destruct (eq_str (Standard.role (message agent_msg)) "user") eqn:Hrole; simpl; [|done].
    apply eq_str_true in Hrole.
    destruct (call_get _ _ _) as [message_type|e]; simpl; [|done].
    destruct (eq_str message_type "request"); [|done].
    intros Hparts. split; [done|]. by eapply person_handle_parts_answers.
  - intros uuid now agent_msg Hrole.
    unfold StandardCompanyAgent.handle_message, StandardPersonAgent.handle_message,
      StandardCompanyAgent.is_request.
    destruct (eq_str (Standard.role (message agent_msg)) "user") eqn:Heq; [|done].
    by apply eq_str_true in Heq.
Qed.

(** X20. A request built by [create_request_message] and sent to the
    standard company agent through the bus. For "get_stock_price" with a
    dict of params, the agent answers with what the tool returned, and the
    history gains the request and the answer. When the tool raises, the
    exception leaves [send_message], whatever its class, and only the request
    is recorded: this agent has no [try]. For an action the agent does not
    know there is no answer at all: [send_message] returns [None] and only
    the request is recorded. *)
Theorem standard_company_agent_on_bus :
  ∀ verbose draw fuel (bus : StandardBus.MessageBus) uuid now sender action (p : dict) md,
    let request :=
      create_agent_message uuid now sender COMPANY_AGENT
        (create_request_message action (PyDict p) md) None in
    let arg := PyDict {[ "ticker" := get_or p "ticker" PyNone ]} in
    Bus.agent_handlers bus !! COMPANY_AGENT
    = Some (StandardCompanyAgent.handler get_stock_price_tool get_company_info_tool draw) →
    (∀ result,
       action = "get_stock_price" → get_stock_price_tool arg = Ok result →
       let reply :=
         StandardCompanyAgent.reply (draw request).1 (draw request).2 request
           "stock_price" result (PyStr action) (get_or p "ticker" PyNone) in
       ∃ bus', StandardBus.send_message verbose (S fuel) bus request
               = Some (bus', Ok (Some reply)) ∧
         Bus.message_history bus' = Bus.message_history bus ++ [request; reply]) ∧
    (∀ e,
       action = "get_stock_price" → get_stock_price_tool arg = Raise e →
       ∃ bus', StandardBus.send_message verbose (S fuel) bus request = Some (bus', Raise e) ∧
         Bus.message_history bus' = Bus.message_history bus ++ [request]) ∧
    (action ≠ "get_stock_price" → action ≠ "get_company_info" →
       ∃ bus', StandardBus.send_message verbose (S fuel) bus request = Some (bus', Ok None) ∧
         Bus.message_history bus' = Bus.message_history bus ++ [request]).
Proof.
  intros verbose draw fuel bus uuid now sender action p md request arg Hh.
  assert (∀ r, company_handle (draw request).1 (draw request).2 request = r →
            ∃ bus', StandardBus.send_message verbose (S fuel) bus request = Some (bus', r) ∧
              Bus.message_history bus'
              = Bus.message_history bus ++ request :: Bus.response_entry r) as Hsend.
  { intros r Hr.
    destruct (send_to_plain receiver (StandardBus.prints verbose) fuel bus request
                (StandardCompanyAgent.handler get_stock_price_tool get_company_info_tool draw)
                r) as (bus' & Hsend & _ & Hhistory); [done | | by exists bus'].
    unfold StandardCompanyAgent.handler. by rewrite Hr. }
  assert (company_handle (draw request).1 (draw request).2 request
          = StandardCompanyAgent.handle_parts get_stock_price_tool get_company_info_tool
              (draw request).1 (draw request).2 request
              [JsonPart (PyStr "json")
                 (PyDict (list_to_map [("action", PyStr action); ("params", PyDict p)]))])
    as Hparts.
  { unfold StandardCompanyAgent.handle_message, StandardCompanyAgent.is_request. simpl.
    unfold get_or. by map_lookups. }
  split; [|split].
  - intros result -> Hprice reply. apply (Hsend (Ok (Some reply))).
    rewrite Hparts. simpl. unfold get_or. map_lookups. simpl.
    unfold invoke. fold (get_or p "ticker" PyNone). fold arg. by rewrite Hprice.
  - intros e -> Hprice. apply (Hsend (Raise e)).
    rewrite Hparts. simpl. unfold get_or. map_lookups. simpl.
    unfold invoke. fold (get_or p "ticker" PyNone). fold arg. by rewrite Hprice.
  - intros Hne1 Hne2. apply (Hsend (Ok None)).
    rewrite Hparts. simpl. unfold get_or. map_lookups. simpl.
    by rewrite (eqb_ne action "get_stock_price"), (eqb_ne action "get_company_info").
Qed.

End StandardAgentFacts.

(** *** The workflow of the coordinator *)

Section WorkflowFacts.
Import Legacy Idioms Workflow.

Variable get_company_info_tool : pyval → result pyval.
Variable get_stock_price_tool : pyval → result pyval.
Variable get_company_executives_tool : pyval → result pyval.
Variable get_person_info_tool : pyval → result pyval.
Variable get_person_career_info_tool : pyval → result pyval.
Variable search_person_news_tool : pyval → result pyval.
Variable get_person_social_media_tool : pyval → result pyval.
Variable str : pyval → string.
Variable str_exn : exn → string.
Variable draw_company : A2AMessage → string * string.
Variable draw_person : A2AMessage → string * string.
Variable dict_slice : exn.

#[local] Abbreviation company_handle :=
  (A2ACompanyAgent.handle_message get_company_info_tool get_stock_price_tool
     get_company_executives_tool str str_exn).
#[local] Abbreviation company_handler :=
  (A2ACompanyAgent.handler get_company_info_tool get_stock_price_tool
     get_company_executives_tool str str_exn draw_company).
#[local] Abbreviation person_handle :=
  (A2APersonAgent.handle_message get_person_info_tool get_person_career_info_tool
     search_person_news_tool get_person_social_media_tool str str_exn).
#[local] Abbreviation person_handler :=
  (A2APersonAgent.handler get_person_info_tool get_person_career_info_tool
     search_person_news_tool get_person_social_media_tool str str_exn draw_person).
#[local] Abbreviation workflow :=
  (research_company_and_executives dict_slice).

Lemma person_research_executive_ok uuid now uuid' now' name title person_info career_info :
  get_person_info_tool (PyDict {[ "person_name" := name ]}) = Ok person_info →
  get_person_career_info_tool (PyDict {[ "person_name" := name ]}) = Ok career_info →
  person_handle uuid' now'
    (create_request uuid now COORDINATOR PERSON_AGENT "research_executive"
       (PyDict (list_to_map [("name", name); ("title", title)])))
  = Ok (Some (create_response uuid' now' PERSON_AGENT COORDINATOR
                (PyDict (list_to_map [("name", name); ("title", title);
                                      ("person_info", person_info);
                                      ("career_info", career_info)])) uuid)).
Proof.
  intros Hinfo Hcareer.
  unfold A2APersonAgent.handle_message, A2APersonAgent._handle_request. simpl.
  unfold get_or. map_lookups. simpl. unfold get_or. map_lookups. simpl.
  unfold invoke. by rewrite Hinfo, Hcareer.
Qed.

Lemma research_loop_spec fuel draw (person_info career_info : pyval → pyval) :
  (∀ arg, get_person_info_tool arg = Ok (person_info arg)) →
  (∀ arg, get_person_career_info_tool arg = Ok (career_info arg)) →
  ∀ items idx research (bus : LegacyBus.MessageBus),
    Bus.agent_handlers bus !! PERSON_AGENT = Some person_handler →
    Forall is_dict items →
    ∃ bus',
      research_loop (S fuel) draw idx items research bus
      = Some (bus', Ok (research ++ (researched person_info career_info <$> items))) ∧
      Bus.agent_handlers bus' = Bus.agent_handlers bus ∧
      Bus.message_history bus'
      = Bus.message_history bus
        ++ exchanges draw draw_person person_info career_info idx items.
Proof.
  intros Hinfo Hcareer items.
  induction items as [|exec_info items IH]; intros idx research bus Hh Hdicts.
  - exists bus. simpl. by rewrite !app_nil_r.
  - apply Forall_cons in Hdicts as [[d ->] Hdicts].
    cbn [research_loop exchanges field]. cbn [call_get mbind result_bind].
    set (name := get_or d "name" PyNone). set (title := get_or d "title" PyNone).
    set (arg := PyDict {[ "person_name" := name ]}).
    set (msg := create_request (draw idx).1 (draw idx).2 A2ACoordinator.role PERSON_AGENT
                  "research_executive"
                  (PyDict (list_to_map [("name", name); ("title", title)]))).
    set (reply := create_response (draw_person msg).1 (draw_person msg).2
                    PERSON_AGENT COORDINATOR
                    (PyDict (list_to_map [("name", name); ("title", title);
                                          ("person_info", person_info arg);
                                          ("career_info", career_info arg)]))
                    (draw idx).1).
    destruct (send_to_plain receiver LegacyBus.prints fuel bus msg person_handler
                (Ok (Some reply))) as (bus1 & Hsend & Hh1 & Hhist1).
    { done. }
    { unfold A2APersonAgent.handler. f_equal.
      exact (person_research_executive_ok (draw idx).1 (draw idx).2
               (draw_person msg).1 (draw_person msg).2 name title
               (person_info arg) (career_info arg) (Hinfo arg) (Hcareer arg)). }
    unfold LegacyBus.send_message at 1. rewrite Hsend.
    assert (research_entry (PyDict d) (Some reply)
            = Ok [researched person_info career_info (PyDict d)]) as ->.
    { unfold research_entry. simpl. by map_lookups. }
    destruct (IH (S idx) (research ++ [researched person_info career_info (PyDict d)]) bus1)
      as (bus' & Hloop & Hh' & Hhist); [by rewrite Hh1 | done |].
    exists bus'. rewrite Hloop. split; [by rewrite <- app_assoc|].
    split; [congruence|].
    rewrite Hhist, Hhist1, <- app_assoc. done.
Qed.

Lemma exchanges_length draw person_info career_info items :
  ∀ idx, length (exchanges draw draw_person person_info career_info idx items)
         = 2 * length items.
Proof.
  induction items as [|exec_info items IH]; intros idx; simpl; [done|].
  rewrite IH. lia.
Qed.

(** The exchange with the company agent that opens the workflow. *)
Lemma company_exchange fuel uuid now ticker (bus : LegacyBus.MessageBus) r :
  let request := create_request uuid now A2ACoordinator.role COMPANY_AGENT "full_research"
                   (PyDict {[ "ticker" := ticker ]}) in
  Bus.agent_handlers bus !! COMPANY_AGENT = Some company_handler →
  company_handle (draw_company request).1 (draw_company request).2 request = r →
  ∃ bus', LegacyBus.send_message (S fuel) bus request = Some (bus', r) ∧
    Bus.agent_handlers bus' = Bus.agent_handlers bus ∧
    Bus.message_history bus' = Bus.message_history bus ++ request :: Bus.response_entry r.
Proof.
  intros request Hh Hr.
  apply (send_to_plain receiver LegacyBus.prints fuel bus request company_handler r);
    [done|]. unfold A2ACompanyAgent.handler. by rewrite Hr.
Qed.

Lemma company_full_research_ok uuid now uuid' now' ticker company_info stock_price executives :
  let arg := PyDict {[ "ticker" := ticker ]} in
  get_company_info_tool arg = Ok company_info →
  get_stock_price_tool arg = Ok stock_price →
  get_company_executives_tool arg = Ok executives →
  company_handle uuid' now'
    (create_request uuid now A2ACoordinator.role COMPANY_AGENT "full_research" arg)
  = Ok (Some (create_response uuid' now' COMPANY_AGENT COORDINATOR
                (PyDict (list_to_map [
                   ("ticker", ticker); ("company_info", company_info);
                   ("stock_price", stock_price); ("executives", executives)])) uuid)).
Proof.
  intros arg Hinfo Hprice Hexecs.
  unfold A2ACompanyAgent.handle_message, A2ACompanyAgent._handle_request. simpl.
  unfold invoke, get_or. map_lookups. simpl. unfold get_or. subst arg. map_lookups. simpl.
  by rewrite Hinfo, Hprice, Hexecs.
Qed.


(** X21. The workflow [research_company_and_executives] when everything
    answers. Both agents are on the bus, the three company tools return, the
    executives tool reports success with a list of executives of which the
    first five are dicts, and the two person tools return for every name.
    Then the workflow returns the ticker, the company data and one research
    entry for each of the first five executives, in their order, and for no
    other; the history gains the request to the company agent and its
    response, and then, executive by executive, the request to the person
    agent and its response: two envelopes for the company and two for each
    executive researched, at most ten for the executives however many the
    tool lists. *)
Theorem research_workflow_completes :
  ∀ fuel uuid now draw ticker (bus : LegacyBus.MessageBus)
    company_info stock_price (exd exdata : dict) success execs
    (person_info career_info : pyval → pyval),
    let arg := PyDict {[ "ticker" := ticker ]} in
    Bus.agent_handlers bus !! COMPANY_AGENT = Some company_handler →
    Bus.agent_handlers bus !! PERSON_AGENT = Some person_handler →
    get_company_info_tool arg = Ok company_info →
    get_stock_price_tool arg = Ok stock_price →
    get_company_executives_tool arg = Ok (PyDict exd) →
    exd !! "success" = Some success → truthy success = true →
    exd !! "data" = Some (PyDict exdata) →
    exdata !! "executives" = Some (PyList execs) →
    Forall is_dict (take 5 execs) →
    (∀ arg, get_person_info_tool arg = Ok (person_info arg)) →
    (∀ arg, get_person_career_info_tool arg = Ok (career_info arg)) →
    let data := PyDict (list_to_map [
                  ("ticker", ticker); ("company_info", company_info);
                  ("stock_price", stock_price); ("executives", PyDict exd)]) in
    let request := create_request uuid now COORDINATOR COMPANY_AGENT "full_research" arg in
    let response := create_response (draw_company request).1 (draw_company request).2
                      COMPANY_AGENT COORDINATOR data uuid in
    ∃ bus',
      workflow (S fuel) uuid now draw ticker bus
      = Some (bus', Ok (results ticker data
                          (researched person_info career_info <$> take 5 execs))) ∧
      Bus.message_history bus'
      = Bus.message_history bus ++ request :: response ::
          exchanges draw draw_person person_info career_info 1 (take 5 execs) ∧
      length (Bus.message_history bus')
      = length (Bus.message_history bus) + 2 + 2 * (length execs `min` 5).
Proof.
  intros fuel uuid now draw ticker bus company_info stock_price exd exdata success execs
    person_info career_info arg Hhc Hhp Hinfo Hprice Hexecs Hsuccess Htruthy Hdata Hlist
    Hdicts Hpinfo Hpcareer data request response.
  destruct (company_exchange fuel uuid now ticker bus (Ok (Some response)) Hhc)
    as (bus1 & Hsend & Hh1 & Hhist1).
  { by apply company_full_research_ok. }
  destruct (research_loop_spec fuel draw person_info career_info Hpinfo Hpcareer
              (take 5 execs) 1 [] bus1) as (bus' & Hloop & Hh' & Hhist');
    [by rewrite Hh1 | done |].
  exists bus'.
  assert (workflow (S fuel) uuid now draw ticker bus
          = Some (bus', Ok (results ticker data
                              (researched person_info career_info <$> take 5 execs))))
    as Hrun.
  { unfold research_company_and_executives. rewrite Hsend.
    cbn [message_type response create_response create_message content].
    assert (executives_of dict_slice (PyDict (list_to_map [("data", data)]))
            = Ok (data, Some (take 5 execs))) as ->.
    { unfold executives_of, subscript, getitem. simpl. map_lookups. simpl.
      unfold get_or. map_lookups. simpl.
      unfold get_or. rewrite Hsuccess. simpl. rewrite Htruthy, Hdata. simpl.
      unfold get_or. by rewrite Hlist. }
    by rewrite Hloop. }
  split; [exact Hrun|].
  assert (Bus.message_history bus'
          = Bus.message_history bus ++ request :: response ::
              exchanges draw draw_person person_info career_info 1 (take 5 execs))
    as Hhist.
  { rewrite Hhist', Hhist1. simpl. by rewrite <- app_assoc. }
  split; [exact Hhist|].
  rewrite Hhist, length_app. simpl. rewrite exchanges_length, length_take. lia.
Qed.


End WorkflowFacts.

(** ** The further properties at concrete inputs *)

Section MoreInstances.

Lemma register_agent_overwrites_witness :
  Bus.agent_handlers (LegacyBus.register_agent COMPANY_AGENT silent legacy_bus)
    !! COMPANY_AGENT = Some silent ∧
  size (Bus.agent_handlers (LegacyBus.register_agent COMPANY_AGENT silent legacy_bus))
  = size (Bus.agent_handlers legacy_bus) ∧
  ∃ bus', LegacyBus.send_message 1
            (LegacyBus.register_agent COMPANY_AGENT silent legacy_bus) legacy_request
          = Some (bus', Ok None) ∧
    Bus.message_history bus' = [legacy_request].
Proof.
  destruct (register_agent_overwrites Legacy.receiver LegacyBus.prints LegacyBus.init
              COMPANY_AGENT (fun _ => Bus.Return (Some legacy_response)) silent)
    as (Hnew & _ & Hsize & _ & Hsend).
  split; [exact Hnew|]. split; [exact Hsize|].
  exact (Hsend 0 legacy_request None eq_refl eq_refl).
Defined.

Lemma standard_statistics_roles_witness :
  ∃ counts, StandardStatistics.message_roles stats_bus = Ok counts ∧
    StandardStatistics.sum_counts counts = 2.
Proof.
  destruct (proj1 (standard_statistics_roles stats_bus)) as (counts & Hroles & Hsum & _).
  - intros m Hin. apply elem_of_cons in Hin as [-> | Hin]; [by eexists|].
    apply elem_of_cons in Hin as [-> | Hin]; [by eexists|]. by apply elem_of_nil in Hin.
  - exists counts. split; [exact Hroles | exact Hsum].
Defined.

Lemma to_dict_injective_witness :
  (Standard.to_dict filled_forwards = Standard.to_dict filled_backwards ∧
   filled_forwards = filled_backwards) ∧
  Standard.to_dict msg1 ≠ Standard.to_dict msg2.
Proof.
  destruct to_dict_injective as (_ & Hstandard & _).
  split.
  - split; [reflexivity|].
    apply (Hstandard filled_forwards filled_backwards); reflexivity.
  - intros Heq.
    pose proof (Hstandard msg1 msg2 eq_refl eq_refl Heq) as Hsame.
    discriminate Hsame.
Defined.

Lemma legacy_from_dict_fields_witness :
  Legacy.from_dict legacy_no_timestamp_data = Failed (KeyError "timestamp").
Proof.
  destruct (proj1 legacy_from_dict_fields legacy_no_timestamp_data
              COORDINATOR COMPANY_AGENT Legacy.REQUEST eq_refl eq_refl eq_refl)
    as (_ & _ & Htimestamp & _).
  apply (Htimestamp (PyDict ∅) (PyStr "m-1")); reflexivity.
Defined.

Lemma standard_from_dict_edges_witness :
  Standard.from_dict robot_role_data
  = Decoded {| Standard.role := PyStr "robot"; Standard.parts := [];
               Standard.metadata := PyDict ∅ |}.
Proof.
  apply (proj1 standard_from_dict_edges robot_role_data (PyStr "robot")); reflexivity.
Defined.

Lemma roundtrip_idempotent_witness :
  Standard.from_dict (Standard.to_dict text_file_message) = Decoded text_file_read_back ∧
  Standard.from_dict (Standard.to_dict text_file_read_back) = Decoded text_file_read_back.
Proof.
  split; [reflexivity|].
  apply (roundtrip_idempotent text_file_message text_file_read_back). reflexivity.
Defined.

Lemma negative_max_skips_oldest_witness :
  ∃ r, TaskContext.get_context task1 (Some (-1)%Z) talk_heap
       = Some (r, <[r := TaskContext.Messages [msg2]]> talk_heap).
Proof.
  destruct (proj1 negative_max_skips_oldest talk_heap task1 task1_obj [msg1; msg2] (-1)%Z
              eq_refl eq_refl eq_refl) as (r & _ & Hget & _).
  exists r. exact Hget.
Defined.

Lemma create_message_with_context_spec_witness :
  ∃ m h',
    ContextBuilder.create_message_with_context "user" "What about its competitors?"
      task1 true 5 talk_heap = Some (m, h') ∧
    Standard.parts m
    = [Standard.TextPart (PyStr "text")
         "[Context: 2 previous messages in this conversation]";
       Standard.TextPart (PyStr "text") "What about its competitors?"] ∧
    Standard.from_dict (Standard.to_dict m) = Decoded m.
Proof.
  destruct (create_message_with_context_spec talk_heap task1 task1_obj [msg1; msg2]
              "user" "What about its competitors?" true 5%Z eq_refl eq_refl)
    as (m & h' & md & n & Hcreate & _ & Hparts & Hn & _ & _ & _ & _ & _ & _ & _ & Hround).
  exists m, h'. split; [exact Hcreate|]. split; [|exact Hround].
  rewrite Hparts, (Hn eq_refl). reflexivity.
Defined.

Lemma lifecycle_calls_fresh : NoDup (TaskContext.created lifecycle_calls).*1.
Proof. apply (bool_decide_unpack _). reflexivity. Qed.

Lemma lifecycle_calls_well_targeted : TaskContext.well_targeted lifecycle_calls.
Proof.
  intros i c tid Hi Htarget.
  do 5 (destruct i as [|i];
        [simpl in Hi; injection Hi as <-; simpl in Htarget; try done;
         injection Htarget as <-; apply (bool_decide_unpack _); reflexivity|]).
  done.
Qed.

Lemma task_state_follows_calls_witness :
  ∃ manager (h : TaskContext.heap) r T,
    TaskContext.run lifecycle_calls TaskContext.start = Some (manager, h) ∧
    TaskContext.get_task manager "task-1" = Some r ∧
    TaskContext.task_at h r = Some T ∧
    TaskContext.state (TaskContext.status T) = TaskContext.COMPLETED ∧
    TaskContext.messages_at h (TaskContext.history T) = Some [msg1] ∧
    TaskContext.artifacts_at h (TaskContext.artifacts T)
    = Some [{["ticker" := PyStr "AAPL"]}].
Proof.
  destruct (task_state_follows_calls lifecycle_calls lifecycle_calls_fresh
              lifecycle_calls_well_targeted) as (manager & h & Hrun & Hall).
  specialize (Hall "task-1").
  destruct (TaskContext.get_task manager "task-1") as [r|] eqn:Hget.
  - destruct Hall as (T & HT & _ & _ & Hstatus & Hmessages & Hartifacts).
    exists manager, h, r, T. split; [exact Hrun|]. split; [exact Hget|].
    split; [exact HT|]. split; [|split; [exact Hmessages | exact Hartifacts]].
    injection Hstatus as <-. reflexivity.
  - exfalso. apply Hall. apply (bool_decide_unpack _). reflexivity.
Defined.

Lemma company_agent_request_outcomes_witness :
  A2ACompanyAgent.handle_message info_tool price_tool executives_tool
    sample_str sample_str_exn "id-2" now1 legacy_request
  = Ok (Some (Legacy.create_response "id-2" now1 COMPANY_AGENT COORDINATOR
                (PyDict {["stock_price" := PyDict {["price" := PyInt 273]}]}) "id-1")) ∧
  A2ACompanyAgent.handle_message failing_tool price_tool executives_tool
    sample_str sample_str_exn "re-id-1" now1 research_request
  = Ok (Some (Legacy.create_error "re-id-1" now1 COMPANY_AGENT COORDINATOR
                "Error processing request: boom" "id-1")).
Proof.
  split.
  - destruct (company_agent_request_outcomes sample_str sample_str_exn
                info_tool price_tool executives_tool "id-2" now1 legacy_request
                (list_to_map [("action", PyStr "get_stock_price");
                              ("params", PyDict {["ticker" := PyStr "AAPL"]})])
                eq_refl eq_refl) as (_ & _ & _ & Hprice & _).
    exact (Hprice {["ticker" := PyStr "AAPL"]} eq_refl eq_refl).
  - destruct (company_agent_request_outcomes sample_str sample_str_exn
                failing_tool price_tool executives_tool "re-id-1" now1 research_request
                (list_to_map [("action", PyStr "full_research");
                              ("params", PyDict {["ticker" := PyStr "AAPL"]})])
                eq_refl eq_refl) as (_ & _ & _ & _ & _ & Hfull).
    exact (Hfull {["ticker" := PyStr "AAPL"]} eq_refl eq_refl).
Defined.

Lemma person_agent_research_executive_witness :
  A2APersonAgent.handle_message person_info_tool career_tool failing_tool failing_tool
    sample_str sample_str_exn "id-8" now1 executive_request
  = Ok (Some (Legacy.create_response "id-8" now1 PERSON_AGENT COORDINATOR
                (PyDict (list_to_map [
                   ("name", PyStr "Ada"); ("title", PyStr "");
                   ("person_info", person_info_of (PyDict {["person_name" := PyStr "Ada"]}));
                   ("career_info", career_info_of (PyDict {["person_name" := PyStr "Ada"]}))]))
                "id-7")).
Proof.
  apply (proj1 (person_agent_research_executive sample_str sample_str_exn
                  person_info_tool career_tool failing_tool failing_tool
                  "id-8" now1 executive_request
                  (list_to_map [("action", PyStr "research_executive");
                                ("params", PyDict {["name" := PyStr "Ada"]})])
                  {["name" := PyStr "Ada"]} eq_refl eq_refl eq_refl eq_refl));
    reflexivity.
Defined.

Lemma coordinator_never_replies_witness :
  ∃ bus', LegacyBus.send_message 1 agents_bus legacy_response = Some (bus', Ok None) ∧
    Bus.message_history bus' = [legacy_response].
Proof.
  apply (proj2 coordinator_never_replies 0 agents_bus legacy_response
           {["data" := PyDict {["price" := PyInt 273]}]}); reflexivity.
Defined.


Lemma request_reply_thread_witness :
  ∃ bus' data,
    A2ACoordinator.request_company_research 1 "id-1" now0 (PyStr "AAPL") agents_bus
    = Some (bus', data) ∧
    LegacyBus.get_conversation 2 bus' "id-1" = Some [research_request; research_response].
Proof.
  destruct (proj1 (proj2 (request_reply_thread info_tool price_tool executives_tool
                            sample_str sample_str_exn reply_draw))
              0 "id-1" now0 (PyStr "AAPL") agents_bus research_response)
    as (bus' & data & Hrequest & Hthread).
  - reflexivity.
  - reflexivity.
  - discriminate.
  - intros x Hx. by apply elem_of_nil in Hx.
  - exists bus', data. split; [exact Hrequest | exact (Hthread 0)].
Defined.

Lemma notify_agents_broadcasts_witness :
  ∃ bus', A2ACoordinator.notify_agents 1 role_draw "market_open" (PyDict ∅) agents_bus
          = Some (bus', Ok ()) ∧
    Bus.message_history bus'
    = [Legacy.create_notification "note-company_agent" now0 COORDINATOR COMPANY_AGENT
         "market_open" (PyDict ∅);
       Legacy.create_notification "note-person_agent" now0 COORDINATOR PERSON_AGENT
         "market_open" (PyDict ∅)].
Proof.
  destruct (notify_agents_broadcasts info_tool price_tool executives_tool
              person_info_tool career_tool failing_tool failing_tool
              sample_str sample_str_exn reply_draw reply_draw
              0 role_draw "market_open" (PyDict ∅) agents_bus)
    as (bus' & Hnotify & _ & Hhistory).
  - right. reflexivity.
  - right. reflexivity.
  - exists bus'. split; [exact Hnotify | exact Hhistory].
Defined.

Lemma standard_agents_reply_shape_witness :
  StandardCompanyAgent.handle_message price_tool info_tool "re-id-1" now1 standard_request
  = Ok (Some standard_answer) ∧
  StandardReply.answers COMPANY_AGENT "re-id-1" now1 standard_request standard_answer.
Proof.
  split; [reflexivity|].
  apply (proj1 (standard_agents_reply_shape price_tool info_tool person_info_tool)
           "re-id-1" now1 standard_request standard_answer). reflexivity.
Defined.

Lemma standard_company_agent_on_bus_witness :
  ∃ bus', StandardBus.send_message true 1 (standard_agents_bus true) standard_request
          = Some (bus', Ok (Some standard_answer)) ∧
    Bus.message_history bus' = [standard_request; standard_answer].
Proof.
  destruct (standard_company_agent_on_bus price_tool info_tool true standard_reply_draw 0
              (standard_agents_bus true) "id-1" "2024-01-01T00:00:00" COORDINATOR
              "get_stock_price" {["ticker" := PyStr "AAPL"]} None eq_refl)
    as (Hanswer & _).
  exact (Hanswer (PyDict {["price" := PyInt 273]}) eq_refl eq_refl).
Defined.

Lemma research_workflow_completes_witness :
  ∃ bus' research,
    Workflow.research_company_and_executives boom 1 "id-1" now0 turn_draw (PyStr "AAPL")
      agents_bus
    = Some (bus', Ok (Workflow.results (PyStr "AAPL") research_data research)) ∧
    length research = 5 ∧
    length (Bus.message_history bus') = 12.
Proof.
  destruct (research_workflow_completes info_tool price_tool executives_tool
              person_info_tool career_tool failing_tool failing_tool
              sample_str sample_str_exn reply_draw reply_draw boom
              0 "id-1" now0 turn_draw (PyStr "AAPL") agents_bus
              (PyStr "Apple Inc.") (PyDict {["price" := PyInt 273]})
              executives_data {["executives" := PyList six_executives]} (PyBool true)
              six_executives person_info_of career_info_of)
    as (bus' & Hrun & _ & Hlen); try reflexivity.
  - repeat (constructor; [by eexists|]). constructor.
  - exists bus', (Workflow.researched person_info_of career_info_of <$> take 5 six_executives).
    split; [exact Hrun|]. split; [reflexivity | exact Hlen].
Defined.


End MoreInstances.
